(** * Verification of quant-commander-v2: sample data generator and ranker

    Shallow embedding of [src/generate_sample_data.py] (business profile
    catalogue, record synthesis, [SampleDataGenerator.generate_data]) and of
    [src/analyze_reg.py] ([analyze_product_performance] and its inner
    [get_top_bottom_products]). *)

From Stdlib Require Import ZArith QArith Qround String Ascii List Bool Lia Lqa.
From Stdlib Require Import Sorting.Sorted Sorting.Permutation.
Import ListNotations.
Open Scope string_scope.

(* ================================================================== *)
(** ** Python strings *)

Module PyStr.

(** [c.lower()] on one ASCII character. *)
Definition lower_char (c : ascii) : ascii :=
  let n := nat_of_ascii c in
  if ((65 <=? n) && (n <=? 90))%nat then ascii_of_nat (n + 32)%nat else c.

(** [s.lower()] restricted to ASCII text. *)
Fixpoint lower_ascii (s : string) : string :=
  match s with
  | EmptyString => EmptyString
  | String c s' => String (lower_char c) (lower_ascii s')
  end.

(** Python's [kw in s] on strings: substring containment. *)
Fixpoint contains (kw s : string) : bool :=
  prefix kw s ||
  match s with
  | EmptyString => false
  | String _ s' => contains kw s'
  end.

(** [any(keyword in s for keyword in kws)] *)
Definition any_in (kws : list string) (s : string) : bool :=
  existsb (fun kw => contains kw s) kws.

End PyStr.

(* ================================================================== *)
(** ** BusinessProfileCatalog: [AIProductGenerator] *)

Module Catalog.
Import PyStr.

(** The tuple [(products, categories, mapping)] returned by the
    [_generate_*_data] methods; a Python dict literal is kept as its list of
    items in insertion order. *)
Record profile := mkProfile {
  products : list string;
  categories : list string;
  mapping : list (string * string)
}.

Definition _generate_restaurant_data : profile := mkProfile
  ["Caesar Salad"; "Buffalo Wings"; "Mozzarella Sticks";
   "Grilled Salmon"; "Prime Ribeye Steak"; "Chicken Parmesan";
   "Craft Beer Selection"; "Premium Wine List"; "Specialty Cocktails";
   "Chocolate Lava Cake"; "Tiramisu"; "Seasonal Fruit Tart";
   "Chef's Daily Special"; "Weekend Brunch Menu"; "Holiday Feast"]
  ["Appetizers"; "Main Courses"; "Beverages"; "Desserts"; "Specials"]
  [("Caesar Salad", "Appetizers"); ("Buffalo Wings", "Appetizers");
   ("Mozzarella Sticks", "Appetizers");
   ("Grilled Salmon", "Main Courses"); ("Prime Ribeye Steak", "Main Courses");
   ("Chicken Parmesan", "Main Courses");
   ("Craft Beer Selection", "Beverages"); ("Premium Wine List", "Beverages");
   ("Specialty Cocktails", "Beverages");
   ("Chocolate Lava Cake", "Desserts"); ("Tiramisu", "Desserts");
   ("Seasonal Fruit Tart", "Desserts");
   ("Chef's Daily Special", "Specials"); ("Weekend Brunch Menu", "Specials");
   ("Holiday Feast", "Specials")].

Definition _generate_fitness_data : profile := mkProfile
  ["Professional Treadmill"; "Elliptical Trainer"; "Stationary Bike";
   "Olympic Weight Set"; "Power Rack System"; "Adjustable Dumbbells";
   "Yoga Mat Premium"; "Resistance Bands"; "Foam Roller";
   "Whey Protein Powder"; "Pre-Workout Formula"; "Recovery Drink";
   "Athletic Shorts"; "Performance T-Shirt"; "Training Shoes"]
  ["Cardio Equipment"; "Strength Training"; "Accessories"; "Supplements";
   "Apparel"]
  [("Professional Treadmill", "Cardio Equipment");
   ("Elliptical Trainer", "Cardio Equipment");
   ("Stationary Bike", "Cardio Equipment");
   ("Olympic Weight Set", "Strength Training");
   ("Power Rack System", "Strength Training");
   ("Adjustable Dumbbells", "Strength Training");
   ("Yoga Mat Premium", "Accessories"); ("Resistance Bands", "Accessories");
   ("Foam Roller", "Accessories");
   ("Whey Protein Powder", "Supplements");
   ("Pre-Workout Formula", "Supplements"); ("Recovery Drink", "Supplements");
   ("Athletic Shorts", "Apparel"); ("Performance T-Shirt", "Apparel");
   ("Training Shoes", "Apparel")].

Definition _generate_tech_data : profile := mkProfile
  ["Gaming Laptop Pro"; "Desktop Workstation"; "Ultrabook Elite";
   "Flagship Smartphone"; "Tablet Pro"; "Smartwatch Series";
   "4K Monitor"; "Wireless Headphones"; "Streaming Camera";
   "Gaming Console"; "Mechanical Keyboard"; "Gaming Mouse Pro";
   "Smart Thermostat"; "Security Camera System"; "Voice Assistant"]
  ["Computing"; "Mobile Devices"; "Audio/Visual"; "Gaming"; "Smart Home"]
  [("Gaming Laptop Pro", "Computing"); ("Desktop Workstation", "Computing");
   ("Ultrabook Elite", "Computing");
   ("Flagship Smartphone", "Mobile Devices"); ("Tablet Pro", "Mobile Devices");
   ("Smartwatch Series", "Mobile Devices");
   ("4K Monitor", "Audio/Visual"); ("Wireless Headphones", "Audio/Visual");
   ("Streaming Camera", "Audio/Visual");
   ("Gaming Console", "Gaming"); ("Mechanical Keyboard", "Gaming");
   ("Gaming Mouse Pro", "Gaming");
   ("Smart Thermostat", "Smart Home"); ("Security Camera System", "Smart Home");
   ("Voice Assistant", "Smart Home")].

Definition _generate_fashion_data : profile := mkProfile
  ["Designer Jeans"; "Cotton T-Shirt"; "Casual Hoodie";
   "Business Suit"; "Evening Dress"; "Dress Shirt";
   "Running Sneakers"; "Leather Boots"; "Dress Shoes";
   "Designer Handbag"; "Luxury Watch"; "Statement Jewelry";
   "Winter Coat"; "Summer Dress"; "Beach Swimwear"]
  ["Casual Wear"; "Formal Wear"; "Footwear"; "Accessories"; "Seasonal"]
  [("Designer Jeans", "Casual Wear"); ("Cotton T-Shirt", "Casual Wear");
   ("Casual Hoodie", "Casual Wear");
   ("Business Suit", "Formal Wear"); ("Evening Dress", "Formal Wear");
   ("Dress Shirt", "Formal Wear");
   ("Running Sneakers", "Footwear"); ("Leather Boots", "Footwear");
   ("Dress Shoes", "Footwear");
   ("Designer Handbag", "Accessories"); ("Luxury Watch", "Accessories");
   ("Statement Jewelry", "Accessories");
   ("Winter Coat", "Seasonal"); ("Summer Dress", "Seasonal");
   ("Beach Swimwear", "Seasonal")].

Definition _generate_automotive_data : profile := mkProfile
  ["Performance Air Filter"; "Turbocharger Kit"; "Exhaust System";
   "Carbon Fiber Hood"; "LED Headlights"; "Custom Wheels";
   "Leather Seat Covers"; "Dashboard Kit"; "Floor Mats";
   "GPS Navigation"; "Backup Camera"; "Sound System";
   "Motor Oil Premium"; "Brake Pads"; "Tire Set"]
  ["Engine Parts"; "Body & Exterior"; "Interior"; "Electronics";
   "Maintenance"]
  [("Performance Air Filter", "Engine Parts");
   ("Turbocharger Kit", "Engine Parts"); ("Exhaust System", "Engine Parts");
   ("Carbon Fiber Hood", "Body & Exterior");
   ("LED Headlights", "Body & Exterior"); ("Custom Wheels", "Body & Exterior");
   ("Leather Seat Covers", "Interior"); ("Dashboard Kit", "Interior");
   ("Floor Mats", "Interior");
   ("GPS Navigation", "Electronics"); ("Backup Camera", "Electronics");
   ("Sound System", "Electronics");
   ("Motor Oil Premium", "Maintenance"); ("Brake Pads", "Maintenance");
   ("Tire Set", "Maintenance")].

Definition _generate_beauty_data : profile := mkProfile
  ["Anti-Aging Serum"; "Moisturizing Cream"; "Cleansing Oil";
   "Foundation Premium"; "Lipstick Collection"; "Eyeshadow Palette";
   "Shampoo & Conditioner"; "Hair Styling Cream"; "Hair Dryer Pro";
   "Luxury Perfume"; "Body Spray"; "Scented Candle";
   "Makeup Brush Set"; "Beauty Blender"; "LED Mirror"]
  ["Skincare"; "Makeup"; "Haircare"; "Fragrance"; "Tools"]
  [("Anti-Aging Serum", "Skincare"); ("Moisturizing Cream", "Skincare");
   ("Cleansing Oil", "Skincare");
   ("Foundation Premium", "Makeup"); ("Lipstick Collection", "Makeup");
   ("Eyeshadow Palette", "Makeup");
   ("Shampoo & Conditioner", "Haircare"); ("Hair Styling Cream", "Haircare");
   ("Hair Dryer Pro", "Haircare");
   ("Luxury Perfume", "Fragrance"); ("Body Spray", "Fragrance");
   ("Scented Candle", "Fragrance");
   ("Makeup Brush Set", "Tools"); ("Beauty Blender", "Tools");
   ("LED Mirror", "Tools")].

Definition _generate_home_data : profile := mkProfile
  ["Leather Sofa Set"; "Dining Table Oak"; "Office Chair Ergonomic";
   "Wall Art Canvas"; "Table Lamp Modern"; "Decorative Vase";
   "Stainless Steel Cookware"; "Coffee Machine Pro"; "Blender High-Speed";
   "Garden Tool Set"; "Outdoor Furniture"; "Plant Collection";
   "Storage Bins"; "Closet Organizer"; "Garage Shelving"]
  ["Furniture"; "Decor"; "Kitchen"; "Garden"; "Storage"]
  [("Leather Sofa Set", "Furniture"); ("Dining Table Oak", "Furniture");
   ("Office Chair Ergonomic", "Furniture");
   ("Wall Art Canvas", "Decor"); ("Table Lamp Modern", "Decor");
   ("Decorative Vase", "Decor");
   ("Stainless Steel Cookware", "Kitchen"); ("Coffee Machine Pro", "Kitchen");
   ("Blender High-Speed", "Kitchen");
   ("Garden Tool Set", "Garden"); ("Outdoor Furniture", "Garden");
   ("Plant Collection", "Garden");
   ("Storage Bins", "Storage"); ("Closet Organizer", "Storage");
   ("Garage Shelving", "Storage")].

Definition DEFAULT_PRODUCTS : list string :=
  ["Premium Laptop Pro"; "Smart Home Security System";
   "Wireless Gaming Headset"; "Professional Coffee Machine";
   "Fitness Tracker Elite"; "4K Ultra HD TV"; "Electric Standing Desk";
   "Bluetooth Speaker Max"; "Digital Camera Pro"; "Smart Watch Series X";
   "Wireless Earbuds Pro"; "Smart Thermostat"; "Gaming Desktop Ultimate";
   "Yoga Mat Premium"; "Protein Powder"].

Definition DEFAULT_CATEGORIES : list string :=
  ["Electronics"; "Home & Garden"; "Health & Fitness"; "Office & Business";
   "Entertainment"].

Definition _create_fallback_mapping : list (string * string) :=
  [("Premium Laptop Pro", "Electronics");
   ("Smart Home Security System", "Home & Garden");
   ("Wireless Gaming Headset", "Electronics");
   ("Professional Coffee Machine", "Home & Garden");
   ("Fitness Tracker Elite", "Health & Fitness");
   ("4K Ultra HD TV", "Electronics");
   ("Electric Standing Desk", "Office & Business");
   ("Bluetooth Speaker Max", "Electronics");
   ("Digital Camera Pro", "Electronics");
   ("Smart Watch Series X", "Health & Fitness");
   ("Wireless Earbuds Pro", "Electronics");
   ("Smart Thermostat", "Home & Garden");
   ("Gaming Desktop Ultimate", "Electronics");
   ("Yoga Mat Premium", "Health & Fitness");
   ("Protein Powder", "Health & Fitness")].

Definition _generate_generic_data : profile :=
  mkProfile DEFAULT_PRODUCTS DEFAULT_CATEGORIES _create_fallback_mapping.

Section Classify.
(** Python's [str.lower], left abstract so that the results hold for every
    input string (Unicode case mapping included). *)
Variable str_lower : string -> string.

(** [_generate_smart_fallback], the if/elif cascade of the source. *)
Definition _generate_smart_fallback (business_type : string) : profile :=
  let business_lower := str_lower business_type in
  if any_in ["restaurant"; "food"; "cafe"; "dining"; "kitchen"] business_lower
  then _generate_restaurant_data
  else if any_in ["fitness"; "gym"; "health"; "wellness"; "sport"] business_lower
  then _generate_fitness_data
  else if any_in ["tech"; "software"; "electronics"; "computer"; "digital"]
          business_lower
  then _generate_tech_data
  else if any_in ["clothing"; "fashion"; "apparel"; "retail"; "boutique"]
          business_lower
  then _generate_fashion_data
  else if any_in ["automotive"; "car"; "vehicle"; "auto"] business_lower
  then _generate_automotive_data
  else if any_in ["beauty"; "cosmetic"; "skincare"; "salon"] business_lower
  then _generate_beauty_data
  else if any_in ["home"; "furniture"; "decor"; "garden"] business_lower
  then _generate_home_data
  else _generate_generic_data.

(** [_generate_with_ai]: a placeholder that calls the fallback. *)
Definition _generate_with_ai (business_type : string) : profile :=
  _generate_smart_fallback business_type.

(** [generate_products_and_categories]; both branches end in the fallback
    (the AI path never raises, so its [except] branch is not reached). *)
Definition generate_products_and_categories (business_type : string)
    (use_ai : bool) : profile :=
  if use_ai then _generate_with_ai business_type
  else _generate_smart_fallback business_type.

(** Spec side (§4.1): an ordered table of (tag, keyword set, profile)
    iterated once; the first tag with a keyword contained in the lower-cased
    input wins, the generic profile otherwise.  The matched keyword is
    reported too. *)
Inductive tag := Restaurant | Fitness | Tech | Fashion | Automotive | Beauty
  | Home | Generic.

Definition tag_table : list (tag * list string * profile) :=
  [(Restaurant, ["restaurant"; "food"; "cafe"; "dining"; "kitchen"],
      _generate_restaurant_data);
   (Fitness, ["fitness"; "gym"; "health"; "wellness"; "sport"],
      _generate_fitness_data);
   (Tech, ["tech"; "software"; "electronics"; "computer"; "digital"],
      _generate_tech_data);
   (Fashion, ["clothing"; "fashion"; "apparel"; "retail"; "boutique"],
      _generate_fashion_data);
   (Automotive, ["automotive"; "car"; "vehicle"; "auto"],
      _generate_automotive_data);
   (Beauty, ["beauty"; "cosmetic"; "skincare"; "salon"],
      _generate_beauty_data);
   (Home, ["home"; "furniture"; "decor"; "garden"], _generate_home_data)].

Fixpoint first_match (s : string) (tbl : list (tag * list string * profile))
    : tag * option string * profile :=
  match tbl with
  | [] => (Generic, None, _generate_generic_data)
  | (t, kws, p) :: rest =>
      match find (fun kw => contains kw s) kws with
      | Some kw => (t, Some kw, p)
      | None => first_match s rest
      end
  end.

Definition classify_spec (business_type : string)
    : tag * option string * profile :=
  first_match (str_lower business_type) tag_table.

End Classify.

End Catalog.

(* ================================================================== *)
(** ** Python's [random] module: MT19937 behind a process-wide state *)

Module PyRandom.
Open Scope Z_scope.

(** The state of CPython's [_random.Random] object: 624 words and the
    index of the next word to hand out. *)
Record state := mkState { mt : list Z; mti : nat }.

Definition N := 624%nat.
Definition M := 397%nat.
Definition MASK32 := 4294967295.

Definition set_nth (l : list Z) (i : nat) (v : Z) : list Z :=
  firstn i l ++ v :: skipn (S i) l.

Definition get (l : list Z) (i : nat) : Z := nth i l 0.

(** [init_genrand(s)] *)
Definition init_genrand (s : Z) : list Z :=
  let fix go (i : nat) (prev : Z) (fuel : nat) : list Z :=
    match fuel with
    | O => []
    | S f =>
        let v := Z.land (1812433253 * Z.lxor prev (Z.shiftr prev 30) + Z.of_nat i)
                        MASK32 in
        v :: go (S i) v f
    end in
  let s0 := Z.land s MASK32 in
  s0 :: go 1%nat s0 (N - 1)%nat.

(** First loop of [init_by_array]: [k] iterations, indices [i], [j]. *)
Fixpoint iba_loop1 (key : list Z) (k : nat) (l : list Z) (i j : nat)
    : list Z * nat :=
  match k with
  | O => (l, i)
  | S k' =>
      let p := get l (i - 1)%nat in
      let v := Z.land (Z.lxor (get l i) (Z.lxor p (Z.shiftr p 30) * 1664525)
                       + get key j + Z.of_nat j) MASK32 in
      let l1 := set_nth l i v in
      let i1 := S i in
      let j1 := S j in
      let '(l2, i2) := if (N <=? i1)%nat then (set_nth l1 0 (get l1 (N - 1)%nat), 1%nat)
                       else (l1, i1) in
      let j2 := if (length key <=? j1)%nat then 0%nat else j1 in
      iba_loop1 key k' l2 i2 j2
  end.

(** Second loop of [init_by_array]: [N - 1] iterations. *)
Fixpoint iba_loop2 (k : nat) (l : list Z) (i : nat) : list Z :=
  match k with
  | O => l
  | S k' =>
      let p := get l (i - 1)%nat in
      let v := Z.land (Z.lxor (get l i) (Z.lxor p (Z.shiftr p 30) * 1566083941)
                       - Z.of_nat i) MASK32 in
      let l1 := set_nth l i v in
      let i1 := S i in
      let '(l2, i2) := if (N <=? i1)%nat then (set_nth l1 0 (get l1 (N - 1)%nat), 1%nat)
                       else (l1, i1) in
      iba_loop2 k' l2 i2
  end.

(** [init_by_array(init_key)] *)
Definition init_by_array (key : list Z) : state :=
  let l0 := init_genrand 19650218 in
  let '(l1, i1) := iba_loop1 key (Nat.max N (length key)) l0 1 0 in
  let l2 := iba_loop2 (N - 1)%nat l1 i1 in
  mkState (set_nth l2 0 2147483648) N.

(** [random.seed(a)] for a non-negative integer [a] below 2**32: the key is
    the single 32-bit word [a]. *)
Definition seed (a : Z) : state := init_by_array [a].

(** The regeneration step of [genrand_uint32] ([kk + 1] and [kk + M] taken
    modulo [N] cover its three loops). *)
Definition twist (l : list Z) : list Z :=
  let fix go (kk : nat) (fuel : nat) (l : list Z) : list Z :=
    match fuel with
    | O => l
    | S f =>
        let y := Z.lor (Z.land (get l kk) 2147483648)
                       (Z.land (get l ((kk + 1) mod N)) 2147483647) in
        let mag := if Z.odd y then 2567483615 else 0 in
        let v := Z.lxor (Z.lxor (get l ((kk + M) mod N)) (Z.shiftr y 1)) mag in
        go (S kk) f (set_nth l kk v)
    end in
  go 0%nat N l.

Definition temper (y : Z) : Z :=
  let y := Z.lxor y (Z.shiftr y 11) in
  let y := Z.lxor y (Z.land (Z.shiftl y 7) 2636928640) in
  let y := Z.lxor y (Z.land (Z.shiftl y 15) 4022730752) in
  Z.lxor y (Z.shiftr y 18).

(** [genrand_uint32] *)
Definition genrand_uint32 (s : state) : Z * state :=
  let '(l, i) := if (N <=? mti s)%nat then (twist (mt s), 0%nat)
                 else (mt s, mti s) in
  (temper (get l i), mkState l (S i)).

(** The interpreter: a state-and-exception monad over the process-wide
    generator state.  [Diverge] stands for a rejection loop that did not
    stop within the fuel given to it. *)
Inductive exn := ValueError (msg : string) | IndexError (msg : string)
  | KeyError (key : string) | OSError (msg : string).

Inductive outcome (A : Type) :=
  | Ret (a : A) (s : state)
  | Raise (e : exn) (s : state)
  | Diverge.
Arguments Ret {A}. Arguments Raise {A}. Arguments Diverge {A}.

Definition PyM (A : Type) := state -> outcome A.

Definition ret {A} (a : A) : PyM A := fun s => Ret a s.
Definition bind {A B} (m : PyM A) (k : A -> PyM B) : PyM B :=
  fun s => match m s with
           | Ret a s' => k a s'
           | Raise e s' => Raise e s'
           | Diverge => Diverge
           end.
Definition raise {A} (e : exn) : PyM A := fun s => Raise e s.

Notation "x <- m ;; k" := (bind m (fun x => k))
  (at level 61, m at next level, right associativity).

Definition genrand : PyM Z := fun s => let '(v, s') := genrand_uint32 s in Ret v s'.

(** [getrandbits(k)] for [0 < k <= 32]. *)
Definition getrandbits (k : Z) : PyM Z :=
  w <- genrand ;; ret (Z.shiftr w (32 - k)).

(** Bound on the iterations of the rejection loop of [_randbelow]. *)
Definition RETRIES := 1000%nat.

Fixpoint randbelow_loop (fuel : nat) (n k : Z) : PyM Z :=
  match fuel with
  | O => fun _ => Diverge
  | S f => r <- getrandbits k ;;
           if r >=? n then randbelow_loop f n k else ret r
  end.

(** [_randbelow_with_getrandbits(n)], [n > 0]. *)
Definition _randbelow (n : Z) : PyM Z :=
  randbelow_loop RETRIES n (Z.log2 n + 1).

(** [randrange(start, stop)] with step 1. *)
Definition randrange (start stop : Z) : PyM Z :=
  if 0 <? stop - start then r <- _randbelow (stop - start) ;; ret (start + r)
  else raise (ValueError "empty range for randrange()").

(** [randint(a, b)] *)
Definition randint (a b : Z) : PyM Z := randrange a (b + 1).

(** [choice(seq)] *)
Definition choice {A} (d : A) (seq : list A) : PyM A :=
  match seq with
  | [] => raise (IndexError "Cannot choose from an empty sequence")
  | _ => i <- _randbelow (Z.of_nat (length seq)) ;; ret (nth (Z.to_nat i) seq d)
  end.

(** [random()]: 53 random bits scaled to [0, 1). *)
Definition random : PyM Q :=
  a <- genrand ;; b <- genrand ;;
  ret (((Z.shiftr a 5 * 67108864 + Z.shiftr b 6) # 1) / (9007199254740992 # 1))%Q.

(** [uniform(a, b)]; floating-point rounding is not modelled: values are the
    exact rationals of the computed expression. *)
Definition uniform (a b : Q) : PyM Q :=
  r <- random ;; ret (a + (b - a) * r)%Q.

End PyRandom.

(* ================================================================== *)
(** ** [datetime]: [strptime(s, '%Y-%m-%d')], ordinals, [strftime] *)

Module PyDate.
Open Scope Z_scope.

Record date := mkDate { year : Z; month : Z; day : Z }.

Definition is_leap (y : Z) : bool :=
  (y mod 4 =? 0) && (negb (y mod 100 =? 0) || (y mod 400 =? 0)).

Definition days_in_month (y m : Z) : Z :=
  match m with
  | 2 => if is_leap y then 29 else 28
  | 4 | 6 | 9 | 11 => 30
  | _ => 31
  end.

Definition digit (c : ascii) : option Z :=
  let n := Z.of_nat (nat_of_ascii c) in
  if (48 <=? n) && (n <=? 57) then Some (n - 48) else None.

(** The groups of the regular expression [strptime] builds for
    ['%Y-%m-%d']: [(?P<Y>\d\d\d\d)], [(?P<m>1[0-2]|0[1-9]|[1-9])] and
    [(?P<d>3[01]|[12]\d|0[1-9]|[1-9]| [1-9])]; each returns its
    alternatives' matches in the regex's order. *)
Definition re_year (s : string) : option (Z * string) :=
  match s with
  | String a (String b (String c (String d r))) =>
      match digit a, digit b, digit c, digit d with
      | Some a, Some b, Some c, Some d => Some (a * 1000 + b * 100 + c * 10 + d, r)
      | _, _, _, _ => None
      end
  | _ => None
  end.

Definition two_digits (s : string) : option (Z * Z * string) :=
  match s with
  | String a (String b r) =>
      match digit a, digit b with
      | Some a, Some b => Some (a, b, r)
      | _, _ => None
      end
  | _ => None
  end.

Definition one_digit (s : string) : option (Z * string) :=
  match s with
  | String a r => match digit a with Some a => Some (a, r) | None => None end
  | _ => None
  end.

Definition re_month (s : string) : list (Z * string) :=
  (match two_digits s with
   | Some (1, b, r) => if b <=? 2 then [(10 + b, r)] else []
   | _ => [] end) ++
  (match two_digits s with
   | Some (0, b, r) => if 1 <=? b then [(b, r)] else []
   | _ => [] end) ++
  (match one_digit s with
   | Some (a, r) => if 1 <=? a then [(a, r)] else []
   | None => [] end).

Definition re_day (s : string) : list (Z * string) :=
  (match two_digits s with
   | Some (3, b, r) => if b <=? 1 then [(30 + b, r)] else []
   | _ => [] end) ++
  (match two_digits s with
   | Some (a, b, r) => if (a =? 1) || (a =? 2) then [(a * 10 + b, r)] else []
   | _ => [] end) ++
  (match two_digits s with
   | Some (0, b, r) => if 1 <=? b then [(b, r)] else []
   | _ => [] end) ++
  (match one_digit s with
   | Some (a, r) => if 1 <=? a then [(a, r)] else []
   | None => [] end) ++
  (match s with
   | String " " r =>
       match one_digit r with
       | Some (a, r') => if 1 <=? a then [(a, r')] else []
       | None => [] end
   | _ => [] end).

Definition after_dash (s : string) : option string :=
  match s with String "-" r => Some r | _ => None end.

(** [datetime.strptime(s, '%Y-%m-%d')]: the regex is matched at the start
    (alternatives tried in order, backtracking on failure of what follows),
    leftover text is rejected ("unconverted data remains"), and the
    [datetime] constructor rejects year 0 and days past the month's end.
    [None] is the [ValueError]. *)
Definition strptime (s : string) : option date :=
  match re_year s with
  | None => None
  | Some (y, r1) =>
      match after_dash r1 with
      | None => None
      | Some r2 =>
          let day_after m_rest :=
            match after_dash m_rest with
            | Some r3 => match re_day r3 with (d, r4) :: _ => Some (d, r4) | [] => None end
            | None => None
            end in
          let fix try_months (ms : list (Z * string)) :=
            match ms with
            | [] => None
            | (m, mr) :: ms' =>
                match day_after mr with
                | Some (d, r4) => Some (m, d, r4)
                | None => try_months ms'
                end
            end in
          match try_months (re_month r2) with
          | Some (m, d, EmptyString) =>
              if (1 <=? y) && (d <=? days_in_month y m) then Some (mkDate y m d)
              else None
          | _ => None
          end
      end
  end.

(** [datetime.__ge__] on dates at midnight: tuple comparison. *)
Definition dt_ge (a b : date) : bool :=
  (year b <? year a) ||
  ((year a =? year b) && ((month b <? month a) ||
                          ((month a =? month b) && (day b <=? day a)))).

Definition days_before_year (y : Z) : Z :=
  let y1 := y - 1 in y1 * 365 + y1 / 4 - y1 / 100 + y1 / 400.

Definition DAYS_BEFORE_MONTH (m : Z) : Z :=
  nth (Z.to_nat m) [-1; 0; 31; 59; 90; 120; 151; 181; 212; 243; 273; 304; 334] 0.

Definition days_before_month (y m : Z) : Z :=
  DAYS_BEFORE_MONTH m + (if (2 <? m) && is_leap y then 1 else 0).

(** [date.toordinal()] *)
Definition toordinal (d : date) : Z :=
  days_before_year (year d) + days_before_month (year d) (month d) + day d.

Definition DAYS_IN_MONTH (m : Z) : Z := days_in_month 1 m.

(** [_ord2ymd(n)], i.e. [date.fromordinal(n)] *)
Definition fromordinal (n : Z) : date :=
  let n := n - 1 in
  let n400 := n / 146097 in let n := n mod 146097 in
  let year := n400 * 400 + 1 in
  let n100 := n / 36524 in let n := n mod 36524 in
  let n4 := n / 1461 in let n := n mod 1461 in
  let n1 := n / 365 in let n := n mod 365 in
  let year := year + n100 * 100 + n4 * 4 + n1 in
  if (n1 =? 4) || (n100 =? 4) then mkDate (year - 1) 12 31
  else
    let leapyear := (n1 =? 3) && (negb (n4 =? 24) || (n100 =? 3)) in
    let month := Z.shiftr (n + 50) 5 in
    let preceding := DAYS_BEFORE_MONTH month
                     + (if (2 <? month) && leapyear then 1 else 0) in
    let '(month, preceding) :=
      if n <? preceding then
        (month - 1, preceding - (DAYS_IN_MONTH (month - 1)
                                 + (if (month - 1 =? 2) && leapyear then 1 else 0)))
      else (month, preceding) in
    mkDate year month (n - preceding + 1).

Definition digit_char (d : Z) : ascii := ascii_of_nat (Z.to_nat (48 + d)).

Fixpoint pad_digits (width : nat) (v : Z) (acc : string) : string :=
  match width with
  | O => acc
  | S w => pad_digits w (v / 10) (String (digit_char (v mod 10)) acc)
  end.

(** The width of [%Y]: CPython hands the format to the C library, whose
    [strftime] on Linux (glibc) writes the year in decimal without padding
    ([999], not [0999]); years run over [1 .. 9999]. *)
Definition year_width (y : Z) : nat :=
  if y <? 10 then 1 else if y <? 100 then 2 else if y <? 1000 then 3 else 4.

(** [strftime('%Y-%m-%d')]: month and day are zero-padded to two digits. *)
Definition strftime (d : date) : string :=
  pad_digits (year_width (year d)) (year d) EmptyString ++ "-" ++ pad_digits 2 (month d) EmptyString
  ++ "-" ++ pad_digits 2 (day d) EmptyString.

End PyDate.

(* ================================================================== *)
(** ** RecordSynthesizer and DatasetBuilder: [SampleDataGenerator] *)

Module Generator.
Import PyStr PyRandom PyDate.
Open Scope Z_scope.

Definition STATES_CITIES : list (string * list string) :=
  [("Alabama", ["Birmingham"; "Mobile"; "Montgomery"]);
   ("Alaska", ["Anchorage"; "Fairbanks"; "Juneau"]);
   ("Arizona", ["Phoenix"; "Tucson"; "Mesa"]);
   ("Arkansas", ["Little Rock"; "Fort Smith"; "Fayetteville"]);
   ("California", ["Los Angeles"; "San Diego"; "San Jose"]);
   ("Colorado", ["Denver"; "Colorado Springs"; "Aurora"]);
   ("Connecticut", ["Bridgeport"; "New Haven"; "Hartford"]);
   ("Delaware", ["Wilmington"; "Dover"; "Newark"]);
   ("Florida", ["Jacksonville"; "Miami"; "Tampa"]);
   ("Georgia", ["Atlanta"; "Columbus"; "Augusta"]);
   ("Hawaii", ["Honolulu"; "Pearl City"; "Hilo"]);
   ("Idaho", ["Boise"; "Meridian"; "Nampa"]);
   ("Illinois", ["Chicago"; "Aurora"; "Rockford"]);
   ("Indiana", ["Indianapolis"; "Fort Wayne"; "Evansville"]);
   ("Iowa", ["Des Moines"; "Cedar Rapids"; "Davenport"]);
   ("Kansas", ["Wichita"; "Overland Park"; "Kansas City"]);
   ("Kentucky", ["Louisville"; "Lexington"; "Bowling Green"]);
   ("Louisiana", ["New Orleans"; "Baton Rouge"; "Shreveport"]);
   ("Maine", ["Portland"; "Lewiston"; "Bangor"]);
   ("Maryland", ["Baltimore"; "Frederick"; "Rockville"]);
   ("Massachusetts", ["Boston"; "Worcester"; "Springfield"]);
   ("Michigan", ["Detroit"; "Grand Rapids"; "Warren"]);
   ("Minnesota", ["Minneapolis"; "Saint Paul"; "Rochester"]);
   ("Mississippi", ["Jackson"; "Gulfport"; "Southaven"]);
   ("Missouri", ["Kansas City"; "Saint Louis"; "Springfield"]);
   ("Montana", ["Billings"; "Missoula"; "Great Falls"]);
   ("Nebraska", ["Omaha"; "Lincoln"; "Bellevue"]);
   ("Nevada", ["Las Vegas"; "Henderson"; "Reno"]);
   ("New Hampshire", ["Manchester"; "Nashua"; "Concord"]);
   ("New Jersey", ["Newark"; "Jersey City"; "Paterson"]);
   ("New Mexico", ["Albuquerque"; "Las Cruces"; "Rio Rancho"]);
   ("New York", ["New York City"; "Buffalo"; "Rochester"]);
   ("North Carolina", ["Charlotte"; "Raleigh"; "Greensboro"]);
   ("North Dakota", ["Fargo"; "Bismarck"; "Grand Forks"]);
   ("Ohio", ["Columbus"; "Cleveland"; "Cincinnati"]);
   ("Oklahoma", ["Oklahoma City"; "Tulsa"; "Norman"]);
   ("Oregon", ["Portland"; "Eugene"; "Salem"]);
   ("Pennsylvania", ["Philadelphia"; "Pittsburgh"; "Allentown"]);
   ("Rhode Island", ["Providence"; "Warwick"; "Cranston"]);
   ("South Carolina", ["Charleston"; "Columbia"; "North Charleston"]);
   ("South Dakota", ["Sioux Falls"; "Rapid City"; "Aberdeen"]);
   ("Tennessee", ["Nashville"; "Memphis"; "Knoxville"]);
   ("Texas", ["Houston"; "San Antonio"; "Dallas"]);
   ("Utah", ["Salt Lake City"; "West Valley City"; "Provo"]);
   ("Vermont", ["Burlington"; "Essex"; "South Burlington"]);
   ("Virginia", ["Virginia Beach"; "Norfolk"; "Chesapeake"]);
   ("Washington", ["Seattle"; "Spokane"; "Tacoma"]);
   ("West Virginia", ["Charleston"; "Huntington"; "Parkersburg"]);
   ("Wisconsin", ["Milwaukee"; "Madison"; "Green Bay"]);
   ("Wyoming", ["Cheyenne"; "Casper"; "Laramie"])].

Definition CHANNELS : list string :=
  ["Online"; "Retail"; "Direct Sales"; "Partner"; "Wholesale"].

(** [d.get(k, default)] / [d[k]] on a dict kept as its items (keys unique). *)
Definition dict_find {V} (d : list (string * V)) (k : string) : option V :=
  match find (fun kv => String.eqb (fst kv) k) d with
  | Some (_, v) => Some v
  | None => None
  end.

Definition dict_get (d : list (string * string)) (k default : string) : string :=
  match dict_find d k with Some v => v | None => default end.

(** [int(x)] on a float: truncation toward zero. *)
Definition py_int (x : Q) : Z :=
  if Qle_bool 0 x then Qfloor x else - Qfloor (- x).

(** One generated row ([record] dict of [generate_data]). *)
Record record := mkRecord {
  r_date : string; r_product : string; r_category : string; r_state : string;
  r_city : string; r_budget : Z; r_actuals : Z; r_channel : string
}.

Section Synth.
(** Python's [str.lower]. *)
Variable str_lower : string -> string.

Definition base_ranges : list (string * (Z * Z)) :=
  [("restaurant", (5000, 50000)); ("fitness", (10000, 80000));
   ("tech", (20000, 200000)); ("fashion", (8000, 60000));
   ("automotive", (15000, 150000)); ("beauty", (5000, 40000));
   ("home", (10000, 100000)); ("general", (8000, 80000))].

(** The loop that determines [business_key]. *)
Definition business_key_of (business_type : string) : string :=
  match find (fun kr => contains (fst kr) (str_lower business_type)) base_ranges with
  | Some (k, _) => k
  | None => "general"
  end.

Definition major_states : list string :=
  ["California"; "New York"; "Texas"; "Florida"; "Illinois"].

(** [_generate_budget(product, category, state, channel, business_type)] *)
Definition _generate_budget (product category state channel business_type : string)
    : PyM Z :=
  let business_key := business_key_of business_type in
  match dict_find base_ranges business_key with
  | None => raise (KeyError business_key)
  | Some (min_budget, max_budget) =>
      base_budget <- randint min_budget max_budget ;;
      base_budget <-
        (if existsb (String.eqb state) major_states
         then f <- uniform (11 # 10) (14 # 10) ;; ret (py_int (inject_Z base_budget * f))
         else ret base_budget) ;;
      online <- uniform (8 # 10) (12 # 10) ;;
      retail <- uniform (9 # 10) (11 # 10) ;;
      direct <- uniform (11 # 10) (14 # 10) ;;
      partner <- uniform (7 # 10) (10 # 10) ;;
      wholesale <- uniform (6 # 10) (9 # 10) ;;
      let channel_multipliers :=
        [("Online", online); ("Retail", retail); ("Direct Sales", direct);
         ("Partner", partner); ("Wholesale", wholesale)] in
      match dict_find channel_multipliers channel with
      | None => raise (KeyError channel)
      | Some mult => ret (py_int (inject_Z base_budget * mult))
      end
  end.

(** [_generate_actuals(budget)] *)
Definition _generate_actuals (budget : Z) : PyM Z :=
  variance_factor <- uniform (75 # 100) (14 # 10) ;;
  ret (py_int (inject_Z budget * variance_factor)).

(** The body of the [for i in range(row_count)] loop of [generate_data]. *)
Definition synth_record (start_dt end_dt : date) (products : list string)
    (product_mapping : list (string * string)) (business_type : string)
    : PyM record :=
  let days_diff := toordinal end_dt - toordinal start_dt in
  random_days <- randint 0 days_diff ;;
  let record_date := fromordinal (toordinal start_dt + random_days) in
  state <- choice "" (map fst STATES_CITIES) ;;
  city <- choice "" (match dict_find STATES_CITIES state with
                     | Some cs => cs | None => [] end) ;;
  product <- choice "" products ;;
  let category := dict_get product_mapping product "General" in
  channel <- choice "" CHANNELS ;;
  budget <- _generate_budget product category state channel business_type ;;
  actuals <- _generate_actuals budget ;;
  ret (mkRecord (strftime record_date) product category state city budget
         actuals channel).

Fixpoint gen_rows (n : nat) (start_dt end_dt : date) (products : list string)
    (product_mapping : list (string * string)) (business_type : string)
    : PyM (list record) :=
  match n with
  | O => ret []
  | S n' =>
      r <- synth_record start_dt end_dt products product_mapping business_type ;;
      rs <- gen_rows n' start_dt end_dt products product_mapping business_type ;;
      ret (r :: rs)
  end.

(** [df.sort_values('Date')] (pandas), kept as a parameter. *)
Variable sort_values : list record -> list record.

(** [df.to_csv(output_file, index=False)], kept as a parameter: [Some e]
    when writing the file raises [e] (an [OSError] such as
    [FileNotFoundError] for an empty name or a path in a missing
    directory), [None] when the file is written. *)
Variable to_csv : string -> list record -> option exn.

(** [generate_data(start_date, end_date, row_count, products, product_mapping,
    output_file, business_type)].  The method returns [None]; the model
    returns the sorted rows it writes to [output_file] with [to_csv], or the
    exception the write raises.  With no rows the frame has no ['Date']
    column and [sort_values] raises [KeyError].  The [print] calls and
    [_print_summary] only write to the console: the statistics it prints
    are taken over a non-empty frame, and its division by [Budget] is a
    pandas column division, which does not raise. *)
Definition generate_data (start_date end_date : string) (row_count : Z)
    (products : list string) (product_mapping : list (string * string))
    (output_file : string) (business_type : string) : PyM (list record) :=
  match strptime start_date with
  | None => raise (ValueError "time data does not match format '%Y-%m-%d'")
  | Some start_dt =>
  match strptime end_date with
  | None => raise (ValueError "time data does not match format '%Y-%m-%d'")
  | Some end_dt =>
      if dt_ge start_dt end_dt
      then raise (ValueError "Start date must be before end date")
      else
        data <- gen_rows (Z.to_nat row_count) start_dt end_dt products
                  product_mapping business_type ;;
        match data with
        | [] => raise (KeyError "Date")
        | _ =>
            let df := sort_values data in
            match to_csv output_file df with
            | Some e => raise e
            | None => ret df
            end
        end
  end
  end.

(** [SampleDataGenerator()] followed by [generate_data(...)]: the constructor
    reseeds the process-wide generator with [random.seed(42)]
    ([np.random.seed(42)] seeds a generator the code never draws from). *)
Definition new_generator_then_generate (start_date end_date : string)
    (row_count : Z) (products : list string)
    (product_mapping : list (string * string)) (output_file : string)
    (business_type : string) : PyM (list record) :=
  fun _ => generate_data start_date end_date row_count products product_mapping
             output_file business_type (seed 42).

End Synth.

(** A [to_csv] whose writes all succeed. *)
Definition to_csv_ok (output_file : string) (df : list record) : option exn := None.
End Generator.

(* ================================================================== *)
(** ** [df.sort_values('Date')]: numpy's generic argsort

    For a single [by] column pandas calls [nargsort(values, kind='quicksort')],
    which for the object column of date strings built by [generate_data] runs
    numpy's [npy_aquicksort] (with [npy_aheapsort] past the depth limit) over
    the index array [tosort], comparing with Python's [<]; the frame is then
    reindexed by the result.  Loops carry a fuel of the array length plus one,
    which the transcribed loops never exhaust. *)

Module NpSort.
Open Scope Z_scope.

Section ASort.
Context {A : Type}.
(** [cmp(a, b) < 0] *)
Variable lt : A -> A -> bool.
(** The data array [v] (indexed through [tosort]) and its length. *)
Variable v : list A.
Variable dflt : A.

Definition nfuel : nat := S (length v).

Definition at_ (t : list Z) (p : Z) : Z := nth (Z.to_nat p) t 0.
Definition val (i : Z) : A := nth (Z.to_nat i) v dflt.
Definition key (t : list Z) (p : Z) : A := val (at_ t p).
Definition upd (t : list Z) (p x : Z) : list Z := PyRandom.set_nth t (Z.to_nat p) x.
Definition swap (t : list Z) (p q : Z) : list Z :=
  let a := at_ t p in let b := at_ t q in upd (upd t p b) q a.

(** [do ++pi; while (cmp(v[*pi], vp) < 0);] *)
Fixpoint scan_up (fuel : nat) (t : list Z) (pi : Z) (vp : A) : Z :=
  match fuel with
  | O => pi
  | S f => let pi := pi + 1 in if lt (key t pi) vp then scan_up f t pi vp else pi
  end.

(** [do --pj; while (cmp(vp, v[*pj]) < 0);] *)
Fixpoint scan_down (fuel : nat) (t : list Z) (pj : Z) (vp : A) : Z :=
  match fuel with
  | O => pj
  | S f => let pj := pj - 1 in if lt vp (key t pj) then scan_down f t pj vp else pj
  end.

Fixpoint part_loop (fuel : nat) (t : list Z) (pi pj : Z) (vp : A) : list Z * Z :=
  match fuel with
  | O => (t, pi)
  | S f =>
      let pi := scan_up nfuel t pi vp in
      let pj := scan_down nfuel t pj vp in
      if pj <=? pi then (t, pi) else part_loop f (swap t pi pj) pi pj vp
  end.

(** Median-of-three pivot and partition of [tosort[pl..pr]]; returns the
    array and the pivot's final position [pi]. *)
Definition partition (t : list Z) (pl pr : Z) : list Z * Z :=
  let pm := pl + Z.shiftr (pr - pl) 1 in
  let t := if lt (key t pm) (key t pl) then swap t pm pl else t in
  let t := if lt (key t pr) (key t pm) then swap t pr pm else t in
  let t := if lt (key t pm) (key t pl) then swap t pm pl else t in
  let vp := key t pm in
  let pj := pr - 1 in
  let t := swap t pm pj in
  let '(t, pi) := part_loop nfuel t pl pj vp in
  (swap t pi (pr - 1), pi).

Definition SMALL_QUICKSORT := 16.

(** [while ((pr - pl) > SMALL_QUICKSORT) { ... }]: the larger side is pushed
    with the decremented depth. *)
Fixpoint qs_while (fuel : nat) (t : list Z) (pl pr : Z)
    (stack : list (Z * Z * Z)) (cdepth : Z)
    : list Z * Z * Z * list (Z * Z * Z) :=
  match fuel with
  | O => (t, pl, pr, stack)
  | S f =>
      if SMALL_QUICKSORT <? pr - pl then
        let '(t, pi) := partition t pl pr in
        let cdepth := cdepth - 1 in
        if pi - pl <? pr - pi
        then qs_while f t pl (pi - 1) ((pi + 1, pr, cdepth) :: stack) cdepth
        else qs_while f t (pi + 1) pr ((pl, pi - 1, cdepth) :: stack) cdepth
      else (t, pl, pr, stack)
  end.

(** [while (pj > pl && cmp(vp, v[*pk]) < 0) *pj-- = *pk--;] *)
Fixpoint ins_shift (fuel : nat) (t : list Z) (pj pl : Z) (vp : A) : list Z * Z :=
  match fuel with
  | O => (t, pj)
  | S f =>
      if (pl <? pj) && lt vp (key t (pj - 1))
      then ins_shift f (upd t pj (at_ t (pj - 1))) (pj - 1) pl vp
      else (t, pj)
  end.

(** Insertion sort of [tosort[pl..pr]], from [pi = pl + 1]. *)
Fixpoint insertion (fuel : nat) (t : list Z) (pi pl pr : Z) : list Z :=
  match fuel with
  | O => t
  | S f =>
      if pi <=? pr then
        let vi := at_ t pi in
        let '(t, pj) := ins_shift nfuel t pi pl (val vi) in
        insertion f (upd t pj vi) (pi + 1) pl pr
      else t
  end.

(** [npy_aheapsort] on [tosort[base .. base + n - 1]], 1-based [a[k]]. *)
Definition ai (base k : Z) : Z := base + k - 1.

Fixpoint sift (fuel : nat) (t : list Z) (base i j n tmp : Z) : list Z * Z :=
  match fuel with
  | O => (t, i)
  | S f =>
      if j <=? n then
        let j := if (j <? n) && lt (key t (ai base j)) (key t (ai base (j + 1)))
                 then j + 1 else j in
        if lt (val tmp) (key t (ai base j))
        then sift f (upd t (ai base i) (at_ t (ai base j))) base j (j + j) n tmp
        else (t, i)
      else (t, i)
  end.

Fixpoint heap_build (fuel : nat) (t : list Z) (base l n : Z) : list Z :=
  match fuel with
  | O => t
  | S f =>
      if 0 <? l then
        let tmp := at_ t (ai base l) in
        let '(t, i) := sift nfuel t base l (Z.shiftl l 1) n tmp in
        heap_build f (upd t (ai base i) tmp) base (l - 1) n
      else t
  end.

Fixpoint heap_down (fuel : nat) (t : list Z) (base n : Z) : list Z :=
  match fuel with
  | O => t
  | S f =>
      if 1 <? n then
        let tmp := at_ t (ai base n) in
        let t := upd t (ai base n) (at_ t (ai base 1)) in
        let n := n - 1 in
        let '(t, i) := sift nfuel t base 1 2 n tmp in
        heap_down f (upd t (ai base i) tmp) base n
      else t
  end.

Definition aheapsort (t : list Z) (base n : Z) : list Z :=
  heap_down nfuel (heap_build nfuel t base (Z.shiftr n 1) n) base n.

(** The [for (;;)] loop with its [stack_pop]. *)
Fixpoint qs_outer (fuel : nat) (t : list Z) (pl pr : Z)
    (stack : list (Z * Z * Z)) (cdepth : Z) : list Z :=
  match fuel with
  | O => t
  | S f =>
      let '(t, stack) :=
        if cdepth <? 0 then (aheapsort t pl (pr - pl + 1), stack)
        else
          let '(t, pl, pr, stack) := qs_while nfuel t pl pr stack cdepth in
          (insertion nfuel t (pl + 1) pl pr, stack) in
      match stack with
      | [] => t
      | (pl, pr, d) :: stack => qs_outer f t pl pr stack d
      end
  end.

(** [npy_get_msb(n)] *)
Definition get_msb (n : Z) : Z := if n <=? 0 then 0 else Z.log2 n.

(** [npy_aquicksort]: the permutation [tosort] of [0 .. n-1]. *)
Definition aquicksort : list Z :=
  let n := Z.of_nat (length v) in
  qs_outer nfuel (map Z.of_nat (seq 0 (length v))) 0 (n - 1) [] (get_msb n * 2).

End ASort.

(** [df.sort_values('Date').reset_index(drop=True)] on the generated rows. *)
Definition sort_values_date (l : list Generator.record) : list Generator.record :=
  match l with
  | [] => []
  | r0 :: _ =>
      map (fun i => nth (Z.to_nat i) l r0)
          (aquicksort String.ltb (map Generator.r_date l) EmptyString)
  end.

End NpSort.

(* ================================================================== *)
(** ** PerformanceRanker: [analyze_product_performance] *)

Module Ranker.
Import PyDate.
Open Scope Z_scope.

(** A row of the frame [pd.read_csv] builds: [None] is an empty cell (NaN).
    Only the columns the ranker reads are kept; [columns] is the header. *)
Record in_row := mkInRow {
  c_date : option string; c_product : option string; c_actuals : option Z
}.

Record table := mkTable { columns : list string; rows : list in_row }.

(** float64 values of the [Percentage] column. *)
Inductive pyfloat := Fin (q : Q) | NaN | PInf | NInf.

(** [a / b] of numbers as numpy divides them. *)
Definition true_div (a b : Z) : pyfloat :=
  if b =? 0 then
    (if a =? 0 then NaN else if 0 <? a then PInf else NInf)
  else Fin (inject_Z a / inject_Z b).

Definition mul100 (x : pyfloat) : pyfloat :=
  match x with Fin q => Fin (q * 100) | other => other end.

Inductive error := KeyErr (col : string) | DateParseError (s : string).

Inductive granularity := Year | Quarter | Month.

(** The group keys ['Year'] / ['Year', 'Quarter'] / ['Year', 'Month'] of a
    date; [dt.quarter] is [(month - 1) // 3 + 1]. *)
Definition period_key (g : granularity) (d : date) : list Z :=
  match g with
  | Year => [year d]
  | Quarter => [year d; (month d - 1) / 3 + 1]
  | Month => [year d; month d]
  end.

(** [pd.to_datetime(df['Date'])], kept as a parameter.  Its argument is the
    [Date] column as [pd.read_csv] reads it, one text per row ([None] for an
    empty cell).  pandas converts the column as a whole: it infers the dtype
    and the date format from the cells (a column of integers is read as
    int64, whose values are taken as nanoseconds after 1970-01-01), so the
    result is either the exception that ends the run or one value per cell,
    [None] for NaT. *)
Definition datetime_conv : Type := list (option string) -> error + list (option date).

(** [df['Date'] = pd.to_datetime(df['Date'])]: each row with its converted
    date. *)
Definition to_datetime (conv : datetime_conv) (rs : list in_row)
    : error + list (option date * in_row) :=
  match conv (map c_date rs) with
  | inl e => inl e
  | inr ods => inr (combine ods rs)
  end.

(** Group keys [(period, product)] in pandas' sorted order: numbers, then
    the product string. *)
Fixpoint key_lt (a b : list Z) : bool :=
  match a, b with
  | x :: a', y :: b' => (x <? y) || ((x =? y) && key_lt a' b')
  | [], _ :: _ => true
  | _, _ => false
  end.

Definition gkey_lt (a b : list Z * string) : bool :=
  key_lt (fst a) (fst b) ||
  ((negb (key_lt (fst b) (fst a))) && String.ltb (snd a) (snd b)).

Definition gkey_eqb (a b : list Z * string) : bool :=
  negb (gkey_lt a b) && negb (gkey_lt b a).

(** Add one row's [Actuals] (NaN skipped by [sum]) to its group in the
    sorted table of groups. *)
Fixpoint add_to_group (k : list Z * string) (x : Z)
    (gs : list ((list Z * string) * Z)) : list ((list Z * string) * Z) :=
  match gs with
  | [] => [(k, x)]
  | (k', t) :: gs' =>
      if gkey_eqb k k' then (k', t + x) :: gs'
      else if gkey_lt k k' then (k, x) :: gs
      else (k', t) :: add_to_group k x gs'
  end.

(** [df.groupby(keys + ['Product']).agg({'Actuals': 'sum'}).reset_index()]:
    rows whose period (NaT date) or [Product] is NaN are dropped by
    [groupby]'s [dropna=True]. *)
Definition grouped_sums (g : granularity) (ds : list (option date * in_row))
    : list ((list Z * string) * Z) :=
  fold_left
    (fun gs '(od, r) =>
       match od, c_product r with
       | Some d, Some p =>
           add_to_group (period_key g d, p)
             (match c_actuals r with Some x => x | None => 0 end) gs
       | _, _ => gs
       end) ds [].

(** [... .groupby(keys)]: consecutive rows with the same period form one
    group, kept as its [(Product, Actuals)] rows in frame order. *)
Fixpoint partitions (gs : list ((list Z * string) * Z))
    : list (list Z * list (string * Z)) :=
  match gs with
  | [] => []
  | ((per, p), x) :: gs' =>
      match partitions gs' with
      | (per', grp) :: rest =>
          if key_lt per per' || key_lt per' per
          then (per, [(p, x)]) :: (per', grp) :: rest
          else (per', (p, x) :: grp) :: rest
      | [] => [(per, [(p, x)])]
      end
  end.

(** A row of the group after [grouped_df['Percentage'] = ...]. *)
Record prow := mkPRow { p_product : string; p_actuals : Z; p_pct : pyfloat }.

Definition sum_actuals (grp : list (string * Z)) : Z :=
  fold_right (fun '(_, x) acc => x + acc) 0 grp.

(** [total_actuals = grouped_df['Actuals'].sum()] and
    [grouped_df['Percentage'] = (grouped_df['Actuals'] / total_actuals) * 100] *)
Definition with_percentage (grp : list (string * Z)) : list prow :=
  let total_actuals := sum_actuals grp in
  map (fun '(p, x) => mkPRow p x (mul100 (true_div x total_actuals))) grp.

(** [Series.idxmax()] / [idxmin()]: the first row holding the extreme. *)
Fixpoint first_max (best : prow) (rs : list prow) : prow :=
  match rs with
  | [] => best
  | r :: rs' => if p_actuals best <? p_actuals r then first_max r rs'
                else first_max best rs'
  end.

Fixpoint first_min (best : prow) (rs : list prow) : prow :=
  match rs with
  | [] => best
  | r :: rs' => if p_actuals r <? p_actuals best then first_min r rs'
                else first_min best rs'
  end.

(** [get_top_bottom_products(grouped_df)]; [None] for an empty group, on
    which [idxmax] raises (groups produced by [groupby] are never empty). *)
Definition get_top_bottom_products (grp : list (string * Z)) : option (prow * prow) :=
  match with_percentage grp with
  | [] => None
  | r :: rs => Some (first_max r rs, first_min r rs)
  end.

(** The line printed for one period. *)
Record report := mkReport { period : list Z; top : prow; bottom : prow }.

Fixpoint reports (ps : list (list Z * list (string * Z))) : list report :=
  match ps with
  | [] => []
  | (per, grp) :: ps' =>
      match get_top_bottom_products grp with
      | Some (t, b) => mkReport per t b :: reports ps'
      | None => reports ps'
      end
  end.

Definition has_column (t : table) (c : string) : bool :=
  existsb (String.eqb c) (columns t).

(** One of the three sections: the [groupby] needs the [Product] column,
    the [agg] the [Actuals] column. *)
Definition rank_section (t : table) (ds : list (option date * in_row))
    (g : granularity) : error + list report :=
  if negb (has_column t "Product") then inl (KeyErr "Product")
  else if negb (has_column t "Actuals") then inl (KeyErr "Actuals")
  else inr (reports (partitions (grouped_sums g ds))).

(** [analyze_product_performance]: the reports of the Year, Quarter and
    Month sections, or the exception that ends the run. *)
Definition analyze_product_performance (conv : datetime_conv) (t : table)
    : error + (list report * list report * list report) :=
  if negb (has_column t "Date") then inl (KeyErr "Date")
  else
    match to_datetime conv (rows t) with
    | inl e => inl e
    | inr ds =>
        match rank_section t ds Year with
        | inl e => inl e
        | inr ys =>
            match rank_section t ds Quarter with
            | inl e => inl e
            | inr qs =>
                match rank_section t ds Month with
                | inl e => inl e
                | inr ms => inr (ys, qs, ms)
                end
            end
        end
    end.

End Ranker.

(* ================================================================== *)
(** ** The command-line branch of [main] *)

Module Cli.
Import PyStr PyRandom PyDate Catalog Generator.
Open Scope Z_scope.

(** The command-line branch of [main] (all of [--business], [--months] and
    [--records] given and non-zero): [SampleDataGenerator()] seeds the global
    generator with 42, the date range ends at [datetime.now()] (ordinal
    [today]; the time of day is dropped by [strftime] and does not move the
    day count of [timedelta(days=args.months * 30)]), the profile comes from
    [generate_products_and_categories(args.business)] ([use_ai] defaults to
    [True]) and [generate_data] writes the rows to [output_file] (the
    [--output] name or its default).  The outcome is the one [main]'s
    [try] block sees.  The start ordinal is taken to be at least 1 (below
    it Python's date arithmetic raises [OverflowError]). *)
Definition main_cli (str_lower : string -> string) (sort_values : list record -> list record)
    (to_csv : string -> list record -> option exn) (today : Z) (business : string) (months records : Z) (output_file : string)
    : PyM (list record) :=
  fun _ =>
    let end_date := fromordinal today in
    let start_date := fromordinal (today - months * 30) in
    let p := generate_products_and_categories str_lower business true in
    generate_data str_lower sort_values to_csv (strftime start_date) (strftime end_date) records
      (products p) (mapping p) output_file business (seed 42).

End Cli.

(* ================================================================== *)
(** ** Reference definitions used to state the properties *)

Module Ref.
Import PyRandom PyDate Generator Ranker.
Open Scope Z_scope.

(** Words of a well-formed MT19937 state are 32-bit. *)
Definition wf (s : state) : Prop := Forall (fun w => 0 <= w < 2 ^ 32) (mt s).

Definition wfb (s : state) : bool :=
  forallb (fun w => (0 <=? w) && (w <? 2 ^ 32)) (mt s).

(** The channel factor ranges of [_generate_budget]'s dict literal. *)
Definition channel_ranges : list (string * (Q * Q)) :=
  [("Online", (8 # 10, 12 # 10)); ("Retail", (9 # 10, 11 # 10));
   ("Direct Sales", (11 # 10, 14 # 10)); ("Partner", (7 # 10, 10 # 10));
   ("Wholesale", (6 # 10, 9 # 10))].

(** §4.2 step 5 as the spec words it: one truncation after both factors. *)
Definition budget_single_trunc (str_lower : string -> string)
    (state channel business_type : string) : PyM Z :=
  match dict_find base_ranges (business_key_of str_lower business_type) with
  | None => raise (KeyError "")
  | Some (lo, hi) =>
      base <- randint lo hi ;;
      m <- (if existsb (String.eqb state) major_states
            then uniform (11 # 10) (14 # 10) else ret 1%Q) ;;
      online <- uniform (8 # 10) (12 # 10) ;;
      retail <- uniform (9 # 10) (11 # 10) ;;
      direct <- uniform (11 # 10) (14 # 10) ;;
      partner <- uniform (7 # 10) (10 # 10) ;;
      wholesale <- uniform (6 # 10) (9 # 10) ;;
      match dict_find [("Online", online); ("Retail", retail);
                       ("Direct Sales", direct); ("Partner", partner);
                       ("Wholesale", wholesale)] channel with
      | None => raise (KeyError channel)
      | Some c => ret (py_int (inject_Z base * m * c))
      end
  end.

(** The budget as [_generate_budget] composes it: an integer base from the
    business key's range, truncated after the major-state factor and again
    after the channel factor. *)
Definition budget_composed (str_lower : string -> string)
    (state channel business_type : string) (b : Z) : Prop :=
  exists lo hi base clo chi c,
    dict_find base_ranges (business_key_of str_lower business_type) = Some (lo, hi) /\
    lo <= base <= hi /\
    dict_find channel_ranges channel = Some (clo, chi) /\ (clo <= c <= chi)%Q /\
    (if existsb (String.eqb state) major_states
     then exists m, (11 # 10 <= m <= 14 # 10)%Q /\
          b = py_int (inject_Z (py_int (inject_Z base * m)) * c)
     else b = py_int (inject_Z base * c)).

Definition date_le (a b : record) : Prop := String.leb (r_date a) (r_date b) = true.



(** The table with the rows the ranker skips removed and empty [Actuals]
    cells read as 0. *)
Definition clean_row (r : in_row) : option in_row :=
  match c_date r, c_product r with
  | Some d, Some p =>
      Some (mkInRow (Some d) (Some p)
              (Some (match c_actuals r with Some x => x | None => 0 end)))
  | _, _ => None
  end.

Definition clean (t : table) : table :=
  mkTable (columns t) (flat_map (fun r => match clean_row r with
                                          | Some r' => [r'] | None => [] end) (rows t)).

(** A [pd.to_datetime] for columns of ISO [YYYY-MM-DD] texts, as the
    concrete tables below have them: pandas infers the format [%Y-%m-%d]
    from the first cell and parses every cell with it; an empty cell gives
    NaT, and a text that does not match, or a date outside the [Timestamp]
    range [1677-09-22 .. 2262-04-11], raises. *)
Definition iso_to_datetime : datetime_conv :=
  fix conv (col : list (option string)) : error + list (option date) :=
    match col with
    | [] => inr []
    | None :: col' =>
        match conv col' with inl e => inl e | inr ds => inr (None :: ds) end
    | Some s :: col' =>
        match strptime s with
        | Some d =>
            if (toordinal (mkDate 1677 9 22) <=? toordinal d) &&
               (toordinal d <=? toordinal (mkDate 2262 4 11))
            then match conv col' with inl e => inl e | inr ds => inr (Some d :: ds) end
            else inl (DateParseError s)
        | None => inl (DateParseError s)
        end
    end.

(** The rows the three [groupby]s aggregate: those whose converted date is
    not NaT and whose [Product] is not empty, as (date, product, actuals)
    with an empty [Actuals] cell read as 0. *)
Definition kept_rows (ds : list (option date * in_row)) : list (date * string * Z) :=
  flat_map (fun '(od, r) =>
              match od, c_product r with
              | Some d, Some p => [(d, p, match c_actuals r with Some x => x | None => 0 end)]
              | _, _ => []
              end) ds.

(** The reports of one section computed from kept rows only. *)
Definition section_of (g : granularity) (kr : list (date * string * Z)) : list report :=
  reports (partitions
    (fold_left (fun gs '(d, p, x) => add_to_group (period_key g d, p) x gs) kr [])).

(** A calendar date the [datetime] constructor accepts (any year). *)
Definition valid_date (d : date) : Prop :=
  1 <= month d <= 12 /\ 1 <= day d <= days_in_month (year d) (month d).

Definition valid_dateb (d : date) : bool :=
  (1 <=? month d) && (month d <=? 12) && (1 <=? day d)
  && (day d <=? days_in_month (year d) (month d)).

(** [f r && f (r + 1) && ... && f (r + k - 1)] *)
Fixpoint all_from (f : Z -> bool) (k : nat) (r : Z) : bool :=
  match k with
  | O => true
  | S k' => f r && all_from f k' (r + 1)
  end.

(** Days in a 400-year Gregorian cycle. *)
Definition CYCLE := 146097.

(** Round trip and validity of [fromordinal] at the ordinal [r + 1]. *)
Definition ord_ok (r : Z) : bool :=
  let d := fromordinal (r + 1) in (toordinal d =? r + 1) && valid_dateb d.

(** What the loop body of [generate_data] puts in a row: a [Date] that is
    the [strftime] of a real date between [start_dt] and [end_dt], a state
    of [states_cities] with one of its cities, one of the products and
    channels, a budget in [3000 .. 392000] and actuals within the variance
    factors [0.75 .. 1.4] of the budget. *)
Definition record_ok (start_dt end_dt : date) (products : list string) (r : record)
    : Prop :=
  (exists d, r_date r = strftime d /\ valid_date d /\
             toordinal start_dt <= toordinal d <= toordinal end_dt) /\
  (exists cs, dict_find STATES_CITIES (r_state r) = Some cs /\ In (r_city r) cs) /\
  In (r_product r) products /\ In (r_channel r) CHANNELS /\
  3000 <= r_budget r <= 392000 /\
  py_int (inject_Z (r_budget r) * (75 # 100)) <= r_actuals r <=
    py_int (inject_Z (r_budget r) * (14 # 10)).

(** From a well-formed state, [m] never returns, and the only exception it
    raises is [e]. *)
Definition raises_only {A} (m : PyM A) (e : exn) : Prop :=
  forall s, wf s -> match m s with
                    | Ret _ _ => False
                    | Raise e' _ => e' = e
                    | Diverge => True
                    end.

(** Strict order of group rows by their key, and of periods. *)
Definition group_lt (a b : (list Z * string) * Z) : Prop := gkey_lt (fst a) (fst b) = true.

Definition period_lt (a b : list Z) : Prop := key_lt a b = true.

(** Every product of a profile is a key of its mapping whose value is one of
    its categories, and the product list is not empty. *)
Definition catalog_okb (p : Catalog.profile) : bool :=
  negb (Nat.eqb (length (Catalog.products p)) 0) &&
  forallb (fun x => match dict_find (Catalog.mapping p) x with
                    | Some c => existsb (String.eqb c) (Catalog.categories p)
                    | None => false
                    end) (Catalog.products p).

End Ref.

(* ================================================================== *)
(** * Properties *)

(** ** Catalogue *)

Module CatalogProofs.
Import PyStr Catalog.

Lemma existsb_find {A} (f : A -> bool) (l : list A) :
  existsb f l = match find f l with Some _ => true | None => false end.
Proof.
  induction l as [|x l IH]; simpl; [reflexivity|].
  destruct (f x); simpl; auto.
Qed.

(** C4: [_generate_smart_fallback] (the profile every path of
    [generate_products_and_categories] returns) lower-cases its input and
    tests the keyword sets of restaurant, fitness, tech, fashion, automotive,
    beauty and home in that order by substring containment, the first match
    winning and the generic profile answering when nothing matches; it is
    total.  "cozy neighborhood cafe" resolves through "cafe" to the
    restaurant profile with categories Appetizers, Main Courses, Beverages,
    Desserts, Specials. *)
Theorem classify_first_match_order :
  (forall (str_lower : string -> string) (business_type : string) (use_ai : bool),
     generate_products_and_categories str_lower business_type use_ai
     = _generate_smart_fallback str_lower business_type /\
     _generate_smart_fallback str_lower business_type
     = snd (classify_spec str_lower business_type)) /\
  classify_spec lower_ascii "cozy neighborhood cafe"
  = (Restaurant, Some "cafe", _generate_restaurant_data) /\
  categories (_generate_smart_fallback lower_ascii "cozy neighborhood cafe")
  = ["Appetizers"; "Main Courses"; "Beverages"; "Desserts"; "Specials"].
Proof.
  split; [|split; vm_compute; reflexivity].
  intros str_lower business_type use_ai. split.
  - destruct use_ai; reflexivity.
  - unfold _generate_smart_fallback, classify_spec, tag_table, any_in.
    set (s := str_lower business_type).
    repeat rewrite existsb_find.
    cbn [first_match].
    repeat match goal with
           | |- context [find ?f ?l] => destruct (find f l)
           end; reflexivity.
Qed.

End CatalogProofs.

(** ** DatasetBuilder: range check and reproducibility *)

Module BuilderProofs.
Import PyStr PyRandom PyDate Generator.

(** C5: when the parsed start date is not before the parsed end date,
    [generate_data] raises [ValueError("Start date must be before end
    date")] before any draw (the generator state is returned unchanged) and
    yields no dataset. *)
Theorem generate_data_invalid_range (str_lower : string -> string)
    (sort_values : list record -> list record)
    (to_csv : string -> list record -> option exn)
    (start_date end_date : string) (start_dt end_dt : date) (row_count : Z)
    (products : list string) (product_mapping : list (string * string))
    (output_file business_type : string) (s : state) :
  strptime start_date = Some start_dt ->
  strptime end_date = Some end_dt ->
  dt_ge start_dt end_dt = true ->
  generate_data str_lower sort_values to_csv start_date end_date row_count products
    product_mapping output_file business_type s
  = Raise (ValueError "Start date must be before end date") s.
Proof.
  intros Hs He Hge. unfold generate_data. rewrite Hs, He, Hge. reflexivity.
Qed.

Lemma generate_data_invalid_range_witness :
  strptime "2024-02-01" = Some (mkDate 2024 2 1) /\
  strptime "2024-01-01" = Some (mkDate 2024 1 1) /\
  dt_ge (mkDate 2024 2 1) (mkDate 2024 1 1) = true /\
  generate_data lower_ascii NpSort.sort_values_date to_csv_ok "2024-02-01" "2024-01-01" 10
    Catalog.DEFAULT_PRODUCTS Catalog._create_fallback_mapping "out.csv" "general"
    (seed 42)
  = Raise (ValueError "Start date must be before end date") (seed 42).
Proof.
  split; [reflexivity|]. split; [reflexivity|]. split; [reflexivity|].
  apply generate_data_invalid_range with (start_dt := mkDate 2024 2 1)
    (end_dt := mkDate 2024 1 1); reflexivity.
Defined.

(** C3 (refuted): the draws come from the process-wide [random] state, so
    two calls of [generate_data] with identical arguments on one
    [SampleDataGenerator] (constructed, hence seeded with 42, once) give
    different datasets: the second call starts where the first one left the
    global state. *)
Lemma generate_data_second_call_differs :
  match generate_data lower_ascii NpSort.sort_values_date to_csv_ok "2024-01-01" "2024-01-31"
          3 ["A"; "B"] [("A", "X")] "out.csv" "general" (seed 42) with
  | Ret ds1 s1 =>
      match generate_data lower_ascii NpSort.sort_values_date to_csv_ok "2024-01-01"
              "2024-01-31" 3 ["A"; "B"] [("A", "X")] "out.csv" "general" s1 with
      | Ret ds2 _ => ds1 <> ds2
      | _ => False
      end
  | _ => False
  end.
Proof. vm_compute. intro H; discriminate H. Qed.

(** C3 as the code has it: [generate_data] draws from the process-wide
    [random] state, which every [SampleDataGenerator()] reseeds with 42; two
    runs that each construct a generator and then call [generate_data] with
    the same arguments give the same outcome (dataset and final global state)
    whatever the global state was before. *)
Theorem fresh_generator_runs_identical (str_lower : string -> string)
    (sort_values : list record -> list record)
    (to_csv : string -> list record -> option exn)
    (start_date end_date : string) (row_count : Z) (products : list string)
    (product_mapping : list (string * string)) (output_file business_type : string)
    (g1 g2 : state) :
  new_generator_then_generate str_lower sort_values to_csv start_date end_date row_count
    products product_mapping output_file business_type g1
  = new_generator_then_generate str_lower sort_values to_csv start_date end_date row_count
    products product_mapping output_file business_type g2.
Proof. reflexivity. Qed.

End BuilderProofs.

(** ** PerformanceRanker: shares, top and bottom *)

Module RankerProofs.
Import PyDate Ranker Ref.
Open Scope Z_scope.
Open Scope list_scope.

Lemma with_percentage_rows (grp : list (string * Z)) :
  map (fun r => (p_product r, p_actuals r)) (with_percentage grp) = grp.
Proof.
  unfold with_percentage. generalize (sum_actuals grp) as t.
  intro t. induction grp as [|[p x] grp IH]; simpl; [reflexivity|].
  rewrite IH. reflexivity.
Qed.

Lemma first_max_spec (best : prow) (rs : list prow) :
  let m := first_max best rs in
  (forall r, In r (best :: rs) -> p_actuals r <= p_actuals m) /\
  exists pre post, best :: rs = pre ++ m :: post /\
                   Forall (fun r => p_actuals r < p_actuals m) pre.
Proof.
  revert best. induction rs as [|r rs IH]; intro best; simpl.
  - split.
    + intros r [<-|[]]. lia.
    + exists [], []. split; [reflexivity|constructor].
  - destruct (p_actuals best <? p_actuals r) eqn:Hlt.
    + apply Z.ltb_lt in Hlt.
      destruct (IH r) as [Hle [pre [post [Heq Hpre]]]].
      split.
      * intros x [<-|Hx]; [specialize (Hle r (or_introl eq_refl)); lia|].
        apply Hle. exact Hx.
      * exists (best :: pre), post. split; [simpl; rewrite <- Heq; reflexivity|].
        constructor; [|exact Hpre].
        specialize (Hle r (or_introl eq_refl)). lia.
    + apply Z.ltb_ge in Hlt.
      destruct (IH best) as [Hle [pre [post [Heq Hpre]]]].
      split.
      * intros x [<-|[<-|Hx]].
        -- apply Hle; left; reflexivity.
        -- specialize (Hle best (or_introl eq_refl)). lia.
        -- apply Hle; right; exact Hx.
      * destruct pre as [|b0 pre].
        -- simpl in Heq. injection Heq as Hb Hpost.
           exists [], (r :: rs). split; [simpl; rewrite <- Hb; reflexivity|constructor].
        -- simpl in Heq. injection Heq as Hb Hrs. subst b0.
           exists (best :: r :: pre), post. split; [simpl; do 2 f_equal; exact Hrs|].
           inversion Hpre as [|? ? Hb0 Hpre']; subst.
           constructor; [exact Hb0|]. constructor; [lia|exact Hpre'].
Qed.

Lemma first_min_spec (best : prow) (rs : list prow) :
  let m := first_min best rs in
  (forall r, In r (best :: rs) -> p_actuals m <= p_actuals r) /\
  exists pre post, best :: rs = pre ++ m :: post /\
                   Forall (fun r => p_actuals m < p_actuals r) pre.
Proof.
  revert best. induction rs as [|r rs IH]; intro best; simpl.
  - split.
    + intros r [<-|[]]. lia.
    + exists [], []. split; [reflexivity|constructor].
  - destruct (p_actuals r <? p_actuals best) eqn:Hlt.
    + apply Z.ltb_lt in Hlt.
      destruct (IH r) as [Hle [pre [post [Heq Hpre]]]].
      split.
      * intros x [<-|Hx]; [specialize (Hle r (or_introl eq_refl)); lia|].
        apply Hle. exact Hx.
      * exists (best :: pre), post. split; [simpl; rewrite <- Heq; reflexivity|].
        constructor; [|exact Hpre].
        specialize (Hle r (or_introl eq_refl)). lia.
    + apply Z.ltb_ge in Hlt.
      destruct (IH best) as [Hle [pre [post [Heq Hpre]]]].
      split.
      * intros x [<-|[<-|Hx]].
        -- apply Hle; left; reflexivity.
        -- specialize (Hle best (or_introl eq_refl)). lia.
        -- apply Hle; right; exact Hx.
      * destruct pre as [|b0 pre].
        -- simpl in Heq. injection Heq as Hb Hpost.
           exists [], (r :: rs). split; [simpl; rewrite <- Hb; reflexivity|constructor].
        -- simpl in Heq. injection Heq as Hb Hrs. subst b0.
           exists (best :: r :: pre), post. split; [simpl; do 2 f_equal; exact Hrs|].
           inversion Hpre as [|? ? Hb0 Hpre']; subst.
           constructor; [exact Hb0|]. constructor; [lia|exact Hpre'].
Qed.

Lemma reports_origin (ps : list (list Z * list (string * Z))) (rep : report) :
  In rep (reports ps) ->
  exists per grp, In (per, grp) ps /\
                  get_top_bottom_products grp = Some (top rep, bottom rep).
Proof.
  induction ps as [|[per grp] ps IH]; simpl; [intros []|].
  destruct (get_top_bottom_products grp) as [[t b]|] eqn:Hg.
  - intros [<-|Hin].
    + exists per, grp. split; [left; reflexivity|exact Hg].
    + destruct (IH Hin) as [per' [grp' [Hin' Hg']]].
      exists per', grp'. split; [right; exact Hin'|exact Hg'].
  - intro Hin. destruct (IH Hin) as [per' [grp' [Hin' Hg']]].
    exists per', grp'. split; [right; exact Hin'|exact Hg'].
Qed.






(** C2: in every period report the top product's total is at least, and the
    bottom product's total at most, every product total of the period (so
    top >= bottom); each is the first row of the group, in the order the
    grouping step leaves the products (sorted), that holds the maximum or
    minimum: every earlier row is strictly below the top (above the bottom). *)
Theorem report_top_bottom_extremes (ps : list (list Z * list (string * Z))) (rep : report) :
  In rep (reports ps) ->
  exists per grp, In (per, grp) ps /\
    map (fun r => (p_product r, p_actuals r)) (with_percentage grp) = grp /\
    (forall r, In r (with_percentage grp) ->
       p_actuals (bottom rep) <= p_actuals r <= p_actuals (top rep)) /\
    p_actuals (bottom rep) <= p_actuals (top rep) /\
    (exists pre post, with_percentage grp = pre ++ top rep :: post /\
       Forall (fun r => p_actuals r < p_actuals (top rep)) pre) /\
    (exists pre post, with_percentage grp = pre ++ bottom rep :: post /\
       Forall (fun r => p_actuals (bottom rep) < p_actuals r) pre).
Proof.
  intro Hin. destruct (reports_origin ps rep Hin) as [per [grp [Hps Hg]]].
  exists per, grp. split; [exact Hps|]. split; [apply with_percentage_rows|].
  unfold get_top_bottom_products in Hg.
  destruct (with_percentage grp) as [|r rs]; [discriminate|].
  injection Hg as Ht Hb. rewrite <- Ht, <- Hb.
  destruct (first_max_spec r rs) as [Hmax Hmaxpos].
  destruct (first_min_spec r rs) as [Hmin Hminpos].
  split; [|split; [|split; [exact Hmaxpos|exact Hminpos]]].
  - intros x Hx. split; [apply Hmin|apply Hmax]; exact Hx.
  - specialize (Hmin r (or_introl eq_refl)). specialize (Hmax r (or_introl eq_refl)).
    lia.
Qed.

Lemma report_top_bottom_extremes_witness :
  In (mkReport [2024; 1] (mkPRow "A" 150 (Fin (15000 # 180))) (mkPRow "B" 30 (Fin (3000 # 180))))
     (reports [([2024; 1], [("A", 150); ("B", 30)])]) /\
  exists per grp, In (per, grp) [([2024; 1], [("A", 150); ("B", 30)])] /\
    map (fun r => (p_product r, p_actuals r)) (with_percentage grp) = grp /\
    (forall r, In r (with_percentage grp) -> 30 <= p_actuals r <= 150) /\
    30 <= 150 /\
    (exists pre post, with_percentage grp
       = pre ++ mkPRow "A" 150 (Fin (15000 # 180)) :: post /\
       Forall (fun r => p_actuals r < 150) pre) /\
    (exists pre post, with_percentage grp
       = pre ++ mkPRow "B" 30 (Fin (3000 # 180)) :: post /\
       Forall (fun r => 30 < p_actuals r) pre).
Proof.
  split; [left; reflexivity|].
  apply (report_top_bottom_extremes [([2024; 1], [("A", 150); ("B", 30)])]
           (mkReport [2024; 1] (mkPRow "A" 150 (Fin (15000 # 180))) (mkPRow "B" 30 (Fin (3000 # 180))))).
  left; reflexivity.
Defined.




End RankerProofs.

(* ================================================================== *)
(** ** Ranges of the generator's draws *)

Module RandomProofs.
Import PyRandom Ref.
Open Scope Z_scope.

Definition u32 (x : Z) : Prop := 0 <= x < 2 ^ 32.

Lemma u32_iff a : 0 <= a -> (a < 2 ^ 32 <-> Z.shiftr a 32 = 0).
Proof.
  intro Ha. rewrite Z.shiftr_div_pow2 by lia.
  rewrite Z.div_small_iff by lia. lia.
Qed.

Lemma u32_intro a : 0 <= a -> Z.shiftr a 32 = 0 -> u32 a.
Proof. intros Ha H. split; [exact Ha | apply u32_iff; assumption]. Qed.

Lemma u32_shift a : u32 a -> Z.shiftr a 32 = 0.
Proof. intros [Ha Hb]. apply u32_iff; assumption. Qed.

Lemma u32_lxor a b : u32 a -> u32 b -> u32 (Z.lxor a b).
Proof.
  intros Ha Hb. apply u32_intro.
  - apply Z.lxor_nonneg; unfold u32 in *; lia.
  - rewrite Z.shiftr_lxor, (u32_shift a), (u32_shift b) by assumption. reflexivity.
Qed.

Lemma u32_lor a b : u32 a -> u32 b -> u32 (Z.lor a b).
Proof.
  intros Ha Hb. apply u32_intro.
  - apply Z.lor_nonneg; unfold u32 in *; lia.
  - rewrite Z.shiftr_lor, (u32_shift a), (u32_shift b) by assumption. reflexivity.
Qed.

Lemma u32_land a m : 0 <= a -> u32 m -> u32 (Z.land a m).
Proof.
  intros Ha Hm. apply u32_intro.
  - apply Z.land_nonneg; unfold u32 in *; lia.
  - rewrite Z.shiftr_land, (u32_shift m) by assumption. apply Z.land_0_r.
Qed.

Lemma u32_shiftr a n : u32 a -> 0 <= n -> u32 (Z.shiftr a n).
Proof.
  intros Ha Hn. apply u32_intro.
  - apply Z.shiftr_nonneg; unfold u32 in *; lia.
  - rewrite Z.shiftr_shiftr, Z.add_comm, <- Z.shiftr_shiftr, (u32_shift a)
      by (assumption || lia).
    apply Z.shiftr_0_l.
Qed.

Lemma u32_temper y : u32 y -> u32 (temper y).
Proof.
  intro Hy. unfold temper.
  assert (Hk : forall c, u32 c -> forall z, u32 z -> forall n, 0 <= n ->
                 u32 (Z.lxor z (Z.land (Z.shiftl z n) c))).
  { intros c Hc z Hz n Hn. apply u32_lxor; [exact Hz|].
    apply u32_land; [apply Z.shiftl_nonneg; unfold u32 in Hz; lia | exact Hc]. }
  apply u32_lxor; [| apply u32_shiftr; [| lia]];
    (apply Hk; [unfold u32; lia | | lia];
     apply Hk; [unfold u32; lia | | lia];
     apply u32_lxor; [exact Hy | apply u32_shiftr; [exact Hy | lia]]).
Qed.

Lemma get_u32 l i : Forall u32 l -> u32 (get l i).
Proof.
  intro H. unfold get. destruct (nth_in_or_default i l 0) as [Hin | ->].
  - rewrite Forall_forall in H. apply H, Hin.
  - unfold u32. lia.
Qed.

Lemma set_nth_u32 l i v : Forall u32 l -> u32 v -> Forall u32 (set_nth l i v).
Proof.
  intros H Hv. unfold set_nth. apply Forall_app. split.
  - rewrite <- (firstn_skipn i l) in H. apply Forall_app in H. apply H.
  - constructor; [exact Hv|].
    rewrite <- (firstn_skipn (S i) l) in H. apply Forall_app in H. apply H.
Qed.

Lemma twist_u32 l : Forall u32 l -> Forall u32 (twist l).
Proof.
  intro H. unfold twist.
  match goal with
  | |- Forall u32 (?go 0%nat N l) =>
      assert (G : forall fuel kk l', Forall u32 l' -> Forall u32 (go kk fuel l'))
  end.
  { induction fuel as [|f IH]; intros kk l0 H0; [exact H0|].
    cbv beta iota fix. apply IH, set_nth_u32; [exact H0|].
    apply u32_lxor; [apply u32_lxor|].
    - apply get_u32, H0.
    - apply u32_shiftr; [|lia].
      apply u32_lor; (apply u32_land; [apply (proj1 (get_u32 _ _ H0)) | unfold u32; lia]).
    - destruct (Z.odd _); unfold u32; lia. }
  apply G, H.
Qed.

Lemma wf_u32 s : wf s <-> Forall u32 (mt s).
Proof. reflexivity. Qed.
(** [safe m P]: from a well-formed state, [m] raises nothing, and when it
    returns, its value satisfies [P] and the state stays well-formed. *)
Definition safe {A} (m : PyM A) (P : A -> Prop) : Prop :=
  forall s, wf s -> match m s with
                    | Ret a s' => P a /\ wf s'
                    | Raise _ _ => False
                    | Diverge => True
                    end.

Lemma safe_ret {A} (a : A) (P : A -> Prop) : P a -> safe (ret a) P.
Proof. intros Ha s Hs. split; assumption. Qed.

Lemma safe_bind {A B} (m : PyM A) (k : A -> PyM B) (P : A -> Prop) (R : B -> Prop) :
  safe m P -> (forall a, P a -> safe (k a) R) -> safe (bind m k) R.
Proof.
  intros Hm Hk s Hs. unfold bind. specialize (Hm s Hs).
  destruct (m s) as [a s1 | e s1 |]; [| contradiction | exact I].
  destruct Hm as [Ha Hs1]. exact (Hk a Ha s1 Hs1).
Qed.

Lemma safe_weaken {A} (m : PyM A) (P R : A -> Prop) :
  safe m P -> (forall a, P a -> R a) -> safe m R.
Proof.
  intros Hm HPR s Hs. specialize (Hm s Hs).
  destruct (m s); [destruct Hm; split; auto | exact Hm | exact I].
Qed.

Lemma safe_ret_inv {A} (m : PyM A) (P : A -> Prop) s a s' :
  safe m P -> wf s -> m s = Ret a s' -> P a /\ wf s'.
Proof. intros Hm Hs H. specialize (Hm s Hs). rewrite H in Hm. exact Hm. Qed.

Lemma genrand_safe : safe genrand u32.
Proof.
  intros s Hs. unfold genrand, genrand_uint32.
  destruct (N <=? mti s)%nat; cbv beta iota; split.
  - apply u32_temper, get_u32, twist_u32, Hs.
  - exact (twist_u32 _ Hs).
  - apply u32_temper, get_u32, Hs.
  - exact Hs.
Qed.

Lemma shiftr_lt w j : u32 w -> 0 <= j <= 32 -> 0 <= Z.shiftr w j < 2 ^ (32 - j).
Proof.
  intros [H0 H1] Hj. rewrite Z.shiftr_div_pow2 by lia.
  assert (Hp : 0 < 2 ^ j) by (apply Z.pow_pos_nonneg; lia).
  split; [apply Z.div_pos; lia|].
  apply Z.div_lt_upper_bound; [exact Hp|].
  rewrite <- Z.pow_add_r by lia. replace (j + (32 - j)) with 32 by lia. exact H1.
Qed.

Lemma getrandbits_safe k : safe (getrandbits k) (fun r => 0 <= r).
Proof.
  unfold getrandbits. apply safe_bind with (P := u32); [exact genrand_safe|].
  intros w Hw. apply safe_ret. apply Z.shiftr_nonneg. unfold u32 in Hw. lia.
Qed.

Lemma randbelow_loop_safe fuel n k : safe (randbelow_loop fuel n k) (fun r => 0 <= r < n).
Proof.
  induction fuel as [|f IH]; [intros s _; exact I|].
  cbn [randbelow_loop]. apply safe_bind with (P := fun r => 0 <= r);
    [apply getrandbits_safe|].
  intros r Hr. destruct (r >=? n) eqn:E; [exact IH|].
  apply safe_ret. rewrite Z.geb_leb, Z.leb_gt in E. lia.
Qed.

Lemma randrange_safe a b : a < b -> safe (randrange a b) (fun r => a <= r < b).
Proof.
  intro Hab. unfold randrange. replace (0 <? b - a) with true by (symmetry; apply Z.ltb_lt; lia).
  apply safe_bind with (P := fun r => 0 <= r < b - a); [apply randbelow_loop_safe|].
  intros r Hr. apply safe_ret. lia.
Qed.

Lemma randint_safe a b : a <= b -> safe (randint a b) (fun r => a <= r <= b).
Proof.
  intro Hab. unfold randint. eapply safe_weaken; [apply randrange_safe; lia|].
  simpl. lia.
Qed.

Lemma choice_safe {A} (d : A) (seq : list A) : seq <> [] -> safe (choice d seq) (fun x => In x seq).
Proof.
  intro Hne. destruct seq as [|x l]; [contradiction|]. unfold choice.
  apply safe_bind with (P := fun i => 0 <= i < Z.of_nat (length (x :: l)));
    [apply randbelow_loop_safe|].
  intros i Hi. apply safe_ret. apply nth_In. lia.
Qed.

Lemma random_safe : safe random (fun q => 0 <= q < 1)%Q.
Proof.
  unfold random. apply safe_bind with (P := u32); [exact genrand_safe|]. intros a Ha.
  apply safe_bind with (P := u32); [exact genrand_safe|]. intros b Hb.
  apply safe_ret.
  assert (HA : 0 <= Z.shiftr a 5 < 134217728) by (apply (shiftr_lt a 5 Ha); lia).
  assert (HB : 0 <= Z.shiftr b 6 < 67108864) by (apply (shiftr_lt b 6 Hb); lia).
  split.
  - apply Qle_shift_div_l; [reflexivity|]. rewrite Qmult_0_l.
    unfold Qle; simpl. lia.
  - apply Qlt_shift_div_r; [reflexivity|]. rewrite Qmult_1_l.
    unfold Qlt; simpl. lia.
Qed.

Lemma uniform_safe a b : (a <= b)%Q -> safe (uniform a b) (fun q => a <= q <= b)%Q.
Proof.
  intro Hab. unfold uniform.
  apply safe_bind with (P := fun r => (0 <= r < 1)%Q); [exact random_safe|].
  intros r [H0 H1]. apply safe_ret.
  assert (Hl : (0 <= (b - a) * r)%Q) by (apply Qmult_le_0_compat; lra).
  assert (Hu : (r * (b - a) <= 1 * (b - a))%Q) by (apply Qmult_le_compat_r; lra).
  lra.
Qed.

(** [ok m P]: from a well-formed state, a value [m] returns satisfies [P]
    and the state stays well-formed. *)
Definition ok {A} (m : PyM A) (P : A -> Prop) : Prop :=
  forall s a s', wf s -> m s = Ret a s' -> P a /\ wf s'.

Lemma ok_of_safe {A} (m : PyM A) (P : A -> Prop) : safe m P -> ok m P.
Proof. intros Hm s a s' Hs H. exact (safe_ret_inv m P s a s' Hm Hs H). Qed.

Lemma ok_ret {A} (a : A) (P : A -> Prop) : P a -> ok (ret a) P.
Proof. intros Ha s b s' Hs H. injection H as <- <-. split; assumption. Qed.

Lemma ok_raise {A} e (P : A -> Prop) : ok (raise e) P.
Proof. intros s a s' _ H. discriminate H. Qed.

Lemma ok_bind {A B} (m : PyM A) (k : A -> PyM B) (P : A -> Prop) (R : B -> Prop) :
  ok m P -> (forall a, P a -> ok (k a) R) -> ok (bind m k) R.
Proof.
  intros Hm Hk s b s' Hs H. unfold bind in H.
  destruct (m s) as [a s1 | e s1 |] eqn:E; try discriminate H.
  destruct (Hm s a s1 Hs E) as [Ha Hs1]. exact (Hk a Ha s1 b s' Hs1 H).
Qed.

Lemma wfb_wf s : wfb s = true -> wf s.
Proof.
  unfold wfb, wf. intro H. apply Forall_forall. intros x Hx.
  rewrite forallb_forall in H. specialize (H x Hx).
  apply andb_true_iff in H as [H1 H2]. rewrite Z.leb_le in H1. rewrite Z.ltb_lt in H2.
  lia.
Qed.

End RandomProofs.

(* ================================================================== *)
(** ** Budget composition *)

Module BudgetProofs.
Import PyStr PyRandom Generator Ref RandomProofs.
Open Scope Z_scope.

Lemma base_range_le k lo hi : dict_find base_ranges k = Some (lo, hi) -> lo <= hi.
Proof.
  unfold dict_find. destruct (find _ base_ranges) as [[k' [l h]]|] eqn:E;
    [|discriminate].
  intro H. injection H as <- <-. apply find_some in E. destruct E as [Hin _].
  simpl in Hin.
  repeat (destruct Hin as [Hin|Hin]; [injection Hin as _ <- <-; lia|]).
  contradiction.
Qed.

Lemma channel_factor ch o r d p w c :
  (8 # 10 <= o <= 12 # 10)%Q -> (9 # 10 <= r <= 11 # 10)%Q ->
  (11 # 10 <= d <= 14 # 10)%Q -> (7 # 10 <= p <= 10 # 10)%Q ->
  (6 # 10 <= w <= 9 # 10)%Q ->
  dict_find [("Online", o); ("Retail", r); ("Direct Sales", d); ("Partner", p);
             ("Wholesale", w)] ch = Some c ->
  exists clo chi, dict_find channel_ranges ch = Some (clo, chi) /\ (clo <= c <= chi)%Q.
Proof.
  intros Ho Hr Hd Hp Hw. unfold dict_find, channel_ranges. cbn [find fst].
  destruct (String.eqb "Online" ch); cbv beta iota;
    [intro H; injection H as <-; eauto|].
  destruct (String.eqb "Retail" ch); cbv beta iota;
    [intro H; injection H as <-; eauto|].
  destruct (String.eqb "Direct Sales" ch); cbv beta iota;
    [intro H; injection H as <-; eauto|].
  destruct (String.eqb "Partner" ch); cbv beta iota;
    [intro H; injection H as <-; eauto|].
  destruct (String.eqb "Wholesale" ch); cbv beta iota;
    [intro H; injection H as <-; eauto|].
  discriminate.
Qed.

Ltac draw_uniform lo hi :=
  apply ok_bind with (P := fun x => (lo <= x <= hi)%Q);
  [apply ok_of_safe, uniform_safe; unfold Qle; simpl; lia|].

(** C6 (refuted): the budget is truncated twice for a major state.  From
    the state [random.seed(42)] leaves, a fitness business in California
    selling through Retail gets 25727 from [_generate_budget], while the
    composition truncated once at the end gives 25728. *)
Lemma generate_budget_not_single_truncation :
  match _generate_budget lower_ascii "A" "X" "California" "Retail" "fitness" (seed 42),
        budget_single_trunc lower_ascii "California" "Retail" "fitness" (seed 42) with
  | Ret b1 _, Ret b2 _ => b1 = 25727 /\ b2 = 25728
  | _, _ => False
  end.
Proof. vm_compute. split; reflexivity. Qed.

(** C6 as the code has it: a budget [_generate_budget] returns is drawn as
    the claim says (base from the range of the first business key contained
    in the lowercased business type, [general] by default; a factor in
    [1.1, 1.4] for a major state; the channel's factor), but for a major
    state it is truncated to an integer after the major-state factor and
    again after the channel factor. *)
Theorem generate_budget_composition (str_lower : string -> string)
    (product category st channel business_type : string) (s s' : state) (b : Z) :
  wf s ->
  _generate_budget str_lower product category st channel business_type s = Ret b s' ->
  budget_composed str_lower st channel business_type b.
Proof.
  intros Hs H.
  enough (Hok : ok (_generate_budget str_lower product category st channel business_type)
                   (budget_composed str_lower st channel business_type))
    by exact (proj1 (Hok s b s' Hs H)).
  unfold _generate_budget, budget_composed.
  destruct (dict_find base_ranges (business_key_of str_lower business_type))
    as [[lo hi]|] eqn:Hk; [|apply ok_raise].
  apply ok_bind with (P := fun base => lo <= base <= hi);
    [apply ok_of_safe, randint_safe; exact (base_range_le _ _ _ Hk)|].
  intros base Hb.
  destruct (existsb (String.eqb st) major_states).
  - apply ok_bind with (P := fun bb => exists m, (11 # 10 <= m <= 14 # 10)%Q /\
                                                 bb = py_int (inject_Z base * m)).
    { draw_uniform (11 # 10) (14 # 10). intros f Hf. apply ok_ret. eauto. }
    intros bb [m [Hm ->]].
    draw_uniform (8 # 10) (12 # 10). intros o Ho.
    draw_uniform (9 # 10) (11 # 10). intros r Hr.
    draw_uniform (11 # 10) (14 # 10). intros d Hd.
    draw_uniform (7 # 10) (10 # 10). intros p Hp.
    draw_uniform (6 # 10) (9 # 10). intros w Hw.
    destruct (dict_find _ channel) as [c|] eqn:Hc; [|apply ok_raise].
    apply ok_ret.
    destruct (channel_factor _ _ _ _ _ _ _ Ho Hr Hd Hp Hw Hc) as [clo [chi [Hch Hcb]]].
    exists lo, hi, base, clo, chi, c.
    split; [reflexivity|]. split; [exact Hb|]. split; [exact Hch|]. split; [exact Hcb|].
    exists m. split; [exact Hm | reflexivity].
  - apply ok_bind with (P := fun bb => bb = base); [apply ok_ret; reflexivity|].
    intros bb ->.
    draw_uniform (8 # 10) (12 # 10). intros o Ho.
    draw_uniform (9 # 10) (11 # 10). intros r Hr.
    draw_uniform (11 # 10) (14 # 10). intros d Hd.
    draw_uniform (7 # 10) (10 # 10). intros p Hp.
    draw_uniform (6 # 10) (9 # 10). intros w Hw.
    destruct (dict_find _ channel) as [c|] eqn:Hc; [|apply ok_raise].
    apply ok_ret.
    destruct (channel_factor _ _ _ _ _ _ _ Ho Hr Hd Hp Hw Hc) as [clo [chi [Hch Hcb]]].
    exists lo, hi, base, clo, chi, c.
    split; [reflexivity|]. split; [exact Hb|]. split; [exact Hch|]. split; [exact Hcb|].
    reflexivity.
Qed.

Lemma generate_budget_composition_witness :
  wf (seed 42) /\
  match _generate_budget lower_ascii "A" "X" "California" "Retail" "fitness" (seed 42) with
  | Ret b _ => budget_composed lower_ascii "California" "Retail" "fitness" b
  | _ => False
  end.
Proof.
  assert (Hs : wf (seed 42)) by (apply wfb_wf; vm_compute; reflexivity).
  split; [exact Hs|].
  destruct (_generate_budget lower_ascii "A" "X" "California" "Retail" "fitness" (seed 42))
    as [b s'|e s'|] eqn:E.
  - exact (generate_budget_composition lower_ascii "A" "X" "California" "Retail" "fitness"
             (seed 42) s' b Hs E).
  - vm_compute in E. discriminate E.
  - vm_compute in E. discriminate E.
Defined.

End BudgetProofs.

(* ================================================================== *)
(** ** Record synthesis *)

Module SynthProofs.
Import PyStr PyRandom PyDate Generator Ref RandomProofs BudgetProofs.
Open Scope Z_scope.

Lemma dict_find_in {V} (d : list (string * V)) k v : In (k, v) d -> dict_find d k <> None.
Proof.
  intro Hin. unfold dict_find.
  destruct (find (fun kv => String.eqb (fst kv) k) d) as [[k' v']|] eqn:E; [discriminate|].
  pose proof (find_none _ _ E (k, v) Hin) as H. simpl in H.
  rewrite String.eqb_refl in H. discriminate H.
Qed.

Lemma dict_find_val {V} (d : list (string * V)) k v : dict_find d k = Some v -> In v (map snd d).
Proof.
  unfold dict_find.
  destruct (find (fun kv => String.eqb (fst kv) k) d) as [[k' v']|] eqn:E; [|discriminate].
  intro H. injection H as <-. apply find_some in E. destruct E as [Hin _].
  apply (in_map snd) in Hin. exact Hin.
Qed.

Lemma business_key_found str_lower business_type :
  dict_find base_ranges (business_key_of str_lower business_type) <> None.
Proof.
  unfold business_key_of.
  destruct (find _ base_ranges) as [[k v]|] eqn:E.
  - apply find_some in E. destruct E as [Hin _]. exact (dict_find_in _ _ _ Hin).
  - discriminate.
Qed.

Lemma cities_nonempty st :
  In st (map fst STATES_CITIES) ->
  exists cs, dict_find STATES_CITIES st = Some cs /\ cs <> [].
Proof.
  intro Hin. apply in_map_iff in Hin. destruct Hin as [[k cs0] [Hk Hin]].
  simpl in Hk. subst k.
  destruct (dict_find STATES_CITIES st) as [cs|] eqn:E;
    [| exfalso; exact (dict_find_in _ _ _ Hin E)].
  exists cs. split; [reflexivity|].
  apply dict_find_val in E.
  assert (Hall : forallb (fun l => negb (Nat.eqb (length l) 0)) (map snd STATES_CITIES) = true)
    by reflexivity.
  rewrite forallb_forall in Hall. specialize (Hall cs E).
  destruct cs; [discriminate Hall | discriminate].
Qed.

Lemma uniform_safe_any a b : (a <= b)%Q -> safe (uniform a b) (fun _ => True).
Proof. intro Hab. eapply safe_weaken; [apply uniform_safe, Hab | trivial]. Qed.

Ltac draw_any lo hi :=
  apply safe_bind with (P := fun _ : Q => True);
  [apply uniform_safe_any; unfold Qle; simpl; lia | intros ? _].

Lemma generate_budget_safe str_lower product category st channel business_type :
  In channel CHANNELS ->
  safe (_generate_budget str_lower product category st channel business_type) (fun _ => True).
Proof.
  intro Hch. unfold _generate_budget.
  destruct (dict_find base_ranges (business_key_of str_lower business_type))
    as [[lo hi]|] eqn:Hk; [| exfalso; exact (business_key_found _ _ Hk)].
  apply safe_bind with (P := fun _ : Z => True);
    [eapply safe_weaken; [apply randint_safe; exact (base_range_le _ _ _ Hk) | trivial]|].
  intros base _.
  apply safe_bind with (P := fun _ : Z => True).
  { destruct (existsb (String.eqb st) major_states);
      [draw_any (11 # 10) (14 # 10); apply safe_ret; exact I | apply safe_ret; exact I]. }
  intros bb _.
  draw_any (8 # 10) (12 # 10). draw_any (9 # 10) (11 # 10).
  draw_any (11 # 10) (14 # 10). draw_any (7 # 10) (10 # 10).
  draw_any (6 # 10) (9 # 10).
  simpl in Hch. destruct Hch as [<-|[<-|[<-|[<-|[<-|[]]]]]]; apply safe_ret; exact I.
Qed.

(** C10: from a well-formed generator state, with a non-empty product list
    and a start date not after the end date (as [generate_data] ensures),
    the synthesis of one record raises nothing: the rejection loops of the
    draws may only run on, never fail.  A record it produces carries one of
    the supplied products, its category is [product_mapping.get(product,
    'General')], and for a product the mapping does not list that is the
    literal string [General]. *)
Theorem synth_record_unmapped_general (str_lower : string -> string)
    (start_dt end_dt : date) (products : list string)
    (product_mapping : list (string * string)) (business_type : string) (s : state) :
  wf s -> products <> [] -> toordinal start_dt <= toordinal end_dt ->
  match synth_record str_lower start_dt end_dt products product_mapping business_type s with
  | Ret r _ =>
      In (r_product r) products /\
      r_category r = dict_get product_mapping (r_product r) "General" /\
      (dict_find product_mapping (r_product r) = None -> r_category r = "General")
  | Raise _ _ => False
  | Diverge => True
  end.
Proof.
  intros Hs Hne Hle.
  enough (H : safe (synth_record str_lower start_dt end_dt products product_mapping
                      business_type)
                (fun r => In (r_product r) products /\
                   r_category r = dict_get product_mapping (r_product r) "General" /\
                   (dict_find product_mapping (r_product r) = None ->
                    r_category r = "General")))
    by (pose proof (H s Hs) as H';
        destruct (synth_record str_lower start_dt end_dt products product_mapping
                    business_type s);
        [exact (proj1 H') | exact H' | exact I]).
  unfold synth_record. cbv zeta.
  apply safe_bind with (P := fun _ : Z => True);
    [eapply safe_weaken; [apply randint_safe; lia | trivial] | intros rd _].
  apply safe_bind with (P := fun st => In st (map fst STATES_CITIES));
    [apply choice_safe; discriminate | intros st Hst].
  destruct (cities_nonempty st Hst) as [cs [Hcs Hcs']]. rewrite Hcs.
  apply safe_bind with (P := fun _ : string => True);
    [eapply safe_weaken; [apply choice_safe, Hcs' | trivial] | intros city _].
  apply safe_bind with (P := fun p => In p products);
    [apply choice_safe, Hne | intros product Hp].
  apply safe_bind with (P := fun c => In c CHANNELS);
    [apply choice_safe; discriminate | intros ch Hch].
  apply safe_bind with (P := fun _ : Z => True);
    [apply generate_budget_safe, Hch | intros budget _].
  apply safe_bind with (P := fun _ : Z => True).
  { unfold _generate_actuals. draw_any (75 # 100) (14 # 10). apply safe_ret. exact I. }
  intros actuals _. apply safe_ret. simpl.
  split; [exact Hp|]. split; [reflexivity|].
  intro H. unfold dict_get. rewrite H. reflexivity.
Qed.

Lemma synth_record_unmapped_general_witness :
  match synth_record lower_ascii (mkDate 2024 1 1) (mkDate 2024 1 31) ["B"] [("A", "X")]
          "general" (seed 42) with
  | Ret r _ =>
      In (r_product r) ["B"] /\
      r_category r = dict_get [("A", "X")] (r_product r) "General" /\
      (dict_find [("A", "X")] (r_product r) = None -> r_category r = "General")
  | Raise _ _ => False
  | Diverge => True
  end.
Proof.
  apply synth_record_unmapped_general.
  - apply wfb_wf. vm_compute. reflexivity.
  - discriminate.
  - vm_compute. discriminate.
Defined.

End SynthProofs.

(* ================================================================== *)
(** ** numpy's [aquicksort] sorts

    [aquicksort lt v dflt] returns a permutation of [0 .. n-1] along which
    [v] is ascending, for any [lt] that is a strict weak order.  The proof
    follows the code: every step only exchanges positions of the segment
    being processed; the pending segments (current one and stack) are
    disjoint, and every pair of positions not inside one pending segment is
    already in order.  [partition] splits a segment around its pivot,
    [insertion] and [aheapsort] sort a segment, and the sum over the pending
    segments of their length plus one bounds the iterations of the outer
    loop. *)

Module NpSortProofs.
Import NpSort Generator Ref.
Open Scope Z_scope.

Definition len (t : list Z) : Z := Z.of_nat (length t).

Lemma length_upd t p x : 0 <= p < len t -> length (upd t p x) = length t.
Proof.
  unfold len, upd, PyRandom.set_nth. intros Hp.
  rewrite length_app, length_firstn. cbn [List.length]. rewrite length_skipn. lia.
Qed.

Lemma len_upd t p x : 0 <= p < len t -> len (upd t p x) = len t.
Proof. intro H. unfold len at 1. rewrite length_upd by exact H. reflexivity. Qed.

Lemma at_upd t p q x : 0 <= p < len t -> 0 <= q ->
  at_ (upd t p x) q = if q =? p then x else at_ t q.
Proof.
  unfold len, at_, upd, PyRandom.set_nth. intros Hp Hq.
  assert (Lf : length (firstn (Z.to_nat p) t) = Z.to_nat p) by (rewrite length_firstn; lia).
  destruct (Z.eqb_spec q p) as [->|Hne].
  - rewrite <- Lf at 1. apply nth_middle.
  - destruct (Z_lt_ge_dec q p).
    + rewrite app_nth1 by lia. rewrite nth_firstn.
      replace (Z.to_nat q <? Z.to_nat p)%nat with true by (symmetry; apply Nat.ltb_lt; lia).
      reflexivity.
    + rewrite app_nth2 by lia. rewrite Lf.
      replace (Z.to_nat q - Z.to_nat p)%nat with (S (Z.to_nat q - S (Z.to_nat p))) by lia.
      cbn [nth]. rewrite nth_skipn. f_equal. lia.
Qed.

Lemma at_ext t1 t2 : length t1 = length t2 ->
  (forall q, 0 <= q < len t1 -> at_ t1 q = at_ t2 q) -> t1 = t2.
Proof.
  unfold len, at_. intros Hl H. apply nth_ext with (d := 0) (d' := 0); [exact Hl|].
  intros k Hk. specialize (H (Z.of_nat k) ltac:(lia)). rewrite Nat2Z.id in H. exact H.
Qed.

Lemma upd_same t p : 0 <= p < len t -> upd t p (at_ t p) = t.
Proof.
  intros Hp. apply at_ext; [apply length_upd; exact Hp|].
  intros q Hq. rewrite at_upd by (try exact Hp; lia).
  destruct (Z.eqb_spec q p); [subst; reflexivity | reflexivity].
Qed.

Lemma length_swap t p q : 0 <= p < len t -> 0 <= q < len t -> length (swap t p q) = length t.
Proof.
  intros Hp Hq. unfold swap. rewrite length_upd; [apply length_upd; exact Hp|].
  unfold len in *. rewrite length_upd by exact Hp. exact Hq.
Qed.

Lemma at_swap t p q r : 0 <= p < len t -> 0 <= q < len t -> 0 <= r ->
  at_ (swap t p q) r =
  if r =? q then at_ t p else if r =? p then at_ t q else at_ t r.
Proof.
  intros Hp Hq Hr. unfold swap. cbv zeta.
  assert (Hq' : 0 <= q < len (upd t p (at_ t q))) by (rewrite len_upd by exact Hp; exact Hq).
  rewrite at_upd by (try exact Hq'; lia). rewrite at_upd by (try exact Hp; lia).
  reflexivity.
Qed.

(** count-based permutation facts *)
Definition cnt (t : list Z) (x : Z) : nat := count_occ Z.eq_dec t x.

Lemma skipn_nth_cons (k : nat) (t : list Z) d : (k < length t)%nat ->
  skipn k t = nth k t d :: skipn (S k) t.
Proof.
  revert t. induction k as [|k IH]; intros [|a t] H; simpl in *; try lia; [reflexivity|].
  apply IH. lia.
Qed.

Lemma cnt_upd t p x y : 0 <= p < len t ->
  (cnt (upd t p x) y + (if Z.eq_dec (at_ t p) y then 1 else 0) =
   cnt t y + (if Z.eq_dec x y then 1 else 0))%nat.
Proof.
  unfold cnt, upd, PyRandom.set_nth, at_, len. intros Hp.
  rewrite count_occ_app. simpl.
  rewrite <- (firstn_skipn (Z.to_nat p) t) at 3. rewrite count_occ_app.
  rewrite (skipn_nth_cons (Z.to_nat p) t 0) by lia. simpl.
  destruct (Z.eq_dec x y), (Z.eq_dec (nth (Z.to_nat p) t 0) y); lia.
Qed.

Lemma swap_perm t p q : 0 <= p < len t -> 0 <= q < len t -> Permutation t (swap t p q).
Proof.
  intros Hp Hq. apply (Permutation_count_occ Z.eq_dec). intro y. fold (cnt t y) (cnt (swap t p q) y).
  unfold swap. cbv zeta.
  assert (Hq' : 0 <= q < len (upd t p (at_ t q))) by (rewrite len_upd by exact Hp; exact Hq).
  pose proof (cnt_upd t p (at_ t q) y Hp) as E1.
  pose proof (cnt_upd (upd t p (at_ t q)) q (at_ t p) y Hq') as E2.
  rewrite at_upd in E2 by (try exact Hp; lia).
  replace (if q =? p then at_ t q else at_ t q) with (at_ t q) in E2
    by (destruct (q =? p); reflexivity).
  destruct (Z.eq_dec (at_ t p) y), (Z.eq_dec (at_ t q) y); lia.
Qed.

(** Swaps confined to positions [lo .. hi]. *)
Inductive swaps (lo hi : Z) : list Z -> list Z -> Prop :=
| swaps_refl t : swaps lo hi t t
| swaps_step t t1 p q : swaps lo hi t t1 -> lo <= p <= hi -> lo <= q <= hi ->
    0 <= lo -> hi < len t1 -> swaps lo hi t (swap t1 p q).

Lemma swaps_trans lo hi t1 t2 t3 : swaps lo hi t1 t2 -> swaps lo hi t2 t3 -> swaps lo hi t1 t3.
Proof.
  intros H1 H2. induction H2 as [|t t' p q H IH Hp Hq Hlo Hhi]; [exact H1|].
  econstructor; eauto.
Qed.

Lemma swaps_one lo hi t p q : lo <= p <= hi -> lo <= q <= hi -> 0 <= lo -> hi < len t ->
  swaps lo hi t (swap t p q).
Proof. intros. econstructor; [constructor | ..]; assumption. Qed.

Lemma swaps_len lo hi t t' : swaps lo hi t t' -> length t' = length t.
Proof.
  induction 1 as [|t t1 p q H IH Hp Hq Hlo Hhi]; [reflexivity|].
  rewrite length_swap by lia. exact IH.
Qed.

Lemma swaps_perm lo hi t t' : swaps lo hi t t' -> Permutation t t'.
Proof.
  induction 1 as [|t t1 p q H IH Hp Hq Hlo Hhi]; [reflexivity|].
  eapply perm_trans; [exact IH | apply swap_perm; lia].
Qed.

Lemma swaps_out lo hi t t' : swaps lo hi t t' ->
  forall r, 0 <= r -> (r < lo \/ hi < r) -> at_ t' r = at_ t r.
Proof.
  induction 1 as [|t t1 p q H IH Hp Hq Hlo Hhi]; intros r Hr Hout; [reflexivity|].
  rewrite at_swap by lia.
  destruct (Z.eqb_spec r q); [lia|]. destruct (Z.eqb_spec r p); [lia|]. apply IH; assumption.
Qed.

Lemma swaps_in lo hi t t' : swaps lo hi t t' ->
  forall r, lo <= r <= hi -> exists r', lo <= r' <= hi /\ at_ t' r = at_ t r'.
Proof.
  induction 1 as [|t t1 p q H IH Hp Hq Hlo Hhi]; intros r Hr; [exists r; split; auto|].
  rewrite at_swap by lia.
  destruct (Z.eqb_spec r q); [apply IH; exact Hp|].
  destruct (Z.eqb_spec r p); [apply IH; exact Hq|]. apply IH; exact Hr.
Qed.

Lemma swaps_widen lo hi lo' hi' t t' : swaps lo hi t t' -> lo' <= lo -> hi <= hi' -> 0 <= lo' ->
  hi' < len t -> swaps lo' hi' t t'.
Proof.
  induction 1 as [|t t1 p q H IH Hp Hq Hlo Hhi]; intros H1 H2 H3 H4; [constructor|].
  econstructor; [apply IH; assumption | lia | lia | lia |].
  unfold len in *. rewrite (swaps_len _ _ _ _ H). exact H4.
Qed.

(** [upd (upd t a (at_ t b)) b x]: the hole moves from [a] to [b]. *)
Lemma upd_upd_swap t a b x : 0 <= a < len t -> 0 <= b < len t -> a <> b ->
  upd (upd t a (at_ t b)) b x = swap (upd t a x) a b.
Proof.
  intros Ha Hb Hab.
  assert (La : len (upd t a x) = len t) by (apply len_upd; exact Ha).
  assert (Lb : len (upd t a (at_ t b)) = len t) by (apply len_upd; exact Ha).
  apply at_ext.
  - rewrite length_upd by (rewrite Lb; exact Hb).
    rewrite length_swap by (rewrite La; assumption). rewrite !length_upd by exact Ha. reflexivity.
  - intros q Hq. fold (len (upd (upd t a (at_ t b)) b x)) in Hq.
    rewrite len_upd in Hq by (rewrite Lb; exact Hb). rewrite Lb in Hq.
    rewrite at_swap by (rewrite ?La; lia).
    rewrite !at_upd by (rewrite ?La, ?Lb; lia).
    rewrite Z.eqb_refl.
    destruct (Z.eqb_spec q b); [reflexivity|].
    destruct (Z.eqb_spec q a); [|reflexivity].
    destruct (Z.eqb_spec b a); [lia | reflexivity].
Qed.

Section Correct.
Context {A : Type}.
Variable lt : A -> A -> bool.
Variable v : list A.
Variable dflt : A.
(** [lt] is a strict weak order: irreflexive, asymmetric, and its
    complement [le a b := lt b a = false] is transitive. *)
Hypothesis lt_irrefl : forall a, lt a a = false.
Hypothesis lt_asym : forall a b, lt a b = true -> lt b a = false.
Hypothesis le_trans : forall a b c, lt b a = false -> lt c b = false -> lt c a = false.

Local Abbreviation kk := (key v dflt).
Local Abbreviation N := (Z.of_nat (length v)).

Definition sorted_on (t : list Z) (lo hi : Z) : Prop :=
  forall i j, lo <= i -> i < j -> j <= hi -> lt (kk t j) (kk t i) = false.

Lemma sorted_on_mono t lo hi lo' hi' : sorted_on t lo hi -> lo <= lo' -> hi' <= hi ->
  sorted_on t lo' hi'.
Proof. intros H H1 H2 i j Hi Hij Hj. apply H; lia. Qed.

Lemma kk_upd t p q x : 0 <= p < len t -> 0 <= q ->
  kk (upd t p x) q = if q =? p then val v dflt x else kk t q.
Proof.
  intros Hp Hq. unfold key. rewrite at_upd by assumption. destruct (q =? p); reflexivity.
Qed.

Lemma kk_swap t p q r : 0 <= p < len t -> 0 <= q < len t -> 0 <= r ->
  kk (swap t p q) r = if r =? q then kk t p else if r =? p then kk t q else kk t r.
Proof.
  intros Hp Hq Hr. unfold key. rewrite at_swap by assumption.
  destruct (r =? q); [reflexivity|]. destruct (r =? p); reflexivity.
Qed.

(** ** Insertion sort *)

Section Insertion.
Variables (pl pi : Z) (vi : Z).

Lemma ins_shift_ok (f : nat) : forall t pj,
  0 <= pl -> pl <= pj <= pi -> pi < len t -> pj - pl <= Z.of_nat f ->
  (forall i j, pl <= i -> i < j -> j <= pi -> i <> pj -> j <> pj ->
     lt (kk (upd t pj vi) j) (kk (upd t pj vi) i) = false) ->
  (forall j, pj < j <= pi -> lt (val v dflt vi) (kk (upd t pj vi) j) = true) ->
  let '(t', pj') := ins_shift lt v dflt f t pj pl (val v dflt vi) in
  pl <= pj' <= pi /\ swaps pl pi (upd t pj vi) (upd t' pj' vi) /\
  sorted_on (upd t' pj' vi) pl pi.
Proof.
  induction f as [|f IH]; intros t pj H0 Hj Hpi Hf Hs Hr; cbn [ins_shift].
  - assert (pj = pl) by lia. subst pj.
    split; [lia|]. split; [constructor|].
    intros i j Hi Hij Hj'. destruct (Z.eq_dec i pl) as [->|Hi'].
    + specialize (Hr j ltac:(lia)). rewrite (kk_upd t pl pl) by lia. rewrite Z.eqb_refl.
      apply lt_asym. exact Hr.
    + apply Hs; lia.
  - assert (Hk1 : pl < pj -> kk t (pj - 1) = kk (upd t pj vi) (pj - 1)).
    { intro. rewrite (kk_upd t pj (pj - 1)) by lia.
      destruct (Z.eqb_spec (pj - 1) pj); [lia|reflexivity]. }
    destruct ((pl <? pj) && lt (val v dflt vi) (kk t (pj - 1))) eqn:E.
    + apply andb_prop in E. destruct E as [E1 E2]. apply Z.ltb_lt in E1.
      set (t' := upd t pj (at_ t (pj - 1))).
      assert (Lt' : len t' = len t) by (apply len_upd; lia).
      assert (Hu : upd t' (pj - 1) vi = swap (upd t pj vi) pj (pj - 1))
        by (apply upd_upd_swap; lia).
      assert (Lu : len (upd t pj vi) = len t) by (apply len_upd; lia).
      assert (Hk : forall r, 0 <= r -> kk (upd t' (pj - 1) vi) r =
                 if r =? pj - 1 then val v dflt vi
                 else if r =? pj then kk t (pj - 1) else kk (upd t pj vi) r).
      { intros r Hr0. rewrite Hu. rewrite kk_swap by lia.
        rewrite (kk_upd t pj pj) by lia. rewrite Z.eqb_refl.
        rewrite (kk_upd t pj (pj - 1)) by lia.
        destruct (Z.eqb_spec (pj - 1) pj); [lia|].
        destruct (Z.eqb_spec r (pj - 1)); destruct (Z.eqb_spec r pj); reflexivity. }
      specialize (IH t' (pj - 1) H0 ltac:(lia) ltac:(lia) ltac:(lia)).
      destruct (ins_shift lt v dflt f t' (pj - 1) pl (val v dflt vi)) as [t2 pj2].
      destruct IH as [IH1 [IH2 IH3]].
      * intros i j Hi0 Hij Hj0 Hi Hj'. rewrite !Hk by lia.
        destruct (Z.eqb_spec i (pj - 1)); [lia|]. destruct (Z.eqb_spec j (pj - 1)); [lia|].
        destruct (Z.eqb_spec j pj); destruct (Z.eqb_spec i pj).
        -- lia.
        -- rewrite (Hk1 E1). apply Hs; lia.
        -- rewrite (Hk1 E1). apply Hs; lia.
        -- apply Hs; lia.
      * intros j Hj'. rewrite Hk by lia.
        destruct (Z.eqb_spec j (pj - 1)); [lia|].
        destruct (Z.eqb_spec j pj); [exact E2|]. apply Hr. lia.
      * split; [lia|]. split; [|exact IH3].
        eapply swaps_trans; [|exact IH2]. rewrite Hu.
        apply swaps_one; lia.
    + split; [lia|]. split; [constructor|].
      intros i j Hi0 Hij Hj0.
      assert (Hv : kk (upd t pj vi) pj = val v dflt vi)
        by (rewrite (kk_upd t pj pj) by lia; rewrite Z.eqb_refl; reflexivity).
      destruct (Z.eq_dec j pj) as [->|Hj'].
      * rewrite Hv. apply andb_false_iff in E. destruct E as [E|E]; [apply Z.ltb_ge in E; lia|].
        rewrite (Hk1 ltac:(lia)) in E.
        destruct (Z.eq_dec i (pj - 1)) as [->|Hi]; [exact E|].
        apply (le_trans _ (kk (upd t pj vi) (pj - 1))); [apply Hs; lia | exact E].
      * destruct (Z.eq_dec i pj) as [->|Hi].
        -- rewrite Hv. apply lt_asym. apply Hr. lia.
        -- apply Hs; lia.
Qed.


End Insertion.

Lemma insertion_ok pl pr (f : nat) : forall t pi,
  0 <= pl -> pl + 1 <= pi -> pr < len t -> len t = N -> pr - pi + 1 <= Z.of_nat f ->
  sorted_on t pl (pi - 1) ->
  swaps pl pr t (insertion lt v dflt f t pi pl pr) /\
  sorted_on (insertion lt v dflt f t pi pl pr) pl pr.
Proof.
  induction f as [|f IH]; intros t pi H0 Hpi Hpr HN Hf Hs; cbn [insertion].
  - split; [constructor|]. apply (sorted_on_mono _ _ _ _ _ Hs); lia.
  - destruct (Z.leb_spec pi pr) as [Hle|Hgt]; [|split; [constructor|];
      apply (sorted_on_mono _ _ _ _ _ Hs); lia].
    pose proof (ins_shift_ok pl pi (at_ t pi) (nfuel v) t pi H0 ltac:(lia) ltac:(lia)
                  ltac:(unfold nfuel; lia)) as G.
    rewrite upd_same in G by lia.
    destruct (ins_shift lt v dflt (nfuel v) t pi pl (val v dflt (at_ t pi))) as [t' pj'].
    destruct G as [G1 [G2 G3]].
    + intros i j Hi Hij Hj Hi' Hj'. apply Hs; lia.
    + intros j Hj. lia.
    + assert (Lu : len (upd t' pj' (at_ t pi)) = len t)
        by (unfold len; rewrite (swaps_len _ _ _ _ G2); reflexivity).
      destruct (IH (upd t' pj' (at_ t pi)) (pi + 1) H0 ltac:(lia) ltac:(lia) ltac:(lia)
                  ltac:(lia) ltac:(replace (pi + 1 - 1) with pi by lia; exact G3)) as [I1 I2].
      split; [|exact I2].
      eapply swaps_trans; [|exact I1].
      apply (swaps_widen _ _ _ _ _ _ G2); lia.
Qed.

(** ** Partition *)

Lemma scan_up_ok t vp (f : nat) : forall pi,
  (exists k, pi < k <= pi + Z.of_nat f /\ lt (kk t k) vp = false) ->
  let r := scan_up lt v dflt f t pi vp in
  pi < r /\ lt (kk t r) vp = false /\ (forall k, pi < k < r -> lt (kk t k) vp = true).
Proof.
  induction f as [|f IH]; intros pi [k [Hk Hkv]]; [lia|]. cbn [scan_up].
  destruct (lt (kk t (pi + 1)) vp) eqn:E.
  - assert (Hk' : pi + 1 < k <= pi + 1 + Z.of_nat f).
    { split; [|lia]. destruct (Z.eq_dec k (pi + 1)) as [->|]; [congruence|lia]. }
    destruct (IH (pi + 1) (ex_intro _ k (conj Hk' Hkv))) as [H1 [H2 H3]].
    split; [lia|]. split; [exact H2|].
    intros k' Hk''. destruct (Z.eq_dec k' (pi + 1)) as [->|]; [exact E|]. apply H3. lia.
  - split; [lia|]. split; [exact E|]. intros k' Hk'. lia.
Qed.

Lemma scan_down_ok t vp (f : nat) : forall pj,
  (exists k, pj - Z.of_nat f <= k < pj /\ lt vp (kk t k) = false) ->
  let r := scan_down lt v dflt f t pj vp in
  r < pj /\ lt vp (kk t r) = false /\ (forall k, r < k < pj -> lt vp (kk t k) = true).
Proof.
  induction f as [|f IH]; intros pj [k [Hk Hkv]]; [lia|]. cbn [scan_down].
  destruct (lt vp (kk t (pj - 1))) eqn:E.
  - assert (Hk' : pj - 1 - Z.of_nat f <= k < pj - 1).
    { split; [lia|]. destruct (Z.eq_dec k (pj - 1)) as [->|]; [congruence|lia]. }
    destruct (IH (pj - 1) (ex_intro _ k (conj Hk' Hkv))) as [H1 [H2 H3]].
    split; [lia|]. split; [exact H2|].
    intros k' Hk''. destruct (Z.eq_dec k' (pj - 1)) as [->|]; [exact E|]. apply H3. lia.
  - split; [lia|]. split; [exact E|]. intros k' Hk'. lia.
Qed.

Section PartLoop.
Variables (pl pr : Z) (vp : A).

Lemma part_loop_ok (f : nat) : forall t pi pj,
  0 <= pl -> pl <= pi -> pi < pj -> pj <= pr - 1 -> pr < len t -> len t = N ->
  pj - pi <= Z.of_nat f ->
  (forall k, pl <= k <= pi -> lt vp (kk t k) = false) ->
  (forall k, pj <= k <= pr -> lt (kk t k) vp = false) ->
  kk t (pr - 1) = vp ->
  let '(t', pi') := part_loop lt v dflt f t pi pj vp in
  pl < pi' <= pr - 1 /\ swaps pl (pr - 2) t t' /\
  (forall k, pl <= k <= pi' - 1 -> lt vp (kk t' k) = false) /\
  (forall k, pi' <= k <= pr -> lt (kk t' k) vp = false) /\
  kk t' (pr - 1) = vp.
Proof.
  induction f as [|f IH]; intros t pi pj H0 Hpi Hij Hpj Hpr HN Hf HL HR Hpv; [lia|].
  cbn [part_loop].
  assert (Nf : Z.of_nat (nfuel v) = N + 1) by (unfold nfuel; lia).
  pose proof (scan_up_ok t vp (nfuel v) pi) as U.
  destruct U as [U1 [U2 U3]]; [exists pj; split; [lia | apply HR; lia]|].
  set (pi1 := scan_up lt v dflt (nfuel v) t pi vp) in *.
  assert (Hpi1 : pi1 <= pj).
  { destruct (Z_le_gt_dec pi1 pj) as [|Hg]; [assumption|].
    specialize (U3 pj ltac:(lia)). rewrite (HR pj ltac:(lia)) in U3. discriminate U3. }
  assert (HL1 : forall k, pl <= k <= pi1 - 1 -> lt vp (kk t k) = false).
  { intros k Hk. destruct (Z_le_gt_dec k pi); [apply HL; lia|].
    apply lt_asym. apply U3. lia. }
  pose proof (scan_down_ok t vp (nfuel v) pj) as D.
  destruct D as [D1 [D2 D3]]; [exists (pi1 - 1); split; [lia | apply HL1; lia]|].
  set (pj1 := scan_down lt v dflt (nfuel v) t pj vp) in *.
  assert (Hpj1 : pi1 - 1 <= pj1).
  { destruct (Z_le_gt_dec (pi1 - 1) pj1) as [|Hg]; [assumption|].
    specialize (D3 (pi1 - 1) ltac:(lia)). rewrite (HL1 (pi1 - 1) ltac:(lia)) in D3.
    discriminate D3. }
  assert (HR1 : forall k, pj1 + 1 <= k <= pr -> lt (kk t k) vp = false).
  { intros k Hk. destruct (Z_le_gt_dec pj k); [apply HR; lia|].
    apply lt_asym. apply D3. lia. }
  destruct (Z.leb_spec pj1 pi1) as [Hc|Hc].
  - split; [lia|]. split; [constructor|]. split; [exact HL1|]. split; [|exact Hpv].
    intros k Hk. destruct (Z.eq_dec k pi1) as [->|]; [exact U2|]. apply HR1. lia.
  - set (t2 := swap t pi1 pj1).
    assert (L2 : len t2 = len t) by (unfold t2, len; rewrite length_swap by lia; reflexivity).
    assert (K2 : forall r, 0 <= r -> kk t2 r =
              if r =? pj1 then kk t pi1 else if r =? pi1 then kk t pj1 else kk t r)
      by (intros r Hr; unfold t2; apply kk_swap; lia).
    specialize (IH t2 pi1 pj1 H0 ltac:(lia) ltac:(lia) ltac:(lia) ltac:(lia) ltac:(lia)
                  ltac:(lia)).
    destruct (part_loop lt v dflt f t2 pi1 pj1 vp) as [t' pi'].
    destruct IH as [I1 [I2 [I3 [I4 I5]]]].
    + intros k Hk. rewrite K2 by lia.
      destruct (Z.eqb_spec k pj1); [lia|]. destruct (Z.eqb_spec k pi1); [exact D2|].
      apply HL1. lia.
    + intros k Hk. rewrite K2 by lia.
      destruct (Z.eqb_spec k pj1); [exact U2|]. destruct (Z.eqb_spec k pi1); [lia|].
      apply HR1. lia.
    + rewrite K2 by lia. destruct (Z.eqb_spec (pr - 1) pj1); [lia|].
      destruct (Z.eqb_spec (pr - 1) pi1); [lia|]. exact Hpv.
    + split; [lia|]. split; [|split; [exact I3|split; [exact I4|exact I5]]].
      eapply swaps_trans; [|exact I2]. apply swaps_one; lia.
Qed.

End PartLoop.

Lemma cswap_ok t a b : 0 <= a < len t -> 0 <= b < len t -> a <> b ->
  let t1 := if lt (kk t a) (kk t b) then swap t a b else t in
  len t1 = len t /\ lt (kk t1 a) (kk t1 b) = false /\
  ((kk t1 a = kk t a /\ kk t1 b = kk t b) \/
   (kk t1 a = kk t b /\ kk t1 b = kk t a /\ lt (kk t a) (kk t b) = true)) /\
  (forall r, 0 <= r -> r <> a -> r <> b -> kk t1 r = kk t r) /\
  (forall lo hi, lo <= a <= hi -> lo <= b <= hi -> 0 <= lo -> hi < len t -> swaps lo hi t t1).
Proof.
  intros Ha Hb Hab t1. unfold t1.
  destruct (lt (kk t a) (kk t b)) eqn:E.
  - rewrite !kk_swap by lia. rewrite Z.eqb_refl.
    destruct (Z.eqb_spec a b); [lia|]. destruct (Z.eqb_spec b a); [lia|]. rewrite Z.eqb_refl.
    split; [unfold len; rewrite length_swap by lia; reflexivity|].
    split; [apply lt_asym; exact E|]. split; [right; auto|]. split.
    + intros r Hr H1 H2. rewrite kk_swap by lia.
      destruct (Z.eqb_spec r b); [lia|]. destruct (Z.eqb_spec r a); [lia|]. reflexivity.
    + intros lo hi H1 H2 H3 H4. apply swaps_one; lia.
  - split; [reflexivity|]. split; [exact E|]. split; [left; auto|]. split; [auto|].
    intros. constructor.
Qed.

Lemma partition_ok t pl pr :
  0 <= pl -> SMALL_QUICKSORT < pr - pl -> pr < len t -> len t = N ->
  let '(t', pi) := partition lt v dflt t pl pr in
  pl < pi < pr /\ swaps pl pr t t' /\
  (forall i j, pl <= i -> i <= pi -> pi <= j -> j <= pr -> lt (kk t' j) (kk t' i) = false).
Proof.
  intros H0 Hs Hpr HN. unfold SMALL_QUICKSORT in Hs. unfold partition.
  set (pm := pl + Z.shiftr (pr - pl) 1).
  assert (Hpm : pl < pm < pr - 1).
  { unfold pm. rewrite Z.shiftr_div_pow2 by lia. change (2 ^ 1) with 2.
    pose proof (Z.div_le_upper_bound (pr - pl) 2 ((pr - pl) / 2) ltac:(lia)).
    pose proof (Z.mul_div_le (pr - pl) 2 ltac:(lia)).
    pose proof (Z.div_le_lower_bound (pr - pl) 2 8 ltac:(lia) ltac:(lia)). lia. }
  destruct (cswap_ok t pm pl ltac:(lia) ltac:(lia) ltac:(lia)) as [L1 [A1 [P1 [O1 S1]]]].
  set (t1 := if lt (kk t pm) (kk t pl) then swap t pm pl else t) in *.
  destruct (cswap_ok t1 pr pm ltac:(lia) ltac:(lia) ltac:(lia)) as [L2 [B1 [P2 [O2 S2]]]].
  set (t2 := if lt (kk t1 pr) (kk t1 pm) then swap t1 pr pm else t1) in *.
  assert (B2 : lt (kk t2 pr) (kk t2 pl) = false).
  { rewrite (O2 pl) by lia.
    destruct P2 as [[E1 E2]|[E1 [E2 E3]]]; rewrite E1; [|exact A1].
    apply (le_trans _ (kk t1 pm)); [exact A1|]. rewrite <- E1, <- E2. exact B1. }
  destruct (cswap_ok t2 pm pl ltac:(lia) ltac:(lia) ltac:(lia)) as [L3 [C1 [P3 [O3 S3]]]].
  set (t3 := if lt (kk t2 pm) (kk t2 pl) then swap t2 pm pl else t2) in *.
  assert (C2 : lt (kk t3 pr) (kk t3 pm) = false).
  { rewrite (O3 pr) by lia.
    destruct P3 as [[E1 E2]|[E1 [E2 E3]]]; rewrite E1; [exact B1 | exact B2]. }
  set (vp := kk t3 pm).
  set (t4 := swap t3 pm (pr - 1)).
  assert (L4 : len t4 = len t3) by (unfold t4, len; rewrite length_swap by lia; reflexivity).
  assert (K4 : forall r, 0 <= r -> kk t4 r =
            if r =? pr - 1 then kk t3 pm else if r =? pm then kk t3 (pr - 1) else kk t3 r)
    by (intros r Hr; unfold t4; apply kk_swap; lia).
  pose proof (part_loop_ok pl pr vp (nfuel v) t4 pl (pr - 1) H0 ltac:(lia) ltac:(lia)
                ltac:(lia) ltac:(lia) ltac:(lia) ltac:(unfold nfuel; lia)) as G.
  destruct (part_loop lt v dflt (nfuel v) t4 pl (pr - 1) vp) as [t5 pi].
  destruct G as [G1 [G2 [G3 [G4 G5]]]].
  - intros k Hk. assert (k = pl) by lia. subst k. rewrite K4 by lia.
    destruct (Z.eqb_spec pl (pr - 1)); [lia|]. destruct (Z.eqb_spec pl pm); [lia|]. exact C1.
  - intros k Hk. rewrite K4 by lia.
    destruct (Z.eqb_spec k (pr - 1)); [apply lt_irrefl|].
    destruct (Z.eqb_spec k pm); [lia|]. assert (k = pr) by lia. subst k. exact C2.
  - rewrite K4 by lia. rewrite Z.eqb_refl. reflexivity.
  - assert (L5 : len t5 = len t) by (unfold len in *; rewrite (swaps_len _ _ _ _ G2); lia).
    assert (K6 : forall r, 0 <= r -> kk (swap t5 pi (pr - 1)) r =
              if r =? pr - 1 then kk t5 pi else if r =? pi then kk t5 (pr - 1) else kk t5 r)
      by (intros r Hr; apply kk_swap; lia).
    split; [lia|]. split.
    + eapply swaps_trans; [apply (S1 pl pr); lia|].
      eapply swaps_trans; [apply (S2 pl pr); lia|].
      eapply swaps_trans; [apply (S3 pl pr); lia|].
      apply (swaps_trans _ _ _ t4); [unfold t4; apply swaps_one; lia|].
      apply (swaps_trans _ _ _ t5); [apply (swaps_widen _ _ _ _ _ _ G2); lia|].
      apply swaps_one; lia.
    + assert (Lo : forall i, pl <= i <= pi -> lt vp (kk (swap t5 pi (pr - 1)) i) = false).
      { intros i Hi. rewrite K6 by lia.
        destruct (Z.eqb_spec i (pr - 1)).
        - replace pi with (pr - 1) by lia. rewrite G5. apply lt_irrefl.
        - destruct (Z.eqb_spec i pi); [rewrite G5; apply lt_irrefl|]. apply G3. lia. }
      assert (Up : forall j, pi <= j <= pr -> lt (kk (swap t5 pi (pr - 1)) j) vp = false).
      { intros j Hj. rewrite K6 by lia.
        destruct (Z.eqb_spec j (pr - 1)); [apply G4; lia|].
        destruct (Z.eqb_spec j pi); [rewrite G5; apply lt_irrefl|]. apply G4. lia. }
      intros i j Hi1 Hi2 Hj1 Hj2.
      apply (le_trans _ vp); [apply Lo; lia | apply Up; lia].
Qed.

(** ** Heapsort *)

Lemma div2_spec c : 2 * (c / 2) <= c <= 2 * (c / 2) + 1.
Proof. pose proof (Z.div_mod c 2 ltac:(lia)). pose proof (Z.mod_pos_bound c 2 ltac:(lia)). lia. Qed.

Ltac div2_facts :=
  repeat match goal with
  | |- context [?x / 2] =>
      lazymatch goal with
      | _ : 2 * (x / 2) <= x <= _ |- _ => fail
      | _ => pose proof (div2_spec x)
      end
  | H : context [?x / 2] |- _ =>
      lazymatch goal with
      | _ : 2 * (x / 2) <= x <= _ |- _ => fail
      | _ => pose proof (div2_spec x)
      end
  end.

Ltac zlia := div2_facts; lia.

Definition heap_except (base : Z) (u : list Z) (l n i : Z) : Prop :=
  forall c, 2 * l <= c <= n -> c / 2 <> i ->
    lt (kk u (ai base (c / 2))) (kk u (ai base c)) = false.

Definition heap_from (base : Z) (u : list Z) (l n : Z) : Prop :=
  forall c, 2 * l <= c <= n -> lt (kk u (ai base (c / 2))) (kk u (ai base c)) = false.

Lemma sift_ok base n tmp l (f : nat) : forall t i j,
  0 <= base -> 1 <= l -> l <= i <= n -> j = 2 * i -> base + n - 1 < len t -> len t = N ->
  n - i < Z.of_nat f -> (i = l \/ 2 * l <= i) ->
  heap_except base (upd t (ai base i) tmp) l n i ->
  (l < i -> forall c, c / 2 = i -> c <= n ->
     lt (kk (upd t (ai base i) tmp) (ai base (i / 2)))
        (kk (upd t (ai base i) tmp) (ai base c)) = false) ->
  let '(t', i') := sift lt v dflt f t base i j n tmp in
  l <= i' <= n /\
  swaps base (base + n - 1) (upd t (ai base i) tmp) (upd t' (ai base i') tmp) /\
  heap_from base (upd t' (ai base i') tmp) l n.
Proof.
  induction f as [|f IH]; intros t i j H0 Hl Hi Hj Hn HN Hf Hil HE HB; [zlia|].
  cbn [sift]. unfold ai in *.
  set (u := upd t (base + i - 1) tmp) in *.
  assert (Lu : len u = len t) by (apply len_upd; zlia).
  assert (Ku : forall k, 0 <= k -> kk u k = if k =? base + i - 1 then val v dflt tmp else kk t k)
    by (intros k Hk; apply kk_upd; zlia).
  destruct (Z.leb_spec j n) as [Hjn|Hjn].
  2:{ split; [zlia|]. split; [constructor|].
      intros c Hc. apply HE; [zlia|]. intro E. assert (2 * i <= c) by zlia. zlia. }
  set (j' := if (j <? n) && lt (kk t (base + j - 1)) (kk t (base + (j + 1) - 1)) then j + 1 else j).
  assert (Hj' : j' = j \/ j' = j + 1) by (unfold j'; destruct (_ && _); auto).
  assert (Hj'n : j' <= n).
  { unfold j'. destruct (Z.ltb_spec j n); simpl; [destruct (lt _ _); zlia | zlia]. }
  assert (Hbig : forall c, c / 2 = i -> c <= n ->
            lt (kk u (base + j' - 1)) (kk u (base + c - 1)) = false).
  { intros c Hc Hcn. rewrite !Ku by zlia.
    destruct (Z.eqb_spec (base + j' - 1) (base + i - 1)); [zlia|].
    destruct (Z.eqb_spec (base + c - 1) (base + i - 1)); [zlia|].
    assert (c = j \/ c = j + 1) as [->| ->] by zlia; unfold j'.
    - destruct (Z.ltb_spec j n); simpl; [|apply lt_irrefl].
      destruct (lt (kk t (base + j - 1)) (kk t (base + (j + 1) - 1))) eqn:E;
        [apply lt_asym; exact E | apply lt_irrefl].
    - destruct (Z.ltb_spec j n); simpl; [|zlia].
      destruct (lt (kk t (base + j - 1)) (kk t (base + (j + 1) - 1))) eqn:E;
        [apply lt_irrefl | exact E]. }
  fold j'.
  assert (Kj : kk t (base + j' - 1) = kk u (base + j' - 1)).
  { rewrite Ku by zlia. destruct (Z.eqb_spec (base + j' - 1) (base + i - 1)); [zlia|reflexivity]. }
  rewrite Kj.
  destruct (lt (val v dflt tmp) (kk u (base + j' - 1))) eqn:Et.
  - set (u' := swap u (base + i - 1) (base + j' - 1)).
    assert (Ku' : forall k, 1 <= k -> kk u' (base + k - 1) =
              if k =? j' then val v dflt tmp else if k =? i then kk u (base + j' - 1)
              else kk u (base + k - 1)).
    { intros k Hk. unfold u'. rewrite kk_swap by zlia.
      destruct (Z.eqb_spec (base + k - 1) (base + j' - 1)); destruct (Z.eqb_spec k j'); try zlia.
      - rewrite Ku by zlia. rewrite Z.eqb_refl. reflexivity.
      - destruct (Z.eqb_spec (base + k - 1) (base + i - 1)); destruct (Z.eqb_spec k i); try zlia;
          reflexivity. }
    pose proof (IH (upd t (base + i - 1) (at_ t (base + j' - 1))) j' (j' + j') H0 Hl
                  ltac:(zlia) ltac:(zlia) ltac:(rewrite len_upd; zlia) ltac:(rewrite len_upd; zlia)
                  ltac:(zlia) ltac:(zlia)) as G.
    unfold ai in G. rewrite upd_upd_swap in G by zlia. fold u u' in G.
    destruct (sift lt v dflt f (upd t (base + i - 1) (at_ t (base + j' - 1))) base j' (j' + j') n tmp)
      as [t' i'].
    destruct G as [G1 [G2 G3]].
    + intros c Hc Hcj. unfold ai. rewrite !Ku' by zlia.
      destruct (Z.eqb_spec c j').
      * subst c. destruct (Z.eqb_spec (j' / 2) j'); [zlia|].
        destruct (Z.eqb_spec (j' / 2) i); [|zlia]. apply lt_asym. exact Et.
      * destruct (Z.eqb_spec (c / 2) j'); [zlia|].
        destruct (Z.eqb_spec c i).
        -- subst c. destruct (Z.eqb_spec (i / 2) i); [zlia|].
           apply HB; [zlia|zlia|zlia].
        -- destruct (Z.eqb_spec (c / 2) i).
           ++ apply Hbig; zlia.
           ++ apply HE; zlia.
    + intros _ c Hc Hcn. unfold ai. rewrite !Ku' by zlia.
      destruct (Z.eqb_spec (j' / 2) j'); [zlia|]. destruct (Z.eqb_spec (j' / 2) i); [|zlia].
      destruct (Z.eqb_spec c j'); [zlia|]. destruct (Z.eqb_spec c i); [zlia|].
      replace (base + j' - 1) with (base + c / 2 - 1) by zlia. apply HE; zlia.
    + split; [zlia|]. split; [|exact G3].
      eapply swaps_trans; [|exact G2]. unfold u'. apply swaps_one; zlia.
  - split; [zlia|]. split; [constructor|].
    intros c Hc. unfold ai. destruct (Z.eq_dec (c / 2) i) as [E|E]; [|apply HE; zlia].
    fold u. rewrite E. rewrite (Ku (base + i - 1)) by zlia. rewrite Z.eqb_refl.
    apply (le_trans _ (kk u (base + j' - 1))); [apply Hbig; zlia | exact Et].
Qed.

Lemma heap_build_ok base n (f : nat) : forall t l,
  0 <= base -> 0 <= l -> 2 * l <= n -> base + n - 1 < len t -> len t = N -> l <= Z.of_nat f ->
  heap_from base t (l + 1) n ->
  swaps base (base + n - 1) t (heap_build lt v dflt f t base l n) /\
  heap_from base (heap_build lt v dflt f t base l n) 1 n.
Proof.
  induction f as [|f IH]; intros t l H0 Hl Hln Hn HN Hf HH; cbn [heap_build].
  - split; [constructor|]. replace l with 0 in HH by lia. exact HH.
  - destruct (Z.ltb_spec 0 l) as [Hl0|Hl0].
    2:{ split; [constructor|]. replace l with 0 in HH by lia. exact HH. }
    pose proof (sift_ok base n (at_ t (ai base l)) l (nfuel v) t l (Z.shiftl l 1) H0 ltac:(lia)
                  ltac:(lia) ltac:(rewrite Z.shiftl_mul_pow2 by lia; lia) Hn HN
                  ltac:(unfold nfuel; lia) (or_introl eq_refl)) as G.
    rewrite upd_same in G by (unfold ai; lia).
    destruct (sift lt v dflt (nfuel v) t base l (Z.shiftl l 1) n (at_ t (ai base l))) as [t' i'].
    destruct G as [G1 [G2 G3]].
    + intros c Hc Hcl. apply HH; zlia.
    + intros; lia.
    + assert (L' : len (upd t' (ai base i') (at_ t (ai base l))) = len t)
        by (unfold len; rewrite (swaps_len _ _ _ _ G2); reflexivity).
      destruct (IH (upd t' (ai base i') (at_ t (ai base l))) (l - 1) H0 ltac:(lia) ltac:(lia)
                  ltac:(lia) ltac:(lia) ltac:(lia)
                  ltac:(replace (l - 1 + 1) with l by lia; exact G3)) as [I1 I2].
      split; [eapply swaps_trans; [exact G2 | exact I1] | exact I2].
Qed.

Lemma heap_max base u n : heap_from base u 1 n ->
  forall a, 1 <= a <= n -> lt (kk u (ai base 1)) (kk u (ai base a)) = false.
Proof.
  intros HH.
  assert (G : forall m : nat, forall a, 1 <= a <= n -> (Z.to_nat a <= m)%nat ->
            lt (kk u (ai base 1)) (kk u (ai base a)) = false).
  { induction m as [|m IHm]; intros a Ha Hm; [lia|].
    destruct (Z.eq_dec a 1) as [->|Ha1]; [apply lt_irrefl|].
    apply (le_trans _ (kk u (ai base (a / 2)))).
    - apply HH; zlia.
    - apply IHm; zlia. }
  intros a Ha. apply (G (Z.to_nat a)); lia.
Qed.

Lemma heap_down_ok base n0 (f : nat) : forall t n,
  0 <= base -> 0 <= n <= n0 -> base + n0 - 1 < len t -> len t = N -> n <= Z.of_nat f + 1 ->
  heap_from base t 1 n ->
  (forall a b, n < a -> a < b -> b <= n0 -> lt (kk t (ai base b)) (kk t (ai base a)) = false) ->
  (forall a b, 1 <= a <= n -> n < b <= n0 -> lt (kk t (ai base b)) (kk t (ai base a)) = false) ->
  swaps base (base + n0 - 1) t (heap_down lt v dflt f t base n) /\
  sorted_on (heap_down lt v dflt f t base n) base (base + n0 - 1).
Proof.
  assert (Fin : forall t n, 0 <= base -> 0 <= n <= 1 -> n <= n0 ->
    (forall a b, n < a -> a < b -> b <= n0 -> lt (kk t (ai base b)) (kk t (ai base a)) = false) ->
    (forall a b, 1 <= a <= n -> n < b <= n0 -> lt (kk t (ai base b)) (kk t (ai base a)) = false) ->
    sorted_on t base (base + n0 - 1)).
  { intros t n H0 Hn Hn0 HS HC i j Hi Hij Hj.
    replace i with (ai base (i - base + 1)) by (unfold ai; lia).
    replace j with (ai base (j - base + 1)) by (unfold ai; lia).
    destruct (Z.lt_ge_cases n (i - base + 1)); [apply HS; lia | apply HC; lia]. }
  induction f as [|f IH]; intros t n H0 Hn Hn0 HN Hf HH HS HC; cbn [heap_down].
  - split; [constructor|]. apply (Fin t n); auto; lia.
  - destruct (Z.ltb_spec 1 n) as [Hn1|Hn1].
    2:{ split; [constructor|]. apply (Fin t n); auto; lia. }
    unfold ai in *.
    assert (Lt1 : len (upd t (base + n - 1) (at_ t (base + 1 - 1))) = len t) by (apply len_upd; lia).
    pose proof (sift_ok base (n - 1) (at_ t (base + n - 1)) 1 (nfuel v)
                  (upd t (base + n - 1) (at_ t (base + 1 - 1))) 1 2 H0 ltac:(lia) ltac:(lia)
                  ltac:(lia) ltac:(lia) ltac:(lia) ltac:(unfold nfuel; lia)
                  (or_introl eq_refl)) as G.
    unfold ai in G.
    rewrite upd_upd_swap in G by lia. rewrite upd_same in G by lia.
    set (w := swap t (base + n - 1) (base + 1 - 1)) in G.
    assert (Kw : forall k, 1 <= k -> kk w (base + k - 1) =
              if k =? 1 then kk t (base + n - 1) else if k =? n then kk t (base + 1 - 1)
              else kk t (base + k - 1)).
    { intros k Hk. unfold w. rewrite kk_swap by lia.
      destruct (Z.eqb_spec (base + k - 1) (base + 1 - 1)); destruct (Z.eqb_spec k 1); try lia;
        [reflexivity|].
      destruct (Z.eqb_spec (base + k - 1) (base + n - 1)); destruct (Z.eqb_spec k n); try lia;
        reflexivity. }
    destruct (sift lt v dflt (nfuel v) (upd t (base + n - 1) (at_ t (base + 1 - 1))) base 1 2 (n - 1)
                (at_ t (base + n - 1))) as [t2 i2].
    destruct G as [G1 [G2 G3]].
    + intros c Hc Hc1. unfold ai. rewrite !Kw by zlia.
      destruct (Z.eqb_spec (c / 2) 1); [lia|]. destruct (Z.eqb_spec c 1); [lia|].
      destruct (Z.eqb_spec c n); [lia|]. destruct (Z.eqb_spec (c / 2) n); [zlia|].
      apply HH; zlia.
    + intros; lia.
    + set (t3 := upd t2 (base + i2 - 1) (at_ t (base + n - 1))) in *.
      assert (Lw : len w = len t) by (unfold w, len; rewrite length_swap by lia; reflexivity).
      assert (L3 : len t3 = len t) by (unfold len in *; rewrite (swaps_len _ _ _ _ G2); exact Lw).
      assert (Out : forall b, n <= b -> kk t3 (base + b - 1) = kk w (base + b - 1)).
      { intros b Hb. unfold key. rewrite (swaps_out _ _ _ _ G2) by lia. reflexivity. }
      assert (In3 : forall a, 1 <= a <= n - 1 -> exists a', 1 <= a' <= n /\
                kk t3 (base + a - 1) = kk t (base + a' - 1)).
      { intros a Ha. destruct (swaps_in _ _ _ _ G2 (base + a - 1) ltac:(lia)) as [r [Hr Er]].
        assert (E : kk t3 (base + a - 1) = kk w (base + (r - base + 1) - 1))
          by (unfold key; rewrite Er; f_equal; f_equal; lia).
        rewrite E, Kw by lia.
        destruct (Z.eqb_spec (r - base + 1) 1); [exists n; split; [lia|reflexivity]|].
        destruct (Z.eqb_spec (r - base + 1) n); [lia|].
        exists (r - base + 1). split; [lia|reflexivity]. }
      destruct (IH t3 (n - 1) H0 ltac:(lia) ltac:(lia) ltac:(lia) ltac:(lia) G3) as [I1 I2].
      * intros a b Ha Hab Hb. rewrite !Out by lia. rewrite !Kw by lia.
        destruct (Z.eqb_spec b 1); [lia|]. destruct (Z.eqb_spec b n); [lia|].
        destruct (Z.eqb_spec a 1); [lia|]. destruct (Z.eqb_spec a n).
        -- apply HC; lia.
        -- apply HS; lia.
      * intros a b Ha Hb. destruct (In3 a Ha) as [a' [Ha' Ea]]. rewrite Ea.
        rewrite Out by lia. rewrite Kw by lia.
        destruct (Z.eqb_spec b 1); [lia|]. destruct (Z.eqb_spec b n).
        -- pose proof (heap_max base t n HH a' Ha') as M. unfold ai in M. exact M.
        -- apply HC; lia.
      * split; [|exact I2].
        eapply swaps_trans; [|exact I1].
        apply (swaps_trans _ _ _ w); [unfold w; apply swaps_one; lia|].
        apply (swaps_widen _ _ _ _ _ _ G2); lia.
Qed.

Lemma aheapsort_ok t pl pr : 0 <= pl -> pl <= pr + 1 -> pr < len t -> len t = N ->
  swaps pl pr t (aheapsort lt v dflt t pl (pr - pl + 1)) /\
  sorted_on (aheapsort lt v dflt t pl (pr - pl + 1)) pl pr.
Proof.
  intros H0 Hp Hpr HN. unfold aheapsort.
  replace (Z.shiftr (pr - pl + 1) 1) with ((pr - pl + 1) / 2)
    by (rewrite Z.shiftr_div_pow2 by lia; reflexivity).
  destruct (heap_build_ok pl (pr - pl + 1) (nfuel v) t ((pr - pl + 1) / 2) H0 ltac:(zlia)
              ltac:(zlia) ltac:(lia) HN ltac:(unfold nfuel; zlia)) as [B1 B2].
  { intros c Hc. zlia. }
  set (t1 := heap_build lt v dflt (nfuel v) t pl ((pr - pl + 1) / 2) (pr - pl + 1)) in *.
  assert (L1 : len t1 = len t) by (unfold len; rewrite (swaps_len _ _ _ _ B1); reflexivity).
  destruct (heap_down_ok pl (pr - pl + 1) (nfuel v) t1 (pr - pl + 1) H0 ltac:(lia) ltac:(lia)
              ltac:(lia) ltac:(unfold nfuel; lia) B2) as [D1 D2].
  - intros; lia.
  - intros; lia.
  - replace (pl + (pr - pl + 1) - 1) with pr in * by lia.
    split; [eapply swaps_trans; [exact B1 | exact D1] | exact D2].
Qed.

(** ** The quicksort loop: pending segments *)

Definition segs_of (stack : list (Z * Z * Z)) : list (Z * Z) :=
  map (fun '(a, b, _) => (a, b)) stack.

Definition covered (segs : list (Z * Z)) (k : Z) : Prop :=
  exists lo hi, In (lo, hi) segs /\ lo <= k <= hi.

Definition together (segs : list (Z * Z)) (i j : Z) : Prop :=
  exists lo hi, In (lo, hi) segs /\ lo <= i /\ j <= hi.

Fixpoint disj (segs : list (Z * Z)) : Prop :=
  match segs with
  | [] => True
  | (lo, hi) :: r => (forall k, lo <= k <= hi -> ~ covered r k) /\ disj r
  end.

Definition bounded (segs : list (Z * Z)) : Prop :=
  forall lo hi, In (lo, hi) segs -> 0 <= lo /\ hi < N /\ lo <= hi + 1.

(** Every pair of positions not inside one pending segment is in order. *)
Definition sorted_except (t : list Z) (segs : list (Z * Z)) : Prop :=
  forall i j, 0 <= i -> i < j -> j < N -> ~ together segs i j -> lt (kk t j) (kk t i) = false.

Definition tosort0 : list Z := map Z.of_nat (seq 0 (length v)).

Record Inv (t : list Z) (segs : list (Z * Z)) : Prop := {
  inv_len : len t = N;
  inv_perm : Permutation tosort0 t;
  inv_bnd : bounded segs;
  inv_disj : disj segs;
  inv_sorted : sorted_except t segs }.

Fixpoint phi (segs : list (Z * Z)) : Z :=
  match segs with
  | [] => 0
  | (lo, hi) :: r => hi - lo + 2 + phi r
  end.

Lemma phi_nonneg segs : bounded segs -> 0 <= phi segs.
Proof.
  induction segs as [|[lo hi] r IH]; simpl; intros HB; [lia|].
  pose proof (HB lo hi (or_introl eq_refl)).
  assert (0 <= phi r) by (apply IH; intros a b Hin; apply HB; right; exact Hin). lia.
Qed.

Lemma disj_app a b : disj a -> disj b -> (forall k, covered a k -> ~ covered b k) -> disj (a ++ b).
Proof.
  induction a as [|[lo hi] a IH]; simpl; intros Ha Hb Hab; [exact Hb|].
  destruct Ha as [H1 H2]. split.
  - intros k Hk [lo' [hi' [Hin Hk']]]. apply in_app_or in Hin as [Hin|Hin].
    + apply (H1 k Hk). exists lo', hi'. auto.
    + apply (Hab k); [exists lo, hi; split; [left; reflexivity | exact Hk]|].
      exists lo', hi'. auto.
  - apply IH; auto. intros k [lo' [hi' [Hin Hk]]]. apply Hab.
    exists lo', hi'. split; [right; exact Hin | exact Hk].
Qed.

Lemma refine t t' lo hi rest new :
  Inv t ((lo, hi) :: rest) -> swaps lo hi t t' ->
  (forall a b, In (a, b) new -> lo <= a /\ b <= hi /\ a <= b + 1) ->
  disj new ->
  (forall i j, lo <= i -> i < j -> j <= hi -> ~ together new i j -> lt (kk t' j) (kk t' i) = false) ->
  Inv t' (new ++ rest).
Proof.
  intros [HL HP HB HD HS] Hsw Hnew Hdn Hloc. destruct HD as [HD1 HD2].
  destruct (HB lo hi (or_introl eq_refl)) as [Hlo [Hhi _]].
  assert (Out : forall r, 0 <= r -> r < lo \/ hi < r -> kk t' r = kk t r).
  { intros r Hr Hout. unfold key. rewrite (swaps_out _ _ _ _ Hsw) by assumption. reflexivity. }
  assert (In' : forall r, lo <= r <= hi -> exists r', lo <= r' <= hi /\ kk t' r = kk t r').
  { intros r Hr. destruct (swaps_in _ _ _ _ Hsw r Hr) as [r' [H1 H2]].
    exists r'. unfold key. rewrite H2. auto. }
  assert (NoRest : forall k, lo <= k <= hi -> forall a b, In (a, b) rest -> a <= k <= b -> False).
  { intros k Hk a b Hin Hab. apply (HD1 k Hk). exists a, b. auto. }
  constructor.
  - unfold len in *. rewrite (swaps_len _ _ _ _ Hsw). exact HL.
  - eapply perm_trans; [exact HP | exact (swaps_perm _ _ _ _ Hsw)].
  - intros a b Hin. apply in_app_or in Hin as [Hin|Hin].
    + destruct (Hnew a b Hin) as [? [? ?]]. lia.
    + apply HB. right. exact Hin.
  - apply disj_app; [exact Hdn | exact HD2 |].
    intros k [a [b [Hin Hk]]]. destruct (Hnew a b Hin) as [? [? ?]]. apply HD1. lia.
  - intros i j Hi Hij Hj Hnt.
    destruct (Z_le_gt_dec lo i) as [Hli|Hli]; [destruct (Z_le_gt_dec j hi) as [Hjh|Hjh]|].
    + apply Hloc; [lia|lia|lia|].
      intros [a [b [Hin Hab]]]. apply Hnt. exists a, b. split; [apply in_or_app; left|]; assumption.
    + destruct (Z_le_gt_dec i hi) as [Hih|Hih].
      * destruct (In' i ltac:(lia)) as [r [Hr Er]]. rewrite Er, (Out j) by lia.
        apply HS; [lia|lia|lia|].
        intros [a [b [[E|Hin] Hab]]]; [injection E as <- <-; lia|].
        apply (NoRest hi ltac:(lia) a b Hin). lia.
      * rewrite !Out by lia. apply HS; [lia|lia|lia|].
        intros [a [b [[E|Hin] Hab]]]; [injection E as <- <-; lia|].
        apply Hnt. exists a, b. split; [apply in_or_app; right|]; assumption.
    + destruct (Z_le_gt_dec lo j) as [Hlj|Hlj]; [destruct (Z_le_gt_dec j hi) as [Hjh|Hjh]|].
      * destruct (In' j ltac:(lia)) as [r [Hr Er]]. rewrite Er, (Out i) by lia.
        apply HS; [lia|lia|lia|].
        intros [a [b [[E|Hin] Hab]]]; [injection E as <- <-; lia|].
        apply (NoRest lo ltac:(lia) a b Hin). lia.
      * rewrite !Out by lia. apply HS; [lia|lia|lia|].
        intros [a [b [[E|Hin] Hab]]]; [injection E as <- <-; lia|].
        apply Hnt. exists a, b. split; [apply in_or_app; right|]; assumption.
      * rewrite !Out by lia. apply HS; [lia|lia|lia|].
        intros [a [b [[E|Hin] Hab]]]; [injection E as <- <-; lia|].
        apply Hnt. exists a, b. split; [apply in_or_app; right|]; assumption.
Qed.

Lemma split_ok t t1 pl pr pi rest :
  Inv t ((pl, pr) :: rest) -> pl < pi < pr -> swaps pl pr t t1 ->
  (forall i j, pl <= i -> i <= pi -> pi <= j -> j <= pr -> lt (kk t1 j) (kk t1 i) = false) ->
  Inv t1 ((pl, pi - 1) :: (pi + 1, pr) :: rest) /\ Inv t1 ((pi + 1, pr) :: (pl, pi - 1) :: rest).
Proof.
  intros HI Hpi Hsw HP. split.
  - apply (refine t t1 pl pr rest [(pl, pi - 1); (pi + 1, pr)] HI Hsw).
    + intros a b [E|[E|[]]]; injection E as <- <-; lia.
    + simpl. split; [|split; [|exact I]].
      * intros k Hk [a [b [[E|[]] Hab]]]. injection E as <- <-. lia.
      * intros k Hk [a [b [[] _]]].
    + intros i j Hi Hij Hj Hnt. apply HP; try lia.
      * destruct (Z_le_gt_dec i pi); [lia|]. exfalso. apply Hnt.
        exists (pi + 1), pr. split; [right; left; reflexivity | lia].
      * destruct (Z_le_gt_dec pi j); [lia|]. exfalso. apply Hnt.
        exists pl, (pi - 1). split; [left; reflexivity | lia].
  - apply (refine t t1 pl pr rest [(pi + 1, pr); (pl, pi - 1)] HI Hsw).
    + intros a b [E|[E|[]]]; injection E as <- <-; lia.
    + simpl. split; [|split; [|exact I]].
      * intros k Hk [a [b [[E|[]] Hab]]]. injection E as <- <-. lia.
      * intros k Hk [a [b [[] _]]].
    + intros i j Hi Hij Hj Hnt. apply HP; try lia.
      * destruct (Z_le_gt_dec i pi); [lia|]. exfalso. apply Hnt.
        exists (pi + 1), pr. split; [left; reflexivity | lia].
      * destruct (Z_le_gt_dec pi j); [lia|]. exfalso. apply Hnt.
        exists pl, (pi - 1). split; [right; left; reflexivity | lia].
Qed.

Lemma qs_while_ok (f : nat) : forall t pl pr stack cdepth,
  Inv t ((pl, pr) :: segs_of stack) ->
  let '(t', pl', pr', stack') := qs_while lt v dflt f t pl pr stack cdepth in
  Inv t' ((pl', pr') :: segs_of stack') /\
  phi ((pl', pr') :: segs_of stack') = phi ((pl, pr) :: segs_of stack).
Proof.
  induction f as [|f IH]; intros t pl pr stack cdepth HI; cbn [qs_while];
    [split; [exact HI | reflexivity]|].
  destruct (Z.ltb_spec SMALL_QUICKSORT (pr - pl)) as [Hs|Hs]; [|split; [exact HI | reflexivity]].
  destruct (inv_bnd _ _ HI pl pr (or_introl eq_refl)) as [H0 [Hpr _]].
  pose proof (inv_len _ _ HI) as HL.
  pose proof (partition_ok t pl pr H0 Hs ltac:(lia) HL) as P.
  destruct (partition lt v dflt t pl pr) as [t1 pi].
  destruct P as [P1 [P2 P3]].
  destruct (split_ok t t1 pl pr pi (segs_of stack) HI P1 P2 P3) as [S1 S2].
  destruct (Z.ltb_spec (pi - pl) (pr - pi)).
  - pose proof (IH t1 pl (pi - 1) ((pi + 1, pr, cdepth - 1) :: stack) (cdepth - 1) S1) as G.
    destruct (qs_while lt v dflt f t1 pl (pi - 1) ((pi + 1, pr, cdepth - 1) :: stack) (cdepth - 1))
      as [[[t' pl'] pr'] stack'].
    destruct G as [G1 G2]. split; [exact G1|]. rewrite G2. simpl. lia.
  - pose proof (IH t1 (pi + 1) pr ((pl, pi - 1, cdepth - 1) :: stack) (cdepth - 1) S2) as G.
    destruct (qs_while lt v dflt f t1 (pi + 1) pr ((pl, pi - 1, cdepth - 1) :: stack) (cdepth - 1))
      as [[[t' pl'] pr'] stack'].
    destruct G as [G1 G2]. split; [exact G1|]. rewrite G2. simpl. lia.
Qed.

Lemma pop_ok t t' pl pr rest :
  Inv t ((pl, pr) :: rest) -> swaps pl pr t t' -> sorted_on t' pl pr ->
  Inv t' rest /\ phi rest < phi ((pl, pr) :: rest).
Proof.
  intros HI Hsw Hs. split.
  - apply (refine t t' pl pr rest [] HI Hsw); [intros a b []| exact I |].
    intros i j Hi Hij Hj _. apply Hs; lia.
  - destruct (inv_bnd _ _ HI pl pr (or_introl eq_refl)) as [_ [_ Hb]]. simpl. lia.
Qed.

Lemma qs_outer_ok (f : nat) : forall t pl pr stack cdepth,
  Inv t ((pl, pr) :: segs_of stack) -> phi ((pl, pr) :: segs_of stack) <= Z.of_nat f ->
  Inv (qs_outer lt v dflt f t pl pr stack cdepth) [].
Proof.
  induction f as [|f IH]; intros t pl pr stack cdepth HI Hf.
  - exfalso. destruct (inv_bnd _ _ HI pl pr (or_introl eq_refl)) as [_ [_ Hb]].
    assert (0 <= phi (segs_of stack))
      by (apply phi_nonneg; intros a b Hin; apply (inv_bnd _ _ HI); right; exact Hin).
    simpl in Hf. lia.
  - cbn [qs_outer].
    assert (Step : forall t1 stack1,
              Inv t1 (segs_of stack1) -> phi (segs_of stack1) < phi ((pl, pr) :: segs_of stack) ->
              Inv (match stack1 with
                   | [] => t1
                   | (pl0, pr0, d) :: stack0 => qs_outer lt v dflt f t1 pl0 pr0 stack0 d
                   end) []).
    { intros t1 [|[[a b] d] s] H1 H2; [exact H1|]. apply IH; [exact H1|].
      change (segs_of ((a, b, d) :: s)) with ((a, b) :: segs_of s) in H2. lia. }
    destruct (inv_bnd _ _ HI pl pr (or_introl eq_refl)) as [H0 [Hpr Hb]].
    pose proof (inv_len _ _ HI) as HL.
    destruct (Z.ltb_spec cdepth 0).
    + destruct (aheapsort_ok t pl pr H0 Hb ltac:(lia) HL) as [A1 A2].
      destruct (pop_ok _ _ _ _ _ HI A1 A2) as [P1 P2]. apply Step; assumption.
    + pose proof (qs_while_ok (nfuel v) t pl pr stack cdepth HI) as G.
      destruct (qs_while lt v dflt (nfuel v) t pl pr stack cdepth) as [[[t2 pl'] pr'] stack'].
      destruct G as [G1 G2].
      destruct (inv_bnd _ _ G1 pl' pr' (or_introl eq_refl)) as [H0' [Hpr' Hb']].
      pose proof (inv_len _ _ G1) as HL'.
      destruct (insertion_ok pl' pr' (nfuel v) t2 (pl' + 1) H0' ltac:(lia) ltac:(lia) HL'
                  ltac:(unfold nfuel; lia) ltac:(intros i j Hi Hij Hj; lia)) as [I1 I2].
      destruct (pop_ok _ _ _ _ _ G1 I1 I2) as [P1 P2]. apply Step; [exact P1|]. lia.
Qed.

Lemma aquicksort_ok :
  Permutation tosort0 (aquicksort lt v dflt) /\ len (aquicksort lt v dflt) = N /\
  forall i j, 0 <= i -> i < j -> j < N ->
    lt (kk (aquicksort lt v dflt) j) (kk (aquicksort lt v dflt) i) = false.
Proof.
  assert (HI : Inv tosort0 [(0, N - 1)]).
  { constructor.
    - unfold len, tosort0. rewrite length_map, length_seq. reflexivity.
    - reflexivity.
    - intros lo hi [E|[]]. injection E as <- <-. lia.
    - simpl. split; [|exact I]. intros k _ [a [b [[] _]]].
    - intros i j Hi Hij Hj Hnt. exfalso. apply Hnt. exists 0, (N - 1).
      split; [left; reflexivity | lia]. }
  pose proof (qs_outer_ok (nfuel v) tosort0 0 (N - 1) [] (get_msb (Z.of_nat (length v)) * 2) HI
                ltac:(simpl; unfold nfuel; lia)) as [G1 G2 _ _ G5].
  unfold aquicksort. fold tosort0.
  split; [exact G2|]. split; [exact G1|].
  intros i j Hi Hij Hj. apply G5; [lia|lia|lia|]. intros [a [b [[] _]]].
Qed.

End Correct.

(** ** [String.ltb] is a strict weak order *)

Lemma ascii_cmp_refl a : Ascii.compare a a = Eq.
Proof. unfold Ascii.compare. apply N.compare_refl. Qed.

Lemma string_cmp_refl s : String.compare s s = Eq.
Proof. induction s as [|a s IH]; simpl; [reflexivity|]. rewrite ascii_cmp_refl. exact IH. Qed.

Lemma string_lt_trans s1 s2 s3 :
  String.compare s1 s2 = Lt -> String.compare s2 s3 = Lt -> String.compare s1 s3 = Lt.
Proof.
  revert s2 s3. induction s1 as [|a s1 IH]; intros [|b s2] [|c s3]; simpl; try congruence.
  destruct (Ascii.compare a b) eqn:Eab; try discriminate;
  destruct (Ascii.compare b c) eqn:Ebc; try discriminate.
  - apply Ascii.compare_eq_iff in Eab, Ebc. subst. rewrite ascii_cmp_refl. apply IH.
  - apply Ascii.compare_eq_iff in Eab. subst. rewrite Ebc. reflexivity.
  - apply Ascii.compare_eq_iff in Ebc. subst. rewrite Eab. reflexivity.
  - intros _ _. unfold Ascii.compare in *. rewrite N.compare_lt_iff in *.
    replace (N_of_ascii a ?= N_of_ascii c)%N with Lt; [reflexivity|].
    symmetry. apply N.compare_lt_iff. lia.
Qed.

Lemma ltb_irrefl a : String.ltb a a = false.
Proof. unfold String.ltb. rewrite string_cmp_refl. reflexivity. Qed.

Lemma ltb_asym a b : String.ltb a b = true -> String.ltb b a = false.
Proof.
  unfold String.ltb. rewrite (String.compare_antisym b a).
  destruct (String.compare a b); simpl; congruence.
Qed.

Lemma ltb_le_trans a b c : String.ltb b a = false -> String.ltb c b = false -> String.ltb c a = false.
Proof.
  unfold String.ltb. intros H1 H2.
  destruct (String.compare b a) eqn:E1; try discriminate;
  destruct (String.compare c b) eqn:E2; try discriminate.
  - apply String.compare_eq_iff in E1, E2. subst. rewrite string_cmp_refl. reflexivity.
  - apply String.compare_eq_iff in E1. subst. rewrite E2. reflexivity.
  - apply String.compare_eq_iff in E2. subst. rewrite E1. reflexivity.
  - assert (Eab : String.compare a b = Lt)
      by (rewrite String.compare_antisym, E1; reflexivity).
    assert (Ebc : String.compare b c = Lt)
      by (rewrite String.compare_antisym, E2; reflexivity).
    rewrite String.compare_antisym, (string_lt_trans a b c Eab Ebc). reflexivity.
Qed.

Lemma ltb_false_leb a b : String.ltb a b = false -> String.leb b a = true.
Proof.
  unfold String.ltb, String.leb. rewrite (String.compare_antisym b a).
  destruct (String.compare a b); simpl; congruence.
Qed.

(** ** [sort_values('Date')] *)

Lemma nth_map_in {B C} (f : B -> C) (l : list B) d d' n : (n < length l)%nat ->
  nth n (map f l) d = f (nth n l d').
Proof.
  intros Hn. rewrite nth_indep with (d' := f d') by (rewrite length_map; exact Hn).
  apply map_nth.
Qed.

Lemma map_nth_tosort0 {B C} (l : list B) (w : list C) (d : B) : length w = length l ->
  map (fun i => nth (Z.to_nat i) l d) (tosort0 w) = l.
Proof.
  intros Hw. unfold tosort0. rewrite Hw, map_map.
  apply nth_ext with (d := d) (d' := d); rewrite ?length_map, ?length_seq; [reflexivity|].
  intros k Hk.
  rewrite (nth_map_in _ _ _ 0%nat) by (rewrite length_seq; lia).
  rewrite seq_nth by lia. simpl. rewrite Nat2Z.id. reflexivity.
Qed.

Lemma sorted_nth {B} (R : B -> B -> Prop) (l : list B) d :
  (forall k, (S k < length l)%nat -> R (nth k l d) (nth (S k) l d)) -> Sorted R l.
Proof.
  induction l as [|x l IH]; intros H; [constructor|]. constructor.
  - apply IH. intros k Hk. apply (H (S k)). simpl. lia.
  - destruct l as [|y l]; constructor. apply (H 0%nat). simpl. lia.
Qed.

Lemma sort_values_date_correct (l : list record) :
  Sorted date_le (sort_values_date l) /\ Permutation l (sort_values_date l).
Proof.
  destruct l as [|r0 l']; [split; constructor|].
  set (l := r0 :: l').
  change (sort_values_date l) with
    (map (fun i => nth (Z.to_nat i) l r0) (aquicksort String.ltb (map r_date l) EmptyString)).
  destruct (aquicksort_ok String.ltb (map r_date l) EmptyString ltb_irrefl ltb_asym ltb_le_trans)
    as [P [L Srt]].
  set (t := aquicksort String.ltb (map r_date l) EmptyString) in *.
  set (g := fun i => nth (Z.to_nat i) l r0).
  assert (Hl : length (map r_date l) = length l) by apply length_map.
  assert (Hg : forall k, (k < length t)%nat -> nth k (map g t) r0 = g (nth k t 0)).
  { intros k Hk. apply nth_map_in. exact Hk. }
  assert (Ht : forall k, (k < length t)%nat -> (Z.to_nat (nth k t 0%Z) < length l)%nat).
  { intros k Hk. assert (Hin : In (nth k t 0) (tosort0 (map r_date l)))
      by (apply (Permutation_in _ (Permutation_sym P)); apply nth_In; exact Hk).
    unfold tosort0 in Hin. apply in_map_iff in Hin as [m [Em Hm]]. apply in_seq in Hm.
    rewrite <- Em, Nat2Z.id. rewrite Hl in Hm. lia. }
  assert (Hd : forall k, (k < length t)%nat ->
            r_date (g (nth k t 0)) = key (map r_date l) EmptyString t (Z.of_nat k)).
  { intros k Hk. unfold key, val, at_, g. rewrite Nat2Z.id.
    rewrite (nth_map_in _ _ _ r0) by (apply Ht; exact Hk). reflexivity. }
  unfold len in L. rewrite Hl in L.
  split.
  - apply sorted_nth with (d := r0). intros k Hk. rewrite length_map in Hk.
    rewrite !Hg by lia. unfold date_le. rewrite !Hd by lia.
    apply ltb_false_leb. apply Srt; lia.
  - rewrite <- (map_nth_tosort0 l (map r_date l) r0 Hl) at 1. fold g.
    apply Permutation_map. exact P.
Qed.

End NpSortProofs.

(* ================================================================== *)
(** ** Order of the written rows *)

Module SortProofs.
Import PyStr PyRandom PyDate Generator Ref.
Open Scope Z_scope.

(** C7 (refuted): ties are not kept in generation order.  Twenty rows
    over 2024-01-01..2024-01-02 from seed 42: the rows dated 2024-01-01 come
    out of [sort_values('Date')] (numpy's quicksort, which partitions runs
    longer than 16) in another order than the one they were generated in. *)
Lemma generate_data_ties_reordered :
  match generate_data lower_ascii NpSort.sort_values_date to_csv_ok "2024-01-01" "2024-01-02"
          20 ["A"] [("A", "X")] "out.csv" "general" (seed 42),
        gen_rows lower_ascii 20 (mkDate 2024 1 1) (mkDate 2024 1 2) ["A"] [("A", "X")]
          "general" (seed 42) with
  | Ret ds _, Ret rows _ =>
      filter (fun r => String.eqb (r_date r) "2024-01-01") ds <>
      filter (fun r => String.eqb (r_date r) "2024-01-01") rows
  | _, _ => False
  end.
Proof. vm_compute. intro H; discriminate H. Qed.

(** C7 as the code has it: the Dataset [generate_data] writes is
    [df.sort_values('Date')] (numpy's introsort of the [Date] strings) of
    the rows in generation order: it is ascending in the [Date] strings
    (zero-padded [YYYY-MM-DD] for the years 1000 .. 9999, see [strftime])
    and a permutation of the generated rows; the order of equal dates is
    the one the unstable sort leaves. *)
Theorem generate_data_sorted (str_lower : string -> string)
    (to_csv : string -> list record -> option exn)
    (start_date end_date : string) (row_count : Z) (products : list string)
    (product_mapping : list (string * string)) (output_file business_type : string)
    (s s' : state) (ds : list record) :
  generate_data str_lower NpSort.sort_values_date to_csv start_date end_date row_count
    products product_mapping output_file business_type s = Ret ds s' ->
  Sorted date_le ds /\
  exists sd ed rows,
    strptime start_date = Some sd /\ strptime end_date = Some ed /\
    dt_ge sd ed = false /\
    gen_rows str_lower (Z.to_nat row_count) sd ed products product_mapping
      business_type s = Ret rows s' /\
    Permutation rows ds.
Proof.
  unfold generate_data. intro H.
  destruct (strptime start_date) as [sd|]; [|discriminate H].
  destruct (strptime end_date) as [ed|]; [|discriminate H].
  destruct (dt_ge sd ed) eqn:G; [discriminate H|].
  unfold bind in H.
  destruct (gen_rows str_lower (Z.to_nat row_count) sd ed products product_mapping
              business_type s) as [rows s1|e s1|] eqn:E; try discriminate H.
  destruct rows as [|r rows]; [discriminate H|].
  destruct (to_csv output_file (NpSort.sort_values_date (r :: rows))); [discriminate H|].
  injection H as <- <-.
  destruct (NpSortProofs.sort_values_date_correct (r :: rows)) as [Hs Hp].
  split; [exact Hs|].
  exists sd, ed, (r :: rows).
  split; [reflexivity|]. split; [reflexivity|]. split; [exact G|].
  split; [exact E | exact Hp].
Qed.

Lemma generate_data_sorted_witness :
  exists ds s',
    generate_data lower_ascii NpSort.sort_values_date to_csv_ok "2024-01-01" "2024-01-02" 20
      ["A"] [("A", "X")] "out.csv" "general" (seed 42) = Ret ds s' /\
    Sorted date_le ds.
Proof.
  destruct (generate_data lower_ascii NpSort.sort_values_date to_csv_ok "2024-01-01" "2024-01-02"
              20 ["A"] [("A", "X")] "out.csv" "general" (seed 42)) as [ds s'|e s'|] eqn:E.
  - exists ds, s'. split; [reflexivity|].
    exact (proj1 (generate_data_sorted lower_ascii to_csv_ok _ _ _ _ _ _ _ _ _ _ E)).
  - vm_compute in E. discriminate E.
  - vm_compute in E. discriminate E.
Defined.

End SortProofs.

(* ================================================================== *)
(** ** Incomplete ranker input *)

Module RankerInputProofs.
Import PyDate Ranker Ref.
Open Scope Z_scope.

Lemma grouped_sums_kept (g : granularity) (ds : list (option date * in_row)) :
  grouped_sums g ds =
  fold_left (fun gs '(d, p, x) => add_to_group (period_key g d, p) x gs) (kept_rows ds) [].
Proof.
  unfold grouped_sums. generalize (@nil ((list Z * string) * Z)) as acc.
  induction ds as [|[od r] ds IH]; intro acc; [reflexivity|].
  unfold kept_rows in *. simpl.
  destruct od as [d|]; [|apply IH]. destruct (c_product r) as [p|]; [|apply IH].
  simpl. apply IH.
Qed.

(** C8 (refuted): rows with an empty cell do not fail the run.  A row with
    no date and a row with no product are left out of every group, and a
    row with no [Actuals] counts as 0; the run succeeds with the reports of
    the table cleaned that way. *)
Lemma incomplete_rows_not_fatal :
  match analyze_product_performance iso_to_datetime
          (mkTable ["Date"; "Product"; "Actuals"]
             [mkInRow (Some "2024-01-05") (Some "A") (Some 10);
              mkInRow None (Some "B") (Some 50);
              mkInRow (Some "2024-01-06") None (Some 70);
              mkInRow (Some "2024-01-07") (Some "C") None]) with
  | inr res =>
      inr res = analyze_product_performance iso_to_datetime
                  (mkTable ["Date"; "Product"; "Actuals"]
                     [mkInRow (Some "2024-01-05") (Some "A") (Some 10);
                      mkInRow (Some "2024-01-07") (Some "C") (Some 0)])
  | inl _ => False
  end.
Proof. vm_compute. reflexivity. Qed.

(** C8 as the code has it, whatever [pd.to_datetime] makes of the [Date]
    column: the run fails with [KeyError] when the [Date] column is missing;
    it fails with the exception [pd.to_datetime] raises, if it raises; when
    the column converts, a missing [Product] or [Actuals] column fails it
    with [KeyError]; otherwise the run succeeds, and each section's reports
    are computed from the kept rows only (those whose converted date is not
    NaT and whose [Product] is not empty, with an empty [Actuals] cell read
    as 0): the other rows are skipped without an error. *)
Theorem ranker_input_failures (conv : datetime_conv) (t : table) :
  (has_column t "Date" = false ->
   analyze_product_performance conv t = inl (KeyErr "Date")) /\
  (has_column t "Date" = true -> forall e, conv (map c_date (rows t)) = inl e ->
   analyze_product_performance conv t = inl e) /\
  (has_column t "Date" = true -> forall ods, conv (map c_date (rows t)) = inr ods ->
   (has_column t "Product" = false ->
    analyze_product_performance conv t = inl (KeyErr "Product")) /\
   (has_column t "Product" = true -> has_column t "Actuals" = false ->
    analyze_product_performance conv t = inl (KeyErr "Actuals")) /\
   (has_column t "Product" = true -> has_column t "Actuals" = true ->
    let kr := kept_rows (combine ods (rows t)) in
    analyze_product_performance conv t =
      inr (section_of Year kr, section_of Quarter kr, section_of Month kr))).
Proof.
  unfold analyze_product_performance, to_datetime. split; [|split].
  - intro Hd. rewrite Hd. reflexivity.
  - intros Hd e He. rewrite Hd, He. reflexivity.
  - intros Hd ods Ho. rewrite Hd, Ho. cbn [negb]. unfold rank_section.
    split; [|split].
    + intro HP. rewrite HP. reflexivity.
    + intros HP HA. rewrite HP, HA. reflexivity.
    + intros HP HA. rewrite HP, HA. cbn [negb]. unfold section_of.
      rewrite !grouped_sums_kept. reflexivity.
Qed.

Lemma ranker_input_failures_witness :
  let t := mkTable ["Date"; "Product"; "Actuals"]
             [mkInRow (Some "2024-01-05") (Some "A") (Some 10);
              mkInRow (Some "2024-01-06") None (Some 70);
              mkInRow None (Some "B") None] in
  has_column t "Date" = true /\
  iso_to_datetime (map c_date (rows t)) =
    inr [Some (mkDate 2024 1 5); Some (mkDate 2024 1 6); None] /\
  analyze_product_performance iso_to_datetime t =
    inr (section_of Year [(mkDate 2024 1 5, "A", 10)],
         section_of Quarter [(mkDate 2024 1 5, "A", 10)],
         section_of Month [(mkDate 2024 1 5, "A", 10)]).
Proof.
  intro t.
  assert (Hd : has_column t "Date" = true) by reflexivity.
  assert (Ho : iso_to_datetime (map c_date (rows t)) =
                 inr [Some (mkDate 2024 1 5); Some (mkDate 2024 1 6); None])
    by (vm_compute; reflexivity).
  split; [exact Hd|]. split; [exact Ho|].
  exact (proj2 (proj2 (proj2 (proj2 (ranker_input_failures iso_to_datetime t)) Hd _ Ho))
           eq_refl eq_refl).
Defined.

End RankerInputProofs.

(* ================================================================== *)
(** ** Proleptic Gregorian dates *)

Module DateProofs.
Import PyDate Ref.
Open Scope Z_scope.

Lemma all_from_spec f k r0 :
  all_from f k r0 = true -> forall r, r0 <= r < r0 + Z.of_nat k -> f r = true.
Proof.
  revert r0. induction k as [|k IH]; simpl; intros r0 H r Hr; [lia|].
  apply andb_true_iff in H as [H1 H2].
  destruct (Z.eq_dec r r0) as [->|Hne]; [exact H1|].
  apply (IH (r0 + 1)); [exact H2 | lia].
Qed.

Lemma ord_cycle : forall r, 0 <= r < CYCLE -> ord_ok r = true.
Proof.
  intros r Hr. apply (all_from_spec ord_ok (Z.to_nat CYCLE) 0); [|unfold CYCLE in *; lia].
  vm_compute. reflexivity.
Qed.

Lemma is_leap_shift y k : is_leap (y + 400 * k) = is_leap y.
Proof.
  unfold is_leap.
  replace ((y + 400 * k) mod 4) with (y mod 4) by (Z.div_mod_to_equations; lia).
  replace ((y + 400 * k) mod 100) with (y mod 100) by (Z.div_mod_to_equations; lia).
  replace ((y + 400 * k) mod 400) with (y mod 400) by (Z.div_mod_to_equations; lia).
  reflexivity.
Qed.

Lemma days_in_month_shift y k m : days_in_month (y + 400 * k) m = days_in_month y m.
Proof. unfold days_in_month. rewrite is_leap_shift. reflexivity. Qed.

Lemma days_before_year_shift y k :
  days_before_year (y + 400 * k) = days_before_year y + CYCLE * k.
Proof. unfold days_before_year, CYCLE. Z.div_mod_to_equations. lia. Qed.

Lemma toordinal_shift y m d k :
  toordinal (mkDate (y + 400 * k) m d) = toordinal (mkDate y m d) + CYCLE * k.
Proof.
  unfold toordinal, days_before_month. cbn [year month day].
  rewrite days_before_year_shift, is_leap_shift. lia.
Qed.

Lemma fromordinal_shift n :
  fromordinal n =
  let d := fromordinal ((n - 1) mod CYCLE + 1) in
  mkDate (year d + 400 * ((n - 1) / CYCLE)) (month d) (day d).
Proof.
  unfold fromordinal, CYCLE. cbv zeta.
  replace ((n - 1) mod 146097 + 1 - 1) with ((n - 1) mod 146097) by ring.
  rewrite Z.mod_mod by lia.
  rewrite (Z.div_small ((n - 1) mod 146097) 146097) by (apply Z.mod_pos_bound; lia).
  set (r := (n - 1) mod 146097). set (q := (n - 1) / 146097).
  match goal with |- (if ?c then _ else _) = _ => destruct c end;
    [cbv beta iota; cbn [year month day]; f_equal; ring|].
  match goal with |- (match (if ?c then _ else _) with _ => _ end) = _ => destruct c end;
    cbv beta iota; cbn [year month day]; f_equal; ring.
Qed.

Lemma valid_dateb_spec d : valid_dateb d = true -> valid_date d.
Proof.
  unfold valid_dateb, valid_date. intro H.
  repeat match goal with H : _ && _ = true |- _ => apply andb_true_iff in H as [? ?] end.
  repeat match goal with H : (_ <=? _) = true |- _ => apply Z.leb_le in H end.
  lia.
Qed.

Lemma ord_cycle_mod n :
  let d := fromordinal ((n - 1) mod CYCLE + 1) in
  toordinal d = (n - 1) mod CYCLE + 1 /\ valid_date d.
Proof.
  cbv zeta. pose proof (ord_cycle ((n - 1) mod CYCLE)) as H.
  unfold ord_ok in H. cbv zeta in H.
  specialize (H ltac:(unfold CYCLE; apply Z.mod_pos_bound; lia)).
  apply andb_true_iff in H as [H1 H2].
  split; [apply Z.eqb_eq, H1 | apply valid_dateb_spec, H2].
Qed.

Lemma ord_roundtrip n : toordinal (fromordinal n) = n /\ valid_date (fromordinal n).
Proof.
  destruct (ord_cycle_mod n) as [H1 H2]. cbv zeta in H1, H2.
  rewrite fromordinal_shift. cbv zeta.
  destruct (fromordinal ((n - 1) mod CYCLE + 1)) as [y m d].
  unfold valid_date in *. cbn [year month day] in *.
  rewrite toordinal_shift, H1, days_in_month_shift. split; [|exact H2].
  pose proof (Z.div_mod (n - 1) CYCLE). unfold CYCLE in *. lia.
Qed.

(** [date.fromordinal] and [date.toordinal] are inverse: every ordinal
    [n] converts to a date that converts back to [n]. *)
Theorem toordinal_fromordinal n : toordinal (fromordinal n) = n.
Proof. exact (proj1 (ord_roundtrip n)). Qed.

(** Every ordinal converts to a real calendar date: a month in 1..12 and
    a day between 1 and the length of that month in that year. *)
Theorem fromordinal_valid n : valid_date (fromordinal n).
Proof. exact (proj2 (ord_roundtrip n)). Qed.

(** Case split of a bounded integer [x] (hypothesis [H : lo <= x <= hi]
    with literal bounds) into one goal per value. *)
Ltac zcases x H :=
  lazymatch type of H with
  | ?lo <= x <= ?hi =>
      lazymatch eval vm_compute in (Z.ltb lo hi) with
      | false => assert (x = lo) as -> by lia; clear H
      | true =>
          let lo' := eval vm_compute in (Z.add lo 1) in
          let Hne := fresh "Hne" in
          let H' := fresh "Hr" in
          destruct (Z.eq_dec x lo) as [->|Hne];
          [clear H | assert (lo' <= x <= hi) as H' by lia; clear H Hne; zcases x H']
      end
  end.

Lemma days_in_month_bounds y m : 28 <= days_in_month y m <= 31.
Proof.
  unfold days_in_month.
  repeat match goal with |- context [match ?x with _ => _ end] => destruct x end; lia.
Qed.

Lemma digit_char_ok k : 0 <= k < 10 -> digit (digit_char k) = Some k.
Proof.
  intro H. assert (Hk : 0 <= k <= 9) by lia. clear H.
  zcases k Hk; reflexivity.
Qed.

Lemma re_year_pad y r :
  0 <= y < 10000 -> re_year (pad_digits 4 y EmptyString ++ r) = Some (y, r).
Proof.
  intro Hy. cbn [pad_digits append]. unfold re_year.
  rewrite !digit_char_ok by (apply Z.mod_pos_bound; lia).
  f_equal. f_equal. Z.div_mod_to_equations. lia.
Qed.

Lemma strptime_strftime_ok d :
  valid_date d -> 1000 <= year d <= 9999 -> strptime (strftime d) = Some d.
Proof.
  destruct d as [y m dd]. unfold valid_date, strftime. cbn [year month day].
  intros [Hm Hd] Hy.
  assert (Hw : year_width y = 4%nat)
    by (unfold year_width; rewrite (proj2 (Z.ltb_ge y 10)), (proj2 (Z.ltb_ge y 100)),
          (proj2 (Z.ltb_ge y 1000)) by lia; reflexivity).
  rewrite Hw.
  assert (Hd31 : 1 <= dd <= 31)
    by (pose proof (days_in_month_bounds y m); lia).
  unfold strptime. rewrite re_year_pad by lia.
  replace (1 <=? y) with true by (symmetry; apply Z.leb_le; lia).
  remember (days_in_month y) as dim eqn:Edim.
  zcases m Hm; zcases dd Hd31;
    first [ exfalso; subst dim; unfold days_in_month in Hd;
            destruct (is_leap y); lia
          | pose proof (proj2 (Z.leb_le _ _) (proj2 Hd)) as Hc;
            vm_compute; vm_compute in Hc; rewrite Hc; reflexivity ].
Qed.

(** [strptime(strftime(d), '%Y-%m-%d')] gives back [d] for every valid
    date with a four-digit year. *)
Theorem strptime_strftime d :
  valid_date d -> 1000 <= year d <= 9999 -> strptime (strftime d) = Some d.
Proof. exact (strptime_strftime_ok d). Qed.

Ltac bool_facts :=
  repeat match goal with
  | H : _ && _ = true |- _ => apply andb_true_iff in H as [? ?]
  | H : _ || _ = true |- _ => apply orb_true_iff in H as [? | ?]
  | H : (_ <=? _) = true |- _ => apply Z.leb_le in H
  | H : (_ <=? _) = false |- _ => apply Z.leb_gt in H
  | H : (_ =? _) = true |- _ => apply Z.eqb_eq in H
  end.

Lemma digit_range c k : digit c = Some k -> 0 <= k <= 9.
Proof.
  unfold digit. destruct (_ && _) eqn:E; intro H; inversion H; subst.
  bool_facts. lia.
Qed.

Lemma two_digits_range s a b r :
  two_digits s = Some (a, b, r) -> 0 <= a <= 9 /\ 0 <= b <= 9.
Proof.
  unfold two_digits. destruct s as [|c1 [|c2 r']]; try discriminate.
  destruct (digit c1) eqn:E1, (digit c2) eqn:E2; intro H; inversion H; subst.
  split; eapply digit_range; eassumption.
Qed.

Lemma one_digit_range s a r : one_digit s = Some (a, r) -> 0 <= a <= 9.
Proof.
  unfold one_digit. destruct s as [|c r']; try discriminate.
  destruct (digit c) eqn:E; intro H; inversion H; subst.
  eapply digit_range; eassumption.
Qed.

Lemma re_year_range s y r : re_year s = Some (y, r) -> 0 <= y <= 9999.
Proof.
  unfold re_year. destruct s as [|a [|b [|c [|d r']]]]; try discriminate.
  destruct (digit a) eqn:Ea, (digit b) eqn:Eb, (digit c) eqn:Ec, (digit d) eqn:Ed;
    intro H; inversion H; subst.
  apply digit_range in Ea, Eb, Ec, Ed. lia.
Qed.

Ltac crush_in :=
  repeat match goal with
  | H : In _ (match ?x with _ => _ end) |- _ => destruct x eqn:?
  | H : In _ [] |- _ => destruct H
  | H : In _ [_] |- _ => destruct H as [H|[]]
  | H : (_, _) = (_, _) |- _ => injection H as ? ?; subst
  end.

Lemma re_month_range s m r : In (m, r) (re_month s) -> 1 <= m <= 12.
Proof.
  unfold re_month. rewrite !in_app_iff. intros [H|[H|H]].
  - destruct (two_digits s) as [[[a b] r']|] eqn:E; [|destruct H].
    apply two_digits_range in E. remember (10 + b) as t eqn:Et.
    crush_in; bool_facts; lia.
  - destruct (two_digits s) as [[[a b] r']|] eqn:E; [|destruct H].
    apply two_digits_range in E. crush_in; bool_facts; lia.
  - destruct (one_digit s) as [[a r']|] eqn:E; [|destruct H].
    apply one_digit_range in E. crush_in; bool_facts; lia.
Qed.

Lemma re_day_pos s d r : In (d, r) (re_day s) -> 1 <= d.
Proof.
  unfold re_day. rewrite !in_app_iff. intros [H|[H|[H|[H|H]]]].
  1-3: destruct (two_digits s) as [[[a b] r']|] eqn:E; [|destruct H];
       apply two_digits_range in E;
       try remember (30 + b) as t eqn:Et; try remember (a * 10 + b) as t eqn:Et;
       crush_in; bool_facts; lia.
  - destruct (one_digit s) as [[a r']|] eqn:E; [|destruct H].
    apply one_digit_range in E. crush_in; bool_facts; lia.
  - destruct s as [|c s']; [destruct H|].
    crush_in; try match goal with E : one_digit _ = Some _ |- _ =>
      apply one_digit_range in E end; bool_facts; lia.
Qed.

Lemma strptime_ok s d :
  strptime s = Some d -> valid_date d /\ 1 <= year d <= 9999.
Proof.
  unfold strptime.
  destruct (re_year s) as [[y r1]|] eqn:E1; [|discriminate].
  apply re_year_range in E1.
  destruct (after_dash r1) as [r2|]; [|discriminate].
  cbv beta zeta.
  generalize (re_month_range r2). generalize (re_month r2) as ms.
  induction ms as [|[m0 mr] ms IH]; intros Hms; [discriminate|].
  cbv beta iota fix.
  assert (Hnext : (forall m1 r1', In (m1, r1') ms -> 1 <= m1 <= 12))
    by (intros m1 r1' Hin; apply (Hms m1 r1'); right; exact Hin).
  specialize (Hms m0 mr (or_introl eq_refl)).
  destruct (after_dash mr) as [r3|]; [|exact (IH Hnext)].
  destruct (re_day r3) as [|[dd r4] l] eqn:Er; [exact (IH Hnext)|].
  destruct r4; [|discriminate].
  destruct ((1 <=? y) && (dd <=? days_in_month y m0)) eqn:Ec; [|discriminate].
  intro H; injection H as <-. bool_facts.
  assert (1 <= dd) by (eapply re_day_pos; rewrite Er; left; reflexivity).
  unfold valid_date. cbn [year month day]. lia.
Qed.

(** Whatever [strptime(s, '%Y-%m-%d')] accepts is a real calendar date
    with a year between 1 and 9999. *)
Theorem strptime_valid s d :
  strptime s = Some d -> valid_date d /\ 1 <= year d <= 9999.
Proof. exact (strptime_ok s d). Qed.

Lemma strptime_strftime_witness :
  valid_date (mkDate 2024 2 29) /\
  strptime (strftime (mkDate 2024 2 29)) = Some (mkDate 2024 2 29).
Proof.
  assert (H : valid_date (mkDate 2024 2 29))
    by (apply valid_dateb_spec; vm_compute; reflexivity).
  split; [exact H|]. apply strptime_strftime; [exact H | cbn; lia].
Defined.

Lemma strptime_valid_witness :
  strptime "2024-02-29" = Some (mkDate 2024 2 29) /\
  (valid_date (mkDate 2024 2 29) /\ 1 <= year (mkDate 2024 2 29) <= 9999).
Proof.
  split; [vm_compute; reflexivity|].
  apply (strptime_valid "2024-02-29"). vm_compute. reflexivity.
Defined.

Ltac dbm_eval :=
  repeat match goal with
  | |- context [DAYS_BEFORE_MONTH ?k] =>
      let v := eval vm_compute in (DAYS_BEFORE_MONTH k) in
      change (DAYS_BEFORE_MONTH k) with v
  | |- context [Z.ltb ?a ?b] =>
      let v := eval vm_compute in (Z.ltb a b) in change (Z.ltb a b) with v
  end; cbv beta iota delta [andb] in *.

Lemma div_step y k : 0 < k -> y / k - (y - 1) / k = if y mod k =? 0 then 1 else 0.
Proof.
  intro Hk. destruct (Z.eqb_spec (y mod k) 0) as [E|E];
    Z.div_mod_to_equations; nia.
Qed.

Lemma days_before_year_succ y :
  days_before_year (y + 1) = days_before_year y + 365 + (if is_leap y then 1 else 0).
Proof.
  unfold days_before_year, is_leap.
  replace (y + 1 - 1) with y by ring.
  pose proof (div_step y 4 ltac:(lia)). pose proof (div_step y 100 ltac:(lia)).
  pose proof (div_step y 400 ltac:(lia)).
  destruct (y mod 4 =? 0) eqn:E4, (y mod 100 =? 0) eqn:E100, (y mod 400 =? 0) eqn:E400;
    cbn [andb orb negb]; try lia.
  all: rewrite ?Z.eqb_eq, ?Z.eqb_neq in *; Z.div_mod_to_equations; lia.
Qed.

Lemma days_before_year_mono y1 y2 :
  y1 <= y2 -> days_before_year y1 <= days_before_year y2.
Proof.
  intro H. replace y2 with (y1 + Z.of_nat (Z.to_nat (y2 - y1))) by lia.
  induction (Z.to_nat (y2 - y1)) as [|k IH]; [rewrite Z.add_0_r; lia|].
  rewrite Nat2Z.inj_succ, Z.add_succ_r, <- Z.add_1_r, days_before_year_succ.
  destruct (is_leap (y1 + Z.of_nat k)); lia.
Qed.

Lemma day_of_year d :
  valid_date d ->
  1 <= days_before_month (year d) (month d) + day d
    <= 365 + (if is_leap (year d) then 1 else 0).
Proof.
  destruct d as [y m dd]. unfold valid_date. cbn [year month day]. intros [Hm Hd].
  zcases m Hm; unfold days_before_month, days_in_month in *; dbm_eval;
    destruct (is_leap y); cbv beta iota delta [andb] in *; lia.
Qed.

Lemma month_order y m1 d1 m2 d2 :
  valid_date (mkDate y m1 d1) -> valid_date (mkDate y m2 d2) -> m1 < m2 ->
  days_before_month y m1 + d1 < days_before_month y m2 + d2.
Proof.
  unfold valid_date. cbn [year month day]. intros [Hm1 Hd1] [Hm2 Hd2] Hlt.
  zcases m1 Hm1; zcases m2 Hm2; try lia;
    unfold days_before_month, days_in_month in *; dbm_eval;
    destruct (is_leap y); cbv beta iota delta [andb] in *; lia.
Qed.

Lemma dt_ge_false_lt a b :
  valid_date a -> valid_date b -> dt_ge a b = false -> toordinal a < toordinal b.
Proof.
  intros Ha Hb. destruct a as [ya ma da], b as [yb mb db].
  unfold dt_ge, toordinal. cbn [year month day].
  intro H. apply orb_false_iff in H as [H1 H2]. apply Z.ltb_ge in H1.
  destruct (Z.eq_dec ya yb) as [<-|Hy].
  - rewrite Z.eqb_refl in H2. cbn [andb] in H2.
    apply orb_false_iff in H2 as [H3 H4]. apply Z.ltb_ge in H3.
    destruct (Z.eq_dec ma mb) as [<-|Hm].
    + rewrite Z.eqb_refl in H4. cbn [andb] in H4. apply Z.leb_gt in H4. lia.
    + pose proof (month_order ya ma da mb db Ha Hb ltac:(lia)). lia.
  - pose proof (day_of_year _ Ha) as Ea. pose proof (day_of_year _ Hb) as Eb.
    cbn [year month day] in Ea, Eb.
    pose proof (days_before_year_succ ya).
    pose proof (days_before_year_mono (ya + 1) yb ltac:(lia)).
    destruct (is_leap ya); lia.
Qed.

Lemma dt_ge_true_cases a b :
  dt_ge a b = true -> a = b \/ dt_ge b a = false.
Proof.
  destruct a as [ya ma da], b as [yb mb db]. unfold dt_ge. cbn [year month day].
  intro H.
  destruct (Z.ltb_spec yb ya); [right; apply orb_false_iff; split;
    [apply Z.ltb_ge; lia | rewrite (proj2 (Z.eqb_neq yb ya)) by lia; reflexivity]|].
  destruct (Z.eqb_spec ya yb) as [<-|]; [|discriminate H].
  cbn [orb andb] in H. rewrite Z.ltb_irrefl, Z.eqb_refl. cbn [orb andb].
  destruct (Z.ltb_spec mb ma); [right; apply orb_false_iff; split;
    [apply Z.ltb_ge; lia | rewrite (proj2 (Z.eqb_neq mb ma)) by lia; reflexivity]|].
  destruct (Z.eqb_spec ma mb) as [<-|]; [|discriminate H].
  cbn [orb andb] in H. apply Z.leb_le in H. rewrite Z.ltb_irrefl, Z.eqb_refl.
  cbn [orb andb].
  destruct (Z.eq_dec da db) as [<-|]; [left; reflexivity|].
  right. apply Z.leb_gt. lia.
Qed.

(** On valid dates, [dt_ge] (Python's [>=] on the datetimes [strptime]
    returns) is the order of the ordinals. *)
Theorem dt_ge_toordinal a b :
  valid_date a -> valid_date b -> dt_ge a b = (toordinal b <=? toordinal a).
Proof.
  intros Ha Hb. destruct (dt_ge a b) eqn:E.
  - symmetry. apply Z.leb_le. destruct (dt_ge_true_cases a b E) as [<-|E'];
      [lia | pose proof (dt_ge_false_lt b a Hb Ha E'); lia].
  - symmetry. apply Z.leb_gt. exact (dt_ge_false_lt a b Ha Hb E).
Qed.

Lemma dt_ge_toordinal_witness :
  (valid_date (mkDate 2024 1 31) /\ valid_date (mkDate 2024 2 1)) /\
  dt_ge (mkDate 2024 1 31) (mkDate 2024 2 1) =
    (toordinal (mkDate 2024 2 1) <=? toordinal (mkDate 2024 1 31)).
Proof.
  assert (Ha : valid_date (mkDate 2024 1 31))
    by (apply valid_dateb_spec; vm_compute; reflexivity).
  assert (Hb : valid_date (mkDate 2024 2 1))
    by (apply valid_dateb_spec; vm_compute; reflexivity).
  split; [split; assumption|]. exact (dt_ge_toordinal _ _ Ha Hb).
Defined.

End DateProofs.

(* ================================================================== *)
(** ** Invariants of the generated rows *)

Module RecordProofs.
Import PyStr PyRandom PyDate Generator Ref RandomProofs BudgetProofs SynthProofs DateProofs.
Open Scope Z_scope.

Lemma ok_randint a b : ok (randint a b) (fun r => a <= r <= b).
Proof.
  destruct (Z_le_gt_dec a b) as [Hab|Hab]; [apply ok_of_safe, randint_safe, Hab|].
  unfold randint, randrange.
  replace (0 <? b + 1 - a) with false by (symmetry; apply Z.ltb_ge; lia).
  apply ok_raise.
Qed.

Lemma ok_choice {A} (d : A) (seq : list A) : ok (choice d seq) (fun x => In x seq).
Proof.
  destruct seq as [|x l]; [apply ok_raise|].
  apply ok_of_safe, choice_safe. discriminate.
Qed.

Lemma Qle_of_Z a b : a <= b -> (inject_Z a <= inject_Z b)%Q.
Proof. rewrite Zle_Qle. exact (fun H => H). Qed.

Lemma py_int_nonneg x : (0 <= x)%Q -> py_int x = Qfloor x.
Proof. intro H. unfold py_int. rewrite (proj2 (Qle_bool_iff _ _) H). reflexivity. Qed.

Lemma py_int_range (lo hi : Z) (x : Q) :
  0 <= lo -> (inject_Z lo <= x)%Q -> (x <= inject_Z hi)%Q -> lo <= py_int x <= hi.
Proof.
  intros H0 H1 H2.
  assert (Hx : (0 <= x)%Q) by (apply Qle_trans with (inject_Z lo); [apply (Qle_of_Z 0) | ]; assumption).
  rewrite py_int_nonneg by exact Hx. split.
  - rewrite <- (Qfloor_Z lo). apply Qfloor_resp_le. exact H1.
  - rewrite <- (Qfloor_Z hi). apply Qfloor_resp_le. exact H2.
Qed.

Lemma py_int_mono x y : (0 <= x)%Q -> (x <= y)%Q -> py_int x <= py_int y.
Proof.
  intros Hx Hxy. rewrite !py_int_nonneg by lra. apply Qfloor_resp_le. exact Hxy.
Qed.

Lemma base_range_bounds k lo hi :
  dict_find base_ranges k = Some (lo, hi) -> 5000 <= lo /\ lo <= hi /\ hi <= 200000.
Proof.
  unfold dict_find. destruct (find _ base_ranges) as [[k' [l h]]|] eqn:E;
    [|discriminate].
  intro H. injection H as <- <-. apply find_some in E. destruct E as [Hin _].
  simpl in Hin.
  repeat (destruct Hin as [Hin|Hin]; [injection Hin as _ <- <-; lia|]).
  contradiction.
Qed.

Lemma generate_budget_range str_lower product category st channel business_type :
  ok (_generate_budget str_lower product category st channel business_type)
     (fun b => 3000 <= b <= 392000).
Proof.
  unfold _generate_budget.
  destruct (dict_find base_ranges (business_key_of str_lower business_type))
    as [[lo hi]|] eqn:Hk; [|apply ok_raise].
  pose proof (base_range_bounds _ _ _ Hk) as Hlh.
  apply ok_bind with (P := fun base => lo <= base <= hi); [apply ok_randint|].
  intros base Hb.
  apply ok_bind with (P := fun bb => 5000 <= bb <= 280000).
  { destruct (existsb (String.eqb st) major_states).
    - draw_uniform (11 # 10) (14 # 10). intros f Hf. apply ok_ret.
      assert (Hq : (5000 <= inject_Z base <= 200000)%Q)
        by (split; [apply (Qle_of_Z 5000) | apply (Qle_of_Z _ 200000)]; lia).
      apply py_int_range; [lia | change (inject_Z 5000) with (5000 # 1) | 
                                 change (inject_Z 280000) with (280000 # 1)]; nra.
    - apply ok_ret. lia. }
  intros bb Hbb.
  draw_uniform (8 # 10) (12 # 10). intros o Ho.
  draw_uniform (9 # 10) (11 # 10). intros r Hr.
  draw_uniform (11 # 10) (14 # 10). intros d Hd.
  draw_uniform (7 # 10) (10 # 10). intros p Hp.
  draw_uniform (6 # 10) (9 # 10). intros w Hw.
  destruct (dict_find _ channel) as [c|] eqn:Hc; [|apply ok_raise].
  apply ok_ret. apply dict_find_val in Hc.
  assert (Hcq : (6 # 10 <= c <= 14 # 10)%Q)
    by (simpl in Hc; destruct Hc as [<-|[<-|[<-|[<-|[<-|[]]]]]]; lra).
  assert (Hq : (5000 <= inject_Z bb <= 280000)%Q)
    by (split; [apply (Qle_of_Z 5000) | apply (Qle_of_Z _ 280000)]; lia).
  apply py_int_range; [lia | change (inject_Z 3000) with (3000 # 1) |
                             change (inject_Z 392000) with (392000 # 1)]; nra.
Qed.

Lemma generate_actuals_range b :
  0 <= b ->
  ok (_generate_actuals b)
     (fun a => py_int (inject_Z b * (75 # 100)) <= a <= py_int (inject_Z b * (14 # 10))).
Proof.
  intro Hb. unfold _generate_actuals.
  draw_uniform (75 # 100) (14 # 10). intros v Hv. apply ok_ret.
  assert (Hq : (0 <= inject_Z b)%Q) by (apply (Qle_of_Z 0); exact Hb).
  split; apply py_int_mono; nra.
Qed.

Lemma synth_record_ok str_lower start_dt end_dt products product_mapping business_type :
  ok (synth_record str_lower start_dt end_dt products product_mapping business_type)
     (record_ok start_dt end_dt products).
Proof.
  unfold synth_record. cbv zeta.
  apply ok_bind with (P := fun rd => 0 <= rd <= toordinal end_dt - toordinal start_dt);
    [apply ok_randint | intros rd Hrd].
  apply ok_bind with (P := fun st => In st (map fst STATES_CITIES));
    [apply ok_choice | intros st Hst].
  destruct (cities_nonempty st Hst) as [cs [Hcs _]]. rewrite Hcs.
  apply ok_bind with (P := fun city => In city cs); [apply ok_choice | intros city Hcity].
  apply ok_bind with (P := fun p => In p products); [apply ok_choice | intros product Hp].
  apply ok_bind with (P := fun c => In c CHANNELS); [apply ok_choice | intros ch Hch].
  apply ok_bind with (P := fun b => 3000 <= b <= 392000);
    [apply generate_budget_range | intros budget Hb].
  apply ok_bind with (P := fun a => py_int (inject_Z budget * (75 # 100)) <= a <=
                                    py_int (inject_Z budget * (14 # 10)));
    [apply generate_actuals_range; lia | intros actuals Ha].
  apply ok_ret. unfold record_ok. cbn [r_date r_state r_city r_product r_channel r_budget r_actuals].
  split; [|split; [exists cs; split; assumption|]].
  - exists (fromordinal (toordinal start_dt + rd)). split; [reflexivity|].
    destruct (ord_roundtrip (toordinal start_dt + rd)) as [E V].
    split; [exact V|]. rewrite E. lia.
  - split; [exact Hp|]. split; [exact Hch|]. split; assumption.
Qed.

Lemma gen_rows_ok str_lower n start_dt end_dt products product_mapping business_type :
  ok (gen_rows str_lower n start_dt end_dt products product_mapping business_type)
     (Forall (record_ok start_dt end_dt products)).
Proof.
  induction n as [|n IH]; cbn [gen_rows]; [apply ok_ret; constructor|].
  apply ok_bind with (P := record_ok start_dt end_dt products);
    [apply synth_record_ok | intros r Hr].
  apply ok_bind with (P := Forall (record_ok start_dt end_dt products));
    [exact IH | intros rs Hrs].
  apply ok_ret. constructor; assumption.
Qed.

Lemma sort_values_date_in l r : In r (NpSort.sort_values_date l) -> In r l.
Proof.
  unfold NpSort.sort_values_date. destruct l as [|r0 l']; [contradiction|].
  intro H. apply in_map_iff in H. destruct H as [i [<- _]].
  destruct (nth_in_or_default (Z.to_nat i) (r0 :: l') r0) as [Hin|Hd];
    [exact Hin | rewrite Hd; left; reflexivity].
Qed.

(** A record [synth_record] returns is dated with the [strftime] of a real
    calendar date whose ordinal lies between those of [start_dt] and
    [end_dt]. *)
Theorem synth_record_date_in_range str_lower start_dt end_dt products product_mapping
    business_type s r s' :
  wf s ->
  synth_record str_lower start_dt end_dt products product_mapping business_type s
    = Ret r s' ->
  exists d, r_date r = strftime d /\ valid_date d /\
            toordinal start_dt <= toordinal d <= toordinal end_dt.
Proof.
  intros Hs H.
  exact (proj1 (proj1 (synth_record_ok str_lower start_dt end_dt products product_mapping
                         business_type s r s' Hs H))).
Qed.

(** A record [synth_record] returns has a state of [states_cities], a city
    listed for that state, and one of the five channels. *)
Theorem synth_record_location str_lower start_dt end_dt products product_mapping
    business_type s r s' :
  wf s ->
  synth_record str_lower start_dt end_dt products product_mapping business_type s
    = Ret r s' ->
  (exists cs, dict_find STATES_CITIES (r_state r) = Some cs /\ In (r_city r) cs) /\
  In (r_channel r) CHANNELS.
Proof.
  intros Hs H.
  destruct (synth_record_ok str_lower start_dt end_dt products product_mapping
              business_type s r s' Hs H) as [[_ [Hl [_ [Hc _]]]] _].
  split; assumption.
Qed.

(** A budget [_generate_budget] returns lies in [3000 .. 392000]: the
    smallest base (5000) times the smallest channel factor (0.6), and the
    largest base (200000) times the largest major-state (1.4) and channel
    (1.4) factors. *)
Theorem generate_budget_bounds str_lower product category st channel business_type
    s b s' :
  wf s ->
  _generate_budget str_lower product category st channel business_type s = Ret b s' ->
  3000 <= b <= 392000.
Proof.
  intros Hs H.
  exact (proj1 (generate_budget_range str_lower product category st channel
                  business_type s b s' Hs H)).
Qed.

(** For a non-negative budget, the actuals [_generate_actuals] returns lie
    between the truncations of [0.75 * budget] and [1.4 * budget]. *)
Theorem generate_actuals_bounds b s a s' :
  wf s -> 0 <= b -> _generate_actuals b s = Ret a s' ->
  py_int (inject_Z b * (75 # 100)) <= a <= py_int (inject_Z b * (14 # 10)).
Proof.
  intros Hs Hb H. exact (proj1 (generate_actuals_range b Hb s a s' Hs H)).
Qed.

(** Every row [generate_data] writes satisfies [record_ok]. *)
Theorem generate_data_rows_ok str_lower to_csv start_date end_date row_count products
    product_mapping output_file business_type s ds s' :
  wf s ->
  generate_data str_lower NpSort.sort_values_date to_csv start_date end_date row_count
    products product_mapping output_file business_type s = Ret ds s' ->
  exists sd ed : date, strptime start_date = Some sd /\ strptime end_date = Some ed /\
    Forall (record_ok sd ed products) ds.
Proof.
  intros Hs H. unfold generate_data in H.
  destruct (strptime start_date) as [sd|]; [|discriminate H].
  destruct (strptime end_date) as [ed|]; [|discriminate H].
  exists sd, ed. split; [reflexivity|]. split; [reflexivity|].
  destruct (dt_ge sd ed); [discriminate H|].
  unfold bind in H.
  destruct (gen_rows str_lower (Z.to_nat row_count) sd ed products product_mapping
              business_type s) as [rows s1|e s1|] eqn:E; try discriminate H.
  pose proof (gen_rows_ok str_lower (Z.to_nat row_count) sd ed products product_mapping
                business_type s rows s1 Hs E) as [Hrows _].
  destruct rows as [|r rows]; [discriminate H|].
  destruct (to_csv output_file (NpSort.sort_values_date (r :: rows))); [discriminate H|].
  injection H as <- <-.
  apply Forall_forall. intros x Hx. apply (sort_values_date_in (r :: rows)) in Hx.
  rewrite Forall_forall in Hrows. exact (Hrows x Hx).
Qed.

Lemma synth_record_date_in_range_witness :
  wf (seed 42) /\
  match synth_record lower_ascii (mkDate 2024 1 1) (mkDate 2024 1 31) ["A"] [("A", "X")]
          "general" (seed 42) with
  | Ret r _ => exists d, r_date r = strftime d /\ valid_date d /\
                 toordinal (mkDate 2024 1 1) <= toordinal d <= toordinal (mkDate 2024 1 31)
  | _ => False
  end.
Proof.
  assert (Hs : wf (seed 42)) by (apply wfb_wf; vm_compute; reflexivity).
  split; [exact Hs|].
  destruct (synth_record lower_ascii (mkDate 2024 1 1) (mkDate 2024 1 31) ["A"]
              [("A", "X")] "general" (seed 42)) as [r s'|e s'|] eqn:E.
  - exact (synth_record_date_in_range _ _ _ _ _ _ _ r s' Hs E).
  - vm_compute in E. discriminate E.
  - vm_compute in E. discriminate E.
Defined.

Lemma synth_record_location_witness :
  wf (seed 42) /\
  match synth_record lower_ascii (mkDate 2024 1 1) (mkDate 2024 1 31) ["A"] [("A", "X")]
          "general" (seed 42) with
  | Ret r _ =>
      (exists cs, dict_find STATES_CITIES (r_state r) = Some cs /\ In (r_city r) cs) /\
      In (r_channel r) CHANNELS
  | _ => False
  end.
Proof.
  assert (Hs : wf (seed 42)) by (apply wfb_wf; vm_compute; reflexivity).
  split; [exact Hs|].
  destruct (synth_record lower_ascii (mkDate 2024 1 1) (mkDate 2024 1 31) ["A"]
              [("A", "X")] "general" (seed 42)) as [r s'|e s'|] eqn:E.
  - exact (synth_record_location _ _ _ _ _ _ _ r s' Hs E).
  - vm_compute in E. discriminate E.
  - vm_compute in E. discriminate E.
Defined.

Lemma generate_budget_bounds_witness :
  wf (seed 42) /\
  match _generate_budget lower_ascii "A" "X" "California" "Retail" "tech" (seed 42) with
  | Ret b _ => 3000 <= b <= 392000
  | _ => False
  end.
Proof.
  assert (Hs : wf (seed 42)) by (apply wfb_wf; vm_compute; reflexivity).
  split; [exact Hs|].
  destruct (_generate_budget lower_ascii "A" "X" "California" "Retail" "tech" (seed 42))
    as [b s'|e s'|] eqn:E.
  - exact (generate_budget_bounds _ _ _ _ _ _ _ b s' Hs E).
  - vm_compute in E. discriminate E.
  - vm_compute in E. discriminate E.
Defined.

Lemma generate_actuals_bounds_witness :
  wf (seed 42) /\
  match _generate_actuals 10000 (seed 42) with
  | Ret a _ => py_int (inject_Z 10000 * (75 # 100)) <= a <= py_int (inject_Z 10000 * (14 # 10))
  | _ => False
  end.
Proof.
  assert (Hs : wf (seed 42)) by (apply wfb_wf; vm_compute; reflexivity).
  split; [exact Hs|].
  destruct (_generate_actuals 10000 (seed 42)) as [a s'|e s'|] eqn:E.
  - exact (generate_actuals_bounds 10000 (seed 42) a s' Hs ltac:(lia) E).
  - vm_compute in E. discriminate E.
  - vm_compute in E. discriminate E.
Defined.

Lemma generate_data_rows_ok_witness :
  wf (seed 42) /\
  match generate_data lower_ascii NpSort.sort_values_date to_csv_ok "2024-01-01" "2024-01-31" 3
          ["A"; "B"] [("A", "X")] "out.csv" "general" (seed 42) with
  | Ret ds _ => exists sd ed : date, strptime "2024-01-01" = Some sd /\
                  strptime "2024-01-31" = Some ed /\ Forall (record_ok sd ed ["A"; "B"]) ds
  | _ => False
  end.
Proof.
  assert (Hs : wf (seed 42)) by (apply wfb_wf; vm_compute; reflexivity).
  split; [exact Hs|].
  destruct (generate_data lower_ascii NpSort.sort_values_date to_csv_ok "2024-01-01" "2024-01-31" 3
              ["A"; "B"] [("A", "X")] "out.csv" "general" (seed 42)) as [ds s'|e s'|] eqn:E.
  - exact (generate_data_rows_ok _ _ _ _ _ _ _ _ _ _ ds s' Hs E).
  - vm_compute in E. discriminate E.
  - vm_compute in E. discriminate E.
Defined.

End RecordProofs.

(* ================================================================== *)
(** ** Errors and edge cases of [generate_data] *)

Module EdgeProofs.
Import PyStr PyRandom PyDate Generator Ref RandomProofs BudgetProofs SynthProofs DateProofs
  RecordProofs.
Open Scope Z_scope.

Lemma raises_only_bind_l {A B} (m : PyM A) (k : A -> PyM B) e :
  raises_only m e -> raises_only (bind m k) e.
Proof.
  intros Hm s Hs. specialize (Hm s Hs). unfold bind.
  destruct (m s); [contradiction | exact Hm | exact I].
Qed.

Lemma raises_only_bind_r {A B} (m : PyM A) (k : A -> PyM B) (P : A -> Prop) e :
  safe m P -> (forall a, P a -> raises_only (k a) e) -> raises_only (bind m k) e.
Proof.
  intros Hm Hk s Hs. specialize (Hm s Hs). unfold bind.
  destruct (m s) as [a s1| |]; [destruct Hm as [Ha Hs1]; exact (Hk a Ha s1 Hs1)
                               | contradiction | exact I].
Qed.

Lemma synth_record_safe str_lower start_dt end_dt products product_mapping business_type :
  products <> [] -> toordinal start_dt <= toordinal end_dt ->
  safe (synth_record str_lower start_dt end_dt products product_mapping business_type)
       (fun _ => True).
Proof.
  intros Hne Hle. unfold synth_record. cbv zeta.
  apply safe_bind with (P := fun _ : Z => True);
    [eapply safe_weaken; [apply randint_safe; lia | trivial] | intros rd _].
  apply safe_bind with (P := fun st => In st (map fst STATES_CITIES));
    [apply choice_safe; discriminate | intros st Hst].
  destruct (cities_nonempty st Hst) as [cs [Hcs Hcs']]. rewrite Hcs.
  apply safe_bind with (P := fun _ : string => True);
    [eapply safe_weaken; [apply choice_safe, Hcs' | trivial] | intros city _].
  apply safe_bind with (P := fun _ : string => True);
    [eapply safe_weaken; [apply choice_safe, Hne | trivial] | intros product _].
  apply safe_bind with (P := fun c => In c CHANNELS);
    [apply choice_safe; discriminate | intros ch Hch].
  apply safe_bind with (P := fun _ : Z => True);
    [apply generate_budget_safe, Hch | intros budget _].
  apply safe_bind with (P := fun _ : Z => True).
  { unfold _generate_actuals. draw_any (75 # 100) (14 # 10). apply safe_ret. exact I. }
  intros actuals _. apply safe_ret. exact I.
Qed.

Lemma gen_rows_safe str_lower n start_dt end_dt products product_mapping business_type :
  products <> [] -> toordinal start_dt <= toordinal end_dt ->
  safe (gen_rows str_lower n start_dt end_dt products product_mapping business_type)
       (fun rows => length rows = n).
Proof.
  intros Hne Hle. induction n as [|n IH]; cbn [gen_rows]; [apply safe_ret; reflexivity|].
  apply safe_bind with (P := fun _ => True);
    [apply synth_record_safe; assumption | intros r _].
  apply safe_bind with (P := fun rows => length rows = n); [exact IH | intros rs Hrs].
  apply safe_ret. simpl. rewrite Hrs. reflexivity.
Qed.

Lemma parsed_order start_date end_date sd ed :
  strptime start_date = Some sd -> strptime end_date = Some ed -> dt_ge sd ed = false ->
  toordinal sd < toordinal ed.
Proof.
  intros H1 H2 H3. apply dt_ge_false_lt; [| |exact H3].
  - exact (proj1 (strptime_ok _ _ H1)).
  - exact (proj1 (strptime_ok _ _ H2)).
Qed.

(** When both dates parse, the start is before the end, at least one row
    is asked for and the product list is not empty, the only exception
    [generate_data] can raise is the one [df.to_csv] raises on writing the
    sorted rows (an [OSError] for an unwritable [output_file]); nothing
    before the write raises. *)
Theorem generate_data_no_raise str_lower sort_values to_csv start_date end_date row_count
    products product_mapping output_file business_type s sd ed :
  wf s -> strptime start_date = Some sd -> strptime end_date = Some ed ->
  dt_ge sd ed = false -> 1 <= row_count -> products <> [] ->
  match generate_data str_lower sort_values to_csv start_date end_date row_count products
          product_mapping output_file business_type s with
  | Raise e _ => exists rows, length rows = Z.to_nat row_count /\
                   to_csv output_file (sort_values rows) = Some e
  | _ => True
  end.
Proof.
  intros Hs H1 H2 H3 Hn Hne.
  pose proof (parsed_order _ _ _ _ H1 H2 H3) as Hlt.
  unfold generate_data. rewrite H1, H2, H3. unfold bind.
  pose proof (gen_rows_safe str_lower (Z.to_nat row_count) sd ed products product_mapping
                business_type Hne ltac:(lia) s Hs) as G.
  destruct (gen_rows str_lower (Z.to_nat row_count) sd ed products product_mapping
              business_type s) as [rows s1| |]; [|contradiction|exact I].
  destruct G as [Hlen _]. destruct rows as [|r rows]; [simpl in Hlen; lia|].
  destruct (to_csv output_file (sort_values (r :: rows))) as [e|] eqn:Ec; [|exact I].
  exists (r :: rows). split; [exact Hlen | exact Ec].
Qed.

(** With an empty product list and at least one row asked for,
    [generate_data] never returns: from a well-formed state its only
    exception is [IndexError] of [random.choice]. *)
Theorem generate_data_no_products str_lower sort_values to_csv start_date end_date row_count
    product_mapping output_file business_type s sd ed :
  wf s -> strptime start_date = Some sd -> strptime end_date = Some ed ->
  dt_ge sd ed = false -> 1 <= row_count ->
  match generate_data str_lower sort_values to_csv start_date end_date row_count []
          product_mapping output_file business_type s with
  | Ret _ _ => False
  | Raise e _ => e = IndexError "Cannot choose from an empty sequence"
  | Diverge => True
  end.
Proof.
  intros Hs H1 H2 H3 Hn.
  pose proof (parsed_order _ _ _ _ H1 H2 H3) as Hlt.
  revert s Hs. fold (raises_only (generate_data str_lower sort_values to_csv start_date end_date
    row_count [] product_mapping output_file business_type)
    (IndexError "Cannot choose from an empty sequence")).
  unfold generate_data. rewrite H1, H2, H3. apply raises_only_bind_l.
  replace (Z.to_nat row_count) with (S (Z.to_nat (row_count - 1))) by lia.
  cbn [gen_rows]. apply raises_only_bind_l.
  unfold synth_record. cbv zeta.
  apply raises_only_bind_r with (P := fun _ : Z => True);
    [eapply safe_weaken; [apply randint_safe; lia | trivial] | intros rd _].
  apply raises_only_bind_r with (P := fun st => In st (map fst STATES_CITIES));
    [apply choice_safe; discriminate | intros st Hst].
  destruct (cities_nonempty st Hst) as [cs [Hcs Hcs']]. rewrite Hcs.
  apply raises_only_bind_r with (P := fun _ : string => True);
    [eapply safe_weaken; [apply choice_safe, Hcs' | trivial] | intros city _].
  apply raises_only_bind_l. intros s Hs. reflexivity.
Qed.

Lemma generate_data_no_raise_witness :
  (wf (seed 42) /\ strptime "2024-01-01" = Some (mkDate 2024 1 1) /\
   strptime "2024-01-31" = Some (mkDate 2024 1 31) /\
   dt_ge (mkDate 2024 1 1) (mkDate 2024 1 31) = false) /\
  match generate_data lower_ascii NpSort.sort_values_date to_csv_ok "2024-01-01" "2024-01-31" 3
          ["A"; "B"] [("A", "X")] "out.csv" "general" (seed 42) with
  | Raise e _ => exists rows, length rows = Z.to_nat 3 /\
                   to_csv_ok "out.csv" (NpSort.sort_values_date rows) = Some e
  | _ => True
  end.
Proof.
  assert (Hs : wf (seed 42)) by (apply wfb_wf; vm_compute; reflexivity).
  assert (H1 : strptime "2024-01-01" = Some (mkDate 2024 1 1)) by (vm_compute; reflexivity).
  assert (H2 : strptime "2024-01-31" = Some (mkDate 2024 1 31)) by (vm_compute; reflexivity).
  assert (H3 : dt_ge (mkDate 2024 1 1) (mkDate 2024 1 31) = false) by reflexivity.
  split; [repeat split; assumption|].
  exact (generate_data_no_raise lower_ascii NpSort.sort_values_date to_csv_ok _ _ 3 ["A"; "B"]
           [("A", "X")] "out.csv" "general" (seed 42) _ _ Hs H1 H2 H3 ltac:(lia)
           ltac:(discriminate)).
Defined.

Lemma generate_data_no_products_witness :
  wf (seed 42) /\
  match generate_data lower_ascii NpSort.sort_values_date to_csv_ok "2024-01-01" "2024-01-31" 3
          [] [("A", "X")] "out.csv" "general" (seed 42) with
  | Ret _ _ => False
  | Raise e _ => e = IndexError "Cannot choose from an empty sequence"
  | Diverge => True
  end.
Proof.
  assert (Hs : wf (seed 42)) by (apply wfb_wf; vm_compute; reflexivity).
  split; [exact Hs|].
  apply (generate_data_no_products _ _ _ _ _ _ _ _ _ _ (mkDate 2024 1 1) (mkDate 2024 1 31) Hs).
  - vm_compute. reflexivity.
  - vm_compute. reflexivity.
  - reflexivity.
  - lia.
Defined.

End EdgeProofs.

(* ================================================================== *)
(** ** Order and totals of the ranker's groups and periods *)

Module RankerOrderProofs.
Import PyDate Ranker Ref RankerProofs DateProofs.
Open Scope Z_scope.

Lemma key_lt_irrefl a : key_lt a a = false.
Proof. induction a as [|x a IH]; simpl; [reflexivity|]. rewrite Z.ltb_irrefl, Z.eqb_refl. exact IH. Qed.

Lemma key_lt_trans a b c : key_lt a b = true -> key_lt b c = true -> key_lt a c = true.
Proof.
  revert b c. induction a as [|x a IH]; intros [|y b] [|z c]; simpl; try congruence.
  intros H1 H2. apply orb_true_iff in H1, H2. apply orb_true_iff.
  destruct H1 as [H1|H1], H2 as [H2|H2].
  - left. apply Z.ltb_lt in H1, H2. apply Z.ltb_lt. lia.
  - left. apply andb_true_iff in H2 as [H2 _]. apply Z.ltb_lt in H1. apply Z.eqb_eq in H2.
    apply Z.ltb_lt. lia.
  - left. apply andb_true_iff in H1 as [H1 _]. apply Z.ltb_lt in H2. apply Z.eqb_eq in H1.
    apply Z.ltb_lt. lia.
  - right. apply andb_true_iff in H1 as [H1 H1'], H2 as [H2 H2'].
    apply Z.eqb_eq in H1, H2. apply andb_true_iff. split; [apply Z.eqb_eq; lia|].
    exact (IH _ _ H1' H2').
Qed.

Lemma key_lt_total a b : key_lt a b = false -> key_lt b a = false -> a = b.
Proof.
  revert b. induction a as [|x a IH]; intros [|y b]; simpl; try congruence.
  intros H1 H2. apply orb_false_iff in H1 as [H1 H1'], H2 as [H2 H2'].
  apply Z.ltb_ge in H1, H2. assert (x = y) by lia. subst y.
  rewrite Z.eqb_refl in H1', H2'. cbn [andb] in H1', H2'. f_equal. exact (IH b H1' H2').
Qed.

Lemma hdrel_group k v v' gs : HdRel group_lt (k, v) gs -> HdRel group_lt (k, v') gs.
Proof. intro H. inversion H; constructor. exact H0. Qed.

Lemma gkey_eqb_false k k' : gkey_eqb k k' = false -> gkey_lt k k' = false -> gkey_lt k' k = true.
Proof.
  unfold gkey_eqb. intros H1 H2. rewrite H2 in H1. cbn [negb andb] in H1.
  destruct (gkey_lt k' k); [reflexivity | discriminate H1].
Qed.

Lemma add_to_group_hdrel k0 v0 k x gs :
  gkey_lt k0 k = true -> HdRel group_lt (k0, v0) gs ->
  HdRel group_lt (k0, v0) (add_to_group k x gs).
Proof.
  intros Hk H. destruct gs as [|[k' t] gs']; simpl; [constructor; exact Hk|].
  inversion H; subst.
  destruct (gkey_eqb k k'); [constructor; exact H1|].
  destruct (gkey_lt k k'); constructor; assumption.
Qed.

Lemma add_to_group_sorted k x gs : Sorted group_lt gs -> Sorted group_lt (add_to_group k x gs).
Proof.
  induction gs as [|[k' t] gs' IH]; intro Hs; simpl; [repeat constructor|].
  apply Sorted_inv in Hs as [Hs Hh].
  destruct (gkey_eqb k k') eqn:Eq; [constructor; [exact Hs | exact (hdrel_group _ _ _ _ Hh)]|].
  destruct (gkey_lt k k') eqn:Lt.
  - constructor; [constructor; assumption | constructor; exact Lt].
  - constructor; [exact (IH Hs)|].
    apply add_to_group_hdrel; [exact (gkey_eqb_false _ _ Eq Lt) | exact Hh].
Qed.

Lemma grouped_sums_sorted g ds : Sorted group_lt (grouped_sums g ds).
Proof.
  unfold grouped_sums.
  assert (G : forall acc, Sorted group_lt acc ->
            Sorted group_lt (fold_left (fun gs '(od, r) =>
              match od, c_product r with
              | Some d, Some p => add_to_group (period_key g d, p)
                  (match c_actuals r with Some x => x | None => 0 end) gs
              | _, _ => gs
              end) ds acc)).
  { induction ds as [|[od r] ds IH]; intros acc Hacc; simpl; [exact Hacc|].
    apply IH. destruct od, (c_product r); try exact Hacc. apply add_to_group_sorted, Hacc. }
  apply G. constructor.
Qed.



Lemma partitions_cons per p x gs :
  partitions (((per, p), x) :: gs) =
  match partitions gs with
  | (per', grp) :: rest =>
      if key_lt per per' || key_lt per' per
      then (per, [(p, x)]) :: (per', grp) :: rest
      else (per', (p, x) :: grp) :: rest
  | [] => [(per, [(p, x)])]
  end.
Proof. reflexivity. Qed.

Lemma partitions_head per p x gs :
  exists grp rest, partitions (((per, p), x) :: gs) = (per, grp) :: rest.
Proof.
  simpl. destruct (partitions gs) as [|[per' grp] rest]; [eauto|].
  destruct (key_lt per per' || key_lt per' per) eqn:E; [eauto|].
  apply orb_false_iff in E as [E1 E2]. rewrite (key_lt_total _ _ E1 E2). eauto.
Qed.

Lemma sorted_period_head per (g1 g2 : list (string * Z)) (rest : list (list Z * list (string * Z))) :
  Sorted (fun a b => period_lt (fst a) (fst b)) ((per, g1) :: rest) ->
  Sorted (fun a b => period_lt (fst a) (fst b)) ((per, g2) :: rest).
Proof.
  intro H. apply Sorted_inv in H as [H1 H2]. constructor; [exact H1|].
  inversion H2; constructor. exact H.
Qed.

Lemma partitions_sorted gs :
  Sorted group_lt gs -> Sorted (fun a b => period_lt (fst a) (fst b)) (partitions gs).
Proof.
  induction gs as [|[[per p] x] gs IH]; intro Hs; [constructor|].
  apply Sorted_inv in Hs as [Hs Hh]. specialize (IH Hs).
  destruct gs as [|[[per2 p2] x2] gs'].
  - repeat constructor.
  - destruct (partitions_head per2 p2 x2 gs') as [grp [rest E]].
    rewrite partitions_cons, E. rewrite E in IH.
    destruct (key_lt per per2 || key_lt per2 per) eqn:Ek.
    + constructor; [exact IH|]. constructor. cbn [fst]. unfold period_lt.
      inversion Hh as [|? ? Hlt]; subst. unfold group_lt, gkey_lt in Hlt. cbn [fst] in Hlt.
      destruct (key_lt per per2) eqn:E1; [reflexivity|].
      cbn [orb] in Ek. rewrite Ek in Hlt. discriminate Hlt.
    + apply orb_false_iff in Ek as [E1 E2].
      exact (sorted_period_head _ _ _ _ IH).
Qed.

Lemma partitions_nonempty gs per grp : In (per, grp) (partitions gs) -> grp <> [].
Proof.
  induction gs as [|[[per0 p] x] gs IH]; simpl; [contradiction|].
  destruct (partitions gs) as [|[per' grp'] rest].
  - intros [H|[]]. injection H as _ <-. discriminate.
  - destruct (key_lt per0 per' || key_lt per' per0).
    + intros [H|H]; [injection H as _ <-; discriminate | exact (IH H)].
    + intros [H|H]; [injection H as _ <-; discriminate | apply IH; right; exact H].
Qed.

Lemma reports_periods ps :
  (forall per grp, In (per, grp) ps -> grp <> []) -> map period (reports ps) = map fst ps.
Proof.
  induction ps as [|[per grp] ps IH]; intro H; simpl; [reflexivity|].
  unfold get_top_bottom_products.
  destruct (with_percentage grp) as [|r rs] eqn:E.
  - exfalso. apply (H per grp (or_introl eq_refl)).
    destruct grp as [|[p x] grp]; [reflexivity | discriminate E].
  - simpl. f_equal. apply IH. intros per' grp' Hin. exact (H per' grp' (or_intror Hin)).
Qed.

Lemma sorted_map_fst {B} (l : list (list Z * B)) :
  Sorted (fun a b => period_lt (fst a) (fst b)) l -> Sorted period_lt (map fst l).
Proof.
  induction 1 as [|a l Hs IH Hh]; simpl; constructor; [exact IH|].
  inversion Hh; simpl; constructor. exact H.
Qed.

(** The periods [rank_section] reports are strictly increasing (years,
    then quarter or month): each period is reported once, in order. *)
Theorem rank_section_periods_sorted t ds g reps :
  rank_section t ds g = inr reps ->
  Sorted period_lt (map period reps) /\ NoDup (map period reps).
Proof.
  unfold rank_section.
  destruct (negb (has_column t "Product")); [discriminate|].
  destruct (negb (has_column t "Actuals")); [discriminate|].
  intro H. injection H as <-.
  rewrite reports_periods by apply partitions_nonempty.
  pose proof (sorted_map_fst _ (partitions_sorted _ (grouped_sums_sorted g ds))) as Hs.
  split; [exact Hs|].
  apply Sorted_StronglySorted in Hs; [|intros a b c; apply key_lt_trans].
  induction Hs as [|a l Hs IH Hall]; constructor; [|exact IH].
  intro Hin. rewrite Forall_forall in Hall. specialize (Hall a Hin).
  unfold period_lt in Hall. rewrite key_lt_irrefl in Hall. discriminate Hall.
Qed.

Lemma to_datetime_dates conv rs ds :
  to_datetime conv rs = inr ds ->
  forall d r, In (Some d, r) ds -> exists ods, conv (map c_date rs) = inr ods /\ In (Some d) ods.
Proof.
  unfold to_datetime. destruct (conv (map c_date rs)) as [e|ods]; [discriminate|].
  intros H d r Hin. injection H as <-. exists ods. split; [reflexivity|].
  exact (in_combine_l _ _ _ _ Hin).
Qed.

Lemma add_to_group_keys k x gs k' v :
  In (k', v) (add_to_group k x gs) -> k' = k \/ exists v', In (k', v') gs.
Proof.
  induction gs as [|[k0 t] gs IH]; simpl.
  - intros [H|[]]. injection H as <- _. left. reflexivity.
  - destruct (gkey_eqb k k0).
    + intros [H|H]; [injection H as <- _; right; exists t; left; reflexivity|].
      right. exists v. right. exact H.
    + destruct (gkey_lt k k0).
      * intros [H|[H|H]]; [injection H as <- _; left; reflexivity| |].
        -- right. exists v. left. exact H.
        -- right. exists v. right. exact H.
      * intros [H|H]; [right; exists v; left; exact H|].
        destruct (IH H) as [E|[v' Hv']]; [left; exact E | right; exists v'; right; exact Hv'].
Qed.

Lemma grouped_sums_keys (P : list Z -> Prop) g ds :
  (forall d r, In (Some d, r) ds -> P (period_key g d)) ->
  forall k v, In (k, v) (grouped_sums g ds) -> P (fst k).
Proof.
  unfold grouped_sums. intros Hds.
  assert (G : forall acc : list ((list Z * string) * Z),
            (forall k v, In (k, v) acc -> P (fst k)) ->
            forall k v, In (k, v) (fold_left (fun gs '(od, r) =>
              match od, c_product r with
              | Some d, Some p => add_to_group (period_key g d, p)
                  (match c_actuals r with Some x => x | None => 0 end) gs
              | _, _ => gs
              end) ds acc) -> P (fst k)).
  { induction ds as [|[od r] ds IH]; intros acc Hacc; simpl; [exact Hacc|].
    apply IH; [intros d r0 Hin; apply (Hds d r0); right; exact Hin|].
    destruct od as [d|]; [|exact Hacc]. destruct (c_product r) as [p|]; [|exact Hacc].
    intros k v Hin. apply add_to_group_keys in Hin as [->|[v' Hv']].
    - simpl. apply (Hds d r). left. reflexivity.
    - exact (Hacc k v' Hv'). }
  apply G. intros k v [].
Qed.

Lemma partitions_keys gs per grp :
  In (per, grp) (partitions gs) -> exists k v, In (k, v) gs /\ fst k = per.
Proof.
  revert per grp. induction gs as [|[[per0 p] x] gs IH]; intros per grp; [intros []|].
  rewrite partitions_cons. destruct (partitions gs) as [|[per' grp'] rest] eqn:E.
  - intros [H|[]]. injection H as <- _. exists (per0, p), x. split; [left|]; reflexivity.
  - destruct (key_lt per0 per' || key_lt per' per0).
    + intros [H|H].
      * injection H as <- _. exists (per0, p), x. split; [left|]; reflexivity.
      * destruct (IH per grp H) as [k [v [Hk Hf]]]. exists k, v. split; [right|]; assumption.
    + intros [H|H].
      * injection H as <- _. destruct (IH per' grp' (or_introl eq_refl)) as [k [v [Hk Hf]]].
        exists k, v. split; [right|]; assumption.
      * destruct (IH per grp (or_intror H)) as [k [v [Hk Hf]]].
        exists k, v. split; [right|]; assumption.
Qed.

Lemma reports_keys ps rep : In rep (reports ps) -> exists grp, In (period rep, grp) ps.
Proof.
  induction ps as [|[per grp] ps IH]; [intros []|]. simpl.
  destruct (get_top_bottom_products grp) as [[t b]|].
  - intros [<-|H]; [exists grp; left; reflexivity|].
    destruct (IH H) as [g' Hg]. exists g'. right. exact Hg.
  - intro H. destruct (IH H) as [g' Hg]. exists g'. right. exact Hg.
Qed.

Lemma rank_section_periods_dates conv t rs ds g reps :
  (forall col ods, conv col = inr ods -> forall d, In (Some d) ods -> valid_date d) ->
  to_datetime conv rs = inr ds -> rank_section t ds g = inr reps ->
  Forall (fun rep => exists d, valid_date d /\ period rep = period_key g d) reps.
Proof.
  intros Hc Hd Hr. unfold rank_section in Hr.
  destruct (negb (has_column t "Product")); [discriminate Hr|].
  destruct (negb (has_column t "Actuals")); [discriminate Hr|].
  injection Hr as <-. apply Forall_forall. intros rep Hin.
  destruct (reports_keys _ _ Hin) as [grp Hg].
  destruct (partitions_keys _ _ _ Hg) as [k [v [Hk <-]]].
  refine (grouped_sums_keys
            (fun per => exists d, valid_date d /\ per = period_key g d)
            g ds _ k v Hk).
  intros d r Hin'. destruct (to_datetime_dates conv rs ds Hd d r Hin') as [ods [Ho Hod]].
  exists d. split; [exact (Hc _ ods Ho d Hod) | reflexivity].
Qed.

Lemma quarter_range m : 1 <= m <= 12 -> 1 <= (m - 1) / 3 + 1 <= 4.
Proof.
  intros H. pose proof (Z.div_pos (m - 1) 3 ltac:(lia) ltac:(lia)).
  pose proof (Z.div_lt_upper_bound (m - 1) 3 4 ltac:(lia) ltac:(lia)). lia.
Qed.

(** The periods the report prints, for a [pd.to_datetime] whose values are
    calendar dates (as [Timestamp]s are): a year section period is [[y]], a
    quarter section period [[y; q]] with [1 <= q <= 4] ([dt.quarter]), and
    a month section period [[y; m]] with [1 <= m <= 12]. *)
Theorem analyze_periods_range conv t ys qs ms :
  (forall col ods, conv col = inr ods -> forall d, In (Some d) ods -> valid_date d) ->
  analyze_product_performance conv t = inr (ys, qs, ms) ->
  Forall (fun rep => exists y, period rep = [y]) ys /\
  Forall (fun rep => exists y q, period rep = [y; q] /\ 1 <= q <= 4) qs /\
  Forall (fun rep => exists y m, period rep = [y; m] /\ 1 <= m <= 12) ms.
Proof.
  intros Hc. unfold analyze_product_performance. intro H.
  destruct (negb (has_column t "Date")); [discriminate H|].
  destruct (to_datetime conv (rows t)) as [e|ds] eqn:Ed; [discriminate H|].
  destruct (rank_section t ds Year) as [e|ys'] eqn:Ey; [discriminate H|].
  destruct (rank_section t ds Quarter) as [e|qs'] eqn:Eq; [discriminate H|].
  destruct (rank_section t ds Month) as [e|ms'] eqn:Em; [discriminate H|].
  injection H as <- <- <-.
  pose proof (rank_section_periods_dates conv t _ ds Year ys' Hc Ed Ey) as Fy.
  pose proof (rank_section_periods_dates conv t _ ds Quarter qs' Hc Ed Eq) as Fq.
  pose proof (rank_section_periods_dates conv t _ ds Month ms' Hc Ed Em) as Fm.
  split; [|split].
  - revert Fy. apply Forall_impl. intros rep [d [_ Hp]]. exists (year d). exact Hp.
  - revert Fq. apply Forall_impl. intros rep [d [Hv Hp]].
    exists (year d), ((month d - 1) / 3 + 1). split; [exact Hp|].
    apply quarter_range. destruct Hv as [Hm _]. exact Hm.
  - revert Fm. apply Forall_impl. intros rep [d [Hv Hp]].
    exists (year d), (month d). split; [exact Hp|].
    destruct Hv as [Hm _]. exact Hm.
Qed.

Lemma rank_section_periods_sorted_witness :
  let t := mkTable ["Date"; "Product"; "Actuals"]
             [mkInRow (Some "2024-05-05") (Some "A") (Some 10);
              mkInRow (Some "2023-01-06") (Some "B") (Some 50);
              mkInRow (Some "2024-02-07") (Some "C") (Some 30)] in
  let ds := [(Some (mkDate 2024 5 5), mkInRow (Some "2024-05-05") (Some "A") (Some 10));
             (Some (mkDate 2023 1 6), mkInRow (Some "2023-01-06") (Some "B") (Some 50));
             (Some (mkDate 2024 2 7), mkInRow (Some "2024-02-07") (Some "C") (Some 30))] in
  exists reps, rank_section t ds Quarter = inr reps /\
    Sorted period_lt (map period reps) /\ NoDup (map period reps).
Proof.
  intros t ds. exists (match rank_section t ds Quarter with inr r => r | inl _ => [] end).
  assert (E : rank_section t ds Quarter =
              inr (match rank_section t ds Quarter with inr r => r | inl _ => [] end))
    by (vm_compute; reflexivity).
  split; [exact E|]. exact (rank_section_periods_sorted t ds Quarter _ E).
Defined.

Lemma iso_to_datetime_valid col ods :
  iso_to_datetime col = inr ods -> forall d, In (Some d) ods -> valid_date d.
Proof.
  revert ods. induction col as [|[c|] col IH]; intros ods H; simpl in H.
  - injection H as <-. intros d [].
  - destruct (strptime c) as [d0|] eqn:Ep; [|discriminate H].
    destruct (_ && _); [|discriminate H].
    destruct (iso_to_datetime col) as [e|ds] eqn:E; [discriminate H|].
    injection H as <-. intros d [Hd|Hd].
    + injection Hd as <-. exact (proj1 (strptime_ok c d0 Ep)).
    + exact (IH ds eq_refl d Hd).
  - destruct (iso_to_datetime col) as [e|ds] eqn:E; [discriminate H|].
    injection H as <-. intros d [Hd|Hd]; [discriminate Hd|].
    exact (IH ds eq_refl d Hd).
Qed.

Lemma analyze_periods_range_witness :
  let t := mkTable ["Date"; "Product"; "Actuals"]
             [mkInRow (Some "2024-05-05") (Some "A") (Some 10);
              mkInRow (Some "2023-11-06") (Some "B") (Some 50);
              mkInRow None (Some "C") (Some 30)] in
  exists r, analyze_product_performance iso_to_datetime t = inr r /\
    let '(ys, qs, ms) := r in
    Forall (fun rep => exists y, period rep = [y]) ys /\
    Forall (fun rep => exists y q, period rep = [y; q] /\ 1 <= q <= 4) qs /\
    Forall (fun rep => exists y m, period rep = [y; m] /\ 1 <= m <= 12) ms.
Proof.
  intro t.
  exists (match analyze_product_performance iso_to_datetime t with
          | inr r => r | inl _ => ([], [], []) end).
  assert (E : analyze_product_performance iso_to_datetime t =
              inr (match analyze_product_performance iso_to_datetime t with
                   | inr r => r | inl _ => ([], [], []) end))
    by (vm_compute; reflexivity).
  split; [exact E|].
  destruct (match analyze_product_performance iso_to_datetime t with
            | inr r => r | inl _ => ([], [], []) end)
    as [[ys qs] ms] eqn:Er.
  exact (analyze_periods_range iso_to_datetime t ys qs ms iso_to_datetime_valid E).
Defined.
End RankerOrderProofs.

(* ================================================================== *)
(** ** The product catalog and the command-line run *)

Module CliProofs.
Import PyStr PyRandom PyDate Catalog Generator Ref RandomProofs BudgetProofs SynthProofs
  DateProofs RecordProofs EdgeProofs Cli.
Open Scope Z_scope.

Lemma profile_cases str_lower business_type use_ai :
  In (generate_products_and_categories str_lower business_type use_ai)
     [_generate_restaurant_data; _generate_fitness_data; _generate_tech_data;
      _generate_fashion_data; _generate_automotive_data; _generate_beauty_data;
      _generate_home_data; _generate_generic_data].
Proof.
  unfold generate_products_and_categories, _generate_with_ai, _generate_smart_fallback.
  destruct use_ai;
    repeat match goal with |- context [if ?b then _ else _] => destruct b end;
    simpl; tauto.
Qed.

Lemma catalog_okb_spec p :
  catalog_okb p = true ->
  products p <> [] /\
  forall x, In x (products p) ->
    exists c, dict_find (mapping p) x = Some c /\ In c (categories p).
Proof.
  unfold catalog_okb. intro H. apply andb_true_iff in H as [H1 H2]. split.
  - destruct (products p); [discriminate H1 | discriminate].
  - intros x Hx. rewrite forallb_forall in H2. specialize (H2 x Hx).
    destruct (dict_find (mapping p) x) as [c|]; [|discriminate H2].
    exists c. split; [reflexivity|]. apply existsb_exists in H2 as [c' [Hc' E]].
    apply String.eqb_eq in E. subst c'. exact Hc'.
Qed.

Lemma catalog_ok str_lower business_type use_ai :
  let p := generate_products_and_categories str_lower business_type use_ai in
  products p <> [] /\
  forall x, In x (products p) ->
    exists c, dict_find (mapping p) x = Some c /\ In c (categories p).
Proof.
  apply catalog_okb_spec.
  pose proof (profile_cases str_lower business_type use_ai) as H.
  repeat (destruct H as [<-|H]; [vm_compute; reflexivity|]). destruct H.
Qed.

(** Whatever the business description and the [use_ai] flag, the profile
    [generate_products_and_categories] returns has at least one product, and
    every product is a key of the mapping whose value is one of the
    profile's categories (so no row of [generate_data] falls back to
    ['General']). *)
Theorem catalog_products_mapped str_lower business_type use_ai :
  let p := generate_products_and_categories str_lower business_type use_ai in
  products p <> [] /\
  forall x, In x (products p) ->
    exists c, dict_find (mapping p) x = Some c /\ In c (categories p).
Proof. exact (catalog_ok str_lower business_type use_ai). Qed.


Lemma ok_conj {A} (m : PyM A) (P Q : A -> Prop) :
  ok m P -> ok m Q -> ok m (fun a => P a /\ Q a).
Proof.
  intros HP HQ s a s' Hs H.
  destruct (HP s a s' Hs H) as [Ha Hs']. destruct (HQ s a s' Hs H) as [Hb _].
  split; [split|]; assumption.
Qed.

Lemma synth_record_category str_lower start_dt end_dt products product_mapping business_type :
  ok (synth_record str_lower start_dt end_dt products product_mapping business_type)
     (fun r => r_category r = dict_get product_mapping (r_product r) "General").
Proof.
  unfold synth_record. cbv zeta.
  apply ok_bind with (P := fun _ : Z => True);
    [intros s a s' Hs H; split; [exact I | exact (proj2 (ok_randint _ _ s a s' Hs H))]
    | intros rd _].
  apply ok_bind with (P := fun st => In st (map fst STATES_CITIES));
    [apply ok_choice | intros st Hst].
  destruct (cities_nonempty st Hst) as [cs [Hcs _]]. rewrite Hcs.
  apply ok_bind with (P := fun city => In city cs); [apply ok_choice | intros city _].
  apply ok_bind with (P := fun p => In p products); [apply ok_choice | intros product _].
  apply ok_bind with (P := fun c => In c CHANNELS); [apply ok_choice | intros ch _].
  apply ok_bind with (P := fun b => 3000 <= b <= 392000);
    [apply generate_budget_range | intros budget Hb].
  apply ok_bind with (P := fun _ : Z => True);
    [intros s a s' Hs H; split; [exact I|];
     exact (proj2 (generate_actuals_range budget ltac:(lia) s a s' Hs H)) | intros actuals _].
  apply ok_ret. reflexivity.
Qed.

Lemma gen_rows_category str_lower n start_dt end_dt products product_mapping business_type :
  ok (gen_rows str_lower n start_dt end_dt products product_mapping business_type)
     (Forall (fun r => record_ok start_dt end_dt products r /\
                       r_category r = dict_get product_mapping (r_product r) "General")).
Proof.
  induction n as [|n IH]; cbn [gen_rows]; [apply ok_ret; constructor|].
  apply ok_bind with (P := fun r => record_ok start_dt end_dt products r /\
                       r_category r = dict_get product_mapping (r_product r) "General");
    [apply ok_conj; [apply synth_record_ok | apply synth_record_category] | intros r Hr].
  apply ok_bind with (P := Forall (fun r => record_ok start_dt end_dt products r /\
                       r_category r = dict_get product_mapping (r_product r) "General"));
    [exact IH | intros rs Hrs].
  apply ok_ret. constructor; assumption.
Qed.

Lemma dt_ge_false_of_lt a b :
  valid_date a -> valid_date b -> toordinal a < toordinal b -> dt_ge a b = false.
Proof.
  intros Ha Hb Hlt. destruct (dt_ge a b) eqn:E; [|reflexivity].
  destruct (dt_ge_true_cases a b E) as [<-|E']; [lia|].
  pose proof (dt_ge_false_lt b a Hb Ha E'). lia.
Qed.

Lemma dt_ge_false_year a b : dt_ge a b = false -> year a <= year b.
Proof. unfold dt_ge. intro H. apply orb_false_iff in H as [H _]. apply Z.ltb_ge in H. exact H. Qed.

(** The dates of the command-line run: both parse back, the start is
    before the end. *)
Lemma cli_dates today months :
  1 <= months ->
  1000 <= year (fromordinal (today - months * 30)) -> year (fromordinal today) <= 9999 ->
  strptime (strftime (fromordinal (today - months * 30))) =
    Some (fromordinal (today - months * 30)) /\
  strptime (strftime (fromordinal today)) = Some (fromordinal today) /\
  dt_ge (fromordinal (today - months * 30)) (fromordinal today) = false.
Proof.
  intros Hm Hy1 Hy2.
  destruct (ord_roundtrip (today - months * 30)) as [E1 V1].
  destruct (ord_roundtrip today) as [E2 V2].
  assert (Hge : dt_ge (fromordinal (today - months * 30)) (fromordinal today) = false)
    by (apply dt_ge_false_of_lt; [exact V1 | exact V2 | rewrite E1, E2; lia]).
  pose proof (dt_ge_false_year _ _ Hge) as Hy.
  split; [|split; [|exact Hge]]; apply strptime_strftime_ok; first [assumption | lia].
Qed.

(** When at least one month and one record are asked for and the date
    range lies within the years [1000 .. 9999] (both dates then have
    four-digit years), the only exception the command-line branch of [main]
    can raise is the one [df.to_csv] raises on writing the sorted rows to
    [output_file] (an [OSError] such as [FileNotFoundError] when the default
    name [<business>_business_data.csv] points into a missing directory). *)
Theorem main_cli_no_raise str_lower sort_values to_csv today business months records output_file s :
  1 <= months -> 1 <= records ->
  1000 <= year (fromordinal (today - months * 30)) -> year (fromordinal today) <= 9999 ->
  match main_cli str_lower sort_values to_csv today business months records output_file s with
  | Raise e _ => exists rows, length rows = Z.to_nat records /\
                   to_csv output_file (sort_values rows) = Some e
  | _ => True
  end.
Proof.
  intros Hm Hr Hy1 Hy2.
  destruct (cli_dates today months Hm Hy1 Hy2) as [H1 [H2 H3]].
  destruct (catalog_ok str_lower business true) as [Hne _].
  assert (Hs : wf (seed 42)) by (apply wfb_wf; vm_compute; reflexivity).
  unfold main_cli. cbv zeta. unfold generate_data. rewrite H1, H2, H3. unfold bind.
  pose proof (dt_ge_false_lt _ _ (proj2 (ord_roundtrip _)) (proj2 (ord_roundtrip _)) H3) as Hlt.
  pose proof (gen_rows_safe str_lower (Z.to_nat records) (fromordinal (today - months * 30))
                (fromordinal today) _ (mapping (generate_products_and_categories str_lower business true))
                business Hne ltac:(lia) (seed 42) Hs) as G.
  destruct (gen_rows _ _ _ _ _ _ _ (seed 42)) as [rows s1| |]; [|contradiction|exact I].
  destruct G as [Hlen _]. destruct rows as [|r rows]; [simpl in Hlen; lia|].
  destruct (to_csv output_file (sort_values (r :: rows))) as [e|] eqn:Ec; [|exact I].
  exists (r :: rows). split; [exact Hlen | exact Ec].
Qed.

(** Every row the command-line branch of [main] writes is dated between the
    start ([months * 30] days before [today]) and [today], satisfies
    [record_ok], and carries the category the profile maps its product to,
    one of the profile's categories. *)
Theorem main_cli_rows str_lower to_csv today business months records output_file s ds s' :
  1 <= months ->
  1000 <= year (fromordinal (today - months * 30)) -> year (fromordinal today) <= 9999 ->
  main_cli str_lower NpSort.sort_values_date to_csv today business months records output_file s
    = Ret ds s' ->
  let p := generate_products_and_categories str_lower business true in
  Forall (fun r => record_ok (fromordinal (today - months * 30)) (fromordinal today)
                     (products p) r /\
                   dict_find (mapping p) (r_product r) = Some (r_category r) /\
                   In (r_category r) (categories p)) ds.
Proof.
  intros Hm Hy1 Hy2 H p.
  destruct (cli_dates today months Hm Hy1 Hy2) as [H1 [H2 H3]].
  destruct (catalog_ok str_lower business true) as [_ Hmap]. fold p in Hmap.
  assert (Hs : wf (seed 42)) by (apply wfb_wf; vm_compute; reflexivity).
  unfold main_cli in H. cbv zeta in H. fold p in H.
  unfold generate_data in H. rewrite H1, H2, H3 in H. unfold bind in H.
  destruct (gen_rows str_lower (Z.to_nat records) (fromordinal (today - months * 30))
              (fromordinal today) (products p) (mapping p) business (seed 42))
    as [rows s1|e s1|] eqn:E; try discriminate H.
  pose proof (gen_rows_category str_lower (Z.to_nat records) (fromordinal (today - months * 30))
                (fromordinal today) (products p) (mapping p) business (seed 42) rows s1 Hs E)
    as [Hrows _].
  destruct rows as [|r rows]; [discriminate H|].
  destruct (to_csv output_file (NpSort.sort_values_date (r :: rows))); [discriminate H|].
  injection H as <- <-.
  apply Forall_forall. intros x Hx. apply (sort_values_date_in (r :: rows)) in Hx.
  rewrite Forall_forall in Hrows. destruct (Hrows x Hx) as [Hok Hc].
  split; [exact Hok|].
  destruct Hok as [_ [_ [Hp _]]].
  destruct (Hmap _ Hp) as [c [Hf Hin]].
  unfold dict_get in Hc. rewrite Hf in Hc. rewrite Hc. split; [exact Hf | exact Hin].
Qed.

Lemma main_cli_no_raise_witness :
  (1 <= 1 /\ 1 <= 3 /\
   1000 <= year (fromordinal (toordinal (mkDate 2025 3 1) - 1 * 30)) /\
   year (fromordinal (toordinal (mkDate 2025 3 1))) <= 9999) /\
  match main_cli lower_ascii NpSort.sort_values_date to_csv_ok (toordinal (mkDate 2025 3 1))
          "tech startup" 1 3 "out.csv" (seed 42) with
  | Raise e _ => exists rows, length rows = Z.to_nat 3 /\
                   to_csv_ok "out.csv" (NpSort.sort_values_date rows) = Some e
  | _ => True
  end.
Proof.
  assert (Hy1 : 1000 <= year (fromordinal (toordinal (mkDate 2025 3 1) - 1 * 30)))
    by (vm_compute; intro H; discriminate H).
  assert (Hy2 : year (fromordinal (toordinal (mkDate 2025 3 1))) <= 9999)
    by (vm_compute; intro H; discriminate H).
  split; [split; [lia | split; [lia | split; assumption]]|].
  exact (main_cli_no_raise lower_ascii NpSort.sort_values_date to_csv_ok (toordinal (mkDate 2025 3 1))
           "tech startup" 1 3 "out.csv" (seed 42) ltac:(lia) ltac:(lia) Hy1 Hy2).
Defined.

Lemma main_cli_rows_witness :
  (1 <= 1 /\
   1000 <= year (fromordinal (toordinal (mkDate 2025 3 1) - 1 * 30)) /\
   year (fromordinal (toordinal (mkDate 2025 3 1))) <= 9999) /\
  match main_cli lower_ascii NpSort.sort_values_date to_csv_ok (toordinal (mkDate 2025 3 1))
          "tech startup" 1 3 "out.csv" (seed 42) with
  | Ret ds _ =>
      let p := generate_products_and_categories lower_ascii "tech startup" true in
      Forall (fun r => record_ok (fromordinal (toordinal (mkDate 2025 3 1) - 1 * 30))
                         (fromordinal (toordinal (mkDate 2025 3 1))) (products p) r /\
                       dict_find (mapping p) (r_product r) = Some (r_category r) /\
                       In (r_category r) (categories p)) ds
  | _ => False
  end.
Proof.
  assert (Hy1 : 1000 <= year (fromordinal (toordinal (mkDate 2025 3 1) - 1 * 30)))
    by (vm_compute; intro H; discriminate H).
  assert (Hy2 : year (fromordinal (toordinal (mkDate 2025 3 1))) <= 9999)
    by (vm_compute; intro H; discriminate H).
  split; [split; [lia | split; assumption]|].
  destruct (main_cli lower_ascii NpSort.sort_values_date to_csv_ok (toordinal (mkDate 2025 3 1))
              "tech startup" 1 3 "out.csv" (seed 42)) as [ds s'|e s'|] eqn:E.
  - exact (main_cli_rows lower_ascii to_csv_ok (toordinal (mkDate 2025 3 1)) "tech startup" 1 3
             "out.csv" (seed 42) ds s' ltac:(lia) Hy1 Hy2 E).
  - vm_compute in E. discriminate E.
  - vm_compute in E. discriminate E.
Defined.

End CliProofs.
